(** * Tangent (Word to JPG converter): a shallow embedding of [tangent.ts]

    The program is a command-line orchestrator: it parses its arguments,
    checks that the external tools are installed, collects the Word files
    under the input path and, for each of them, drives LibreOffice,
    pdftoppm and (optionally) ImageMagick through [spawnSync].

    Modelling conventions.
    - A JavaScript string is a sequence of UTF-16 code units.  Strings are
      embedded as [string], one [ascii] per code unit, which covers the
      code units below 256 (Latin-1).  Every literal of the program lies in
      that range; the multiplication sign U+00D7 is the character 215.
    - A JavaScript number of this program is [NaN], an infinity or an
      integer [Num z] that a double holds: [parseInt] rounds the integer
      its digits spell to the nearest double, so that it is exact up to
      2^53 and [Infinity] from 2^1024 on.
    - [process.exit(c)] and a thrown exception are the two abnormal
      outcomes [Exit c] and [Throw msg] of the monad [M]; the state of the
      monad holds the console output and the directories the program
      creates, fills, lists and removes.
    - The host is an explicit record [Env]: the working directory, the
      file system as the program finds it when it reads its input, the
      answer of every external program, and which of [mkdirSync],
      [mkdtempSync] and [rmSync] fail.  An external program that writes
      files adds entries to its output directory and does nothing else to
      the directories of the state; the two page-count queries and the
      resizer, which overwrites a file in place, leave the entries as they
      are.
    - The directories of the state are kept one by one, each with its
      entry names; [fs.existsSync(path.join(dir, name))] is membership of
      [name] in the entries of [dir].  A recursive [mkdirSync] makes the
      missing directories above its path as well, each new directory
      becoming an entry of the one that holds it; a recursive [rmSync]
      that fails can have removed a part of the entries before.
    - [path] is Node's POSIX flavour.
    - The messages of the exceptions of Node are written without their
      quotation marks. *)

From Stdlib Require Import ZArith NArith Ascii String Bool Lia.
From Stdlib Require Import Sorting.Sorted Sorting.Permutation.
From stdpp Require Import gmap strings list fin_maps.

Set Warnings "-register-all".

(* ------------------------------------------------------------------ *)
(** * JavaScript strings *)

Module Js.

Definition code (c : ascii) : N := N_of_ascii c.

(** [\d] *)
Definition isDigit (c : ascii) : bool :=
  (48 <=? code c)%N && (code c <=? 57)%N.

(** [\s], and the characters [trim] and [parseInt] strip: TAB, LF, VT, FF,
    CR, SPACE and NO-BREAK SPACE are the white space and line terminators
    below 256. *)
Definition isSpace (c : ascii) : bool :=
  ((9 <=? code c)%N && (code c <=? 13)%N) || (code c =? 32)%N || (code c =? 160)%N.

(** One code unit of [String.prototype.toLowerCase]: A-Z, and the Latin-1
    capitals U+00C0..U+00DE except the multiplication sign. *)
Definition lowerChar (c : ascii) : ascii :=
  let n := code c in
  if ((65 <=? n)%N && (n <=? 90)%N) || ((192 <=? n)%N && (n <=? 222)%N && negb (n =? 215)%N)
  then ascii_of_N (n + 32) else c.

Fixpoint toLowerCase (s : string) : string :=
  match s with
  | EmptyString => EmptyString
  | String c s' => String (lowerChar c) (toLowerCase s')
  end.

Fixpoint startsWith (s p : string) : bool :=
  match p, s with
  | EmptyString, _ => true
  | String a p', String b s' => Ascii.eqb a b && startsWith s' p'
  | String _ _, EmptyString => false
  end.

Fixpoint rev (s : string) : string :=
  match s with
  | EmptyString => EmptyString
  | String c s' => rev s' +:+ String c EmptyString
  end.

Definition endsWith (s p : string) : bool := startsWith (rev s) (rev p).

Fixpoint forallChars (p : ascii -> bool) (s : string) : bool :=
  match s with
  | EmptyString => true
  | String c s' => p c && forallChars p s'
  end.

(** The longest prefix of [s] whose characters satisfy [p], and the rest. *)
Fixpoint span (p : ascii -> bool) (s : string) : string * string :=
  match s with
  | EmptyString => (EmptyString, EmptyString)
  | String c s' =>
      if p c then let '(a, b) := span p s' in (String c a, b)
      else (EmptyString, s)
  end.

Fixpoint dropWhile (p : ascii -> bool) (s : string) : string :=
  match s with
  | EmptyString => EmptyString
  | String c s' => if p c then dropWhile p s' else s
  end.

Definition trim (s : string) : string :=
  rev (dropWhile isSpace (rev (dropWhile isSpace s))).

Definition nonEmpty (s : string) : bool :=
  match s with EmptyString => false | _ => true end.

(** The value of a run of decimal digits, most significant first. *)
Fixpoint decimalAcc (acc : N) (s : string) : N :=
  match s with
  | EmptyString => acc
  | String c s' => decimalAcc (10 * acc + (code c - 48)) s'
  end.

Definition decimal (s : string) : N := decimalAcc 0 s.

(** A number as far as this program produces one: every number of the
    program is an integer literal or a result of [parseInt], which is
    [NaN], an integer that a double holds, or an infinity.  (The zero that
    [parseInt] reads after a minus sign prints like the other zero and is
    not told apart.) *)
Inductive number : Type :=
  | NaN
  | Num (z : Z)
  | Infinity (negative : bool).

(** The double nearest to a natural number, ties going to the even
    significand of 53 bits: the number itself up to 2^53, and no finite
    double from 2^1024 - 2^970 on. *)
Definition nearestDouble (n : N) : option N :=
  let bits := N.size n in
  if (bits <=? 53)%N then Some n
  else
    let sh := (bits - 53)%N in
    let q := N.shiftr n sh in
    let r := N.land n (N.ones sh) in
    let half := N.shiftl 1 (sh - 1) in
    let q' := if (half <? r)%N || ((r =? half)%N && N.odd q)
              then (q + 1)%N else q in
    let v := N.shiftl q' sh in
    if (N.shiftl 1 1024 <=? v)%N then None else Some v.

(** The number value of a mathematical integer [n] or [-n]. *)
Definition ofDigits (negative : bool) (n : N) : number :=
  match nearestDouble n with
  | Some m => Num (if negative then - Z.of_N m else Z.of_N m)
  | None => Infinity negative
  end.

Definition ofN (n : N) : number := ofDigits false n.

(** [parseInt(s, 10)]: skip leading white space, read an optional sign,
    then the longest run of digits; [NaN] when that run is empty, and
    otherwise the number value of the integer the digits spell. *)
Definition parseInt (s : string) : number :=
  let s1 := dropWhile isSpace s in
  let '(neg, s2) :=
    match s1 with
    | String "-" r => (true, r)
    | String "+" r => (false, r)
    | _ => (false, s1)
    end in
  let '(ds, _) := span isDigit s2 in
  match ds with
  | EmptyString => NaN
  | _ => ofDigits neg (decimal ds)
  end.

(** [parseInt(undefined, 10)] is [NaN]. *)
Definition parseIntArg (a : option string) : number :=
  match a with
  | Some s => parseInt s
  | None => NaN
  end.

(** [Array.prototype.sort()] without a comparator orders strings by their
    code units; the order is total, so the result is the one sorted
    arrangement of the elements, here produced by insertion. *)
Fixpoint insertSorted (x : string) (l : list string) : list string :=
  match l with
  | [] => [x]
  | y :: l' => if String.leb x y then x :: l else y :: insertSorted x l'
  end.

Fixpoint sort (l : list string) : list string :=
  match l with
  | [] => []
  | x :: l' => insertSorted x (sort l')
  end.

End Js.

(* ------------------------------------------------------------------ *)
(** * Node's [path] module (POSIX) *)

Module Path.

Definition slash : ascii := "/"%char.
Definition dot : ascii := "."%char.

(** The segments between the separators; never the empty list. *)
Fixpoint split (s : string) : list string :=
  match s with
  | EmptyString => [EmptyString]
  | String c s' =>
      if Ascii.eqb c slash then EmptyString :: split s'
      else match split s' with
           | seg :: segs => String c seg :: segs
           | [] => [String c EmptyString]
           end
  end.

(** [normalizeString]: one segment against the segments kept so far (most
    recent first). *)
Definition normStep (allowAboveRoot : bool) (kept : list string) (seg : string)
  : list string :=
  if (seg =? EmptyString)%string || (seg =? ".")%string then kept
  else if (seg =? "..")%string then
    match kept with
    | top :: below =>
        if (top =? "..")%string
        then (if allowAboveRoot then seg :: kept else kept)
        else below
    | [] => if allowAboveRoot then [seg] else []
    end
  else seg :: kept.

Definition normSegments (allowAboveRoot : bool) (segs : list string) : list string :=
  List.rev (fold_left (normStep allowAboveRoot) segs []).

Fixpoint joinSegments (segs : list string) : string :=
  match segs with
  | [] => EmptyString
  | [s] => s
  | s :: rest => s +:+ "/" +:+ joinSegments rest
  end.

Definition isAbsolute (p : string) : bool := Js.startsWith p "/".

Definition normalize (p : string) : string :=
  match p with
  | EmptyString => "."
  | _ =>
      let abs := isAbsolute p in
      let trailing := Js.endsWith p "/" in
      let body := joinSegments (normSegments (negb abs) (split p)) in
      match body with
      | EmptyString => if abs then "/" else if trailing then "./" else "."
      | _ =>
          let body' := if trailing then body +:+ "/" else body in
          if abs then "/" +:+ body' else body'
      end
  end.

(** [path.join(a, b)] *)
Definition join (a b : string) : string :=
  match a, b with
  | EmptyString, EmptyString => "."
  | EmptyString, _ => normalize b
  | _, EmptyString => normalize a
  | _, _ => normalize (a +:+ "/" +:+ b)
  end.

(** [path.resolve(p)] against the working directory [cwd]. *)
Definition resolve (cwd p : string) : string :=
  let full :=
    match p with
    | EmptyString => cwd +:+ "/"
    | _ => if isAbsolute p then p +:+ "/" else cwd +:+ "/" +:+ p +:+ "/"
    end in
  let abs := isAbsolute full in
  let body := joinSegments (normSegments (negb abs) (split full)) in
  if abs then "/" +:+ body
  else match body with EmptyString => "." | _ => body end.

(** The last component of a path, trailing separators ignored. *)
Definition lastPart (p : string) : string :=
  match filter (fun s => Js.nonEmpty s = true) (List.rev (split p)) with
  | s :: _ => s
  | [] => EmptyString
  end.

(** The text of [b] from its last dot on, when it has a dot. *)
Fixpoint fromLastDot (b : string) : option string :=
  match b with
  | EmptyString => None
  | String c b' =>
      match fromLastDot b' with
      | Some e => Some e
      | None => if Ascii.eqb c dot then Some b else None
      end
  end.

(** [path.extname(p)]: from the last dot of the last component to its end;
    empty when there is no dot, when the only dot is the first character,
    or when the component is [..]. *)
Definition extname (p : string) : string :=
  let b := lastPart p in
  match fromLastDot b with
  | None => EmptyString
  | Some e =>
      if (e =? b)%string || (b =? "..")%string then EmptyString else e
  end.

(** [s] without its last [n] characters. *)
Definition dropEnd (n : nat) (s : string) : string :=
  String.substring 0 (String.length s - n) s.

(** [path.basename(p, ext)], for a suffix [ext] that is not longer than
    the last component (as is every [extname(p)]). *)
Definition basename (p ext : string) : string :=
  let b := lastPart p in
  match ext with
  | EmptyString => b
  | _ =>
      if (ext =? p)%string then EmptyString
      else if (ext =? b)%string then b
      else if Js.endsWith b ext then dropEnd (String.length ext) b
      else b
  end.

End Path.

(* ------------------------------------------------------------------ *)
(** * Types of the program *)

Record Resize : Type := mkResize { width : Js.number; height : Js.number }.

Record Config : Type := mkConfig {
  inputPath : string;
  outputDir : string;
  dpi : Js.number;
  quality : Js.number;
  resize : option Resize;
  recursive : bool
}.

Record ConversionResult : Type := mkResult {
  source : string;
  pages : nat;
  outputFiles : list string;
  error : option string
}.

(** What [spawnSync] returns.  When the program could not be started
    [status], [stdout] and [stderr] are all [null]; otherwise the two
    streams are strings and [status] is the exit code, or [null] when a
    signal ended the program. *)
Inductive SpawnResult : Type :=
  | NotStarted
  | Ran (status : option Z) (stdout stderr : string).

(** [r.status === 0] *)
Definition statusIsZero (r : SpawnResult) : bool :=
  match r with
  | Ran (Some 0%Z) _ _ => true
  | _ => false
  end.

(** The text of [r.stderr || r.stdout] inside a template literal. *)
Definition diagnostic (r : SpawnResult) : string :=
  match r with
  | NotStarted => "null"
  | Ran _ out err => if Js.nonEmpty err then err else out
  end.

(** A directory entry as [readdirSync(dir, { withFileTypes: true })]
    reports it: a regular file, a directory, or anything else (a symbolic
    link, a socket), for which [isFile()] and [isDirectory()] are both
    false. *)
Inductive Dirent : Type :=
  | DFile (name : string)
  | DDir (name : string) (entries : list Dirent)
  | DOther (name : string).

(** What [statSync] finds at a path. *)
Inductive Node : Type :=
  | NFile
  | NDir (entries : list Dirent)
  | NOther.

(** What the program writes to the console, one constructor per message
    (a message can take several calls of [console.log]). *)
Inductive Line : Type :=
  | LBanner
  | LHelp
  | LInvalidResize (raw : string)
  | LMissingTool (tool : string)
  | LInputNotFound (p : string)
  | LNotWord (p : string)
  | LNoFiles
  | LHeader (c : Config) (count : nat)
  | LFile (index total : nat) (filename : string)
  | LConvertingToPdf
  | LCreatingJpgs (pageCount dpi : Js.number)
  | LResizing (r : Resize)
  | LDocError (msg : string)
  | LDocOk (pages : nat) (firstOutput : string)
  | LSummary (ok failed total : nat) (outputDir : string)
  | LUnexpected (msg : string).

(** The directories the program creates, fills, lists and removes, each
    with the entry names [readdirSync] reports for it. *)
Abbreviation Dirs := (gmap string (list string)).

Record World : Type := mkWorld {
  dirs : Dirs;
  console : list Line
}.

(** The host.  [stat] is the file system as the program finds it when it
    reads its input; the other fields answer for the external programs and
    for the file-system calls that can fail.  A program that writes files
    reports the names it leaves in its output directory.  A removal that
    fails ([rmError]) can have removed part of the directory before:
    [rmLeaves] tells the entries that are still there. *)
Record Env : Type := mkEnv {
  cwd : string;
  homedir : string;
  tmpdir : string;
  stat : string -> option Node;
  which : string -> SpawnResult;
  soffice : string -> string -> string -> Dirs -> SpawnResult * list string;
  identify : option string -> Dirs -> SpawnResult;
  pdfinfo : option string -> Dirs -> SpawnResult;
  pdftoppm : Js.number -> Js.number -> option string -> string -> Dirs
             -> SpawnResult * list string;
  convert : string -> Resize -> Js.number -> Dirs -> SpawnResult;
  mkdirError : string -> Dirs -> option string;
  mkdtempSuffix : string -> Dirs -> string + string;
  rmError : string -> Dirs -> option string;
  rmLeaves : string -> Dirs -> string -> bool
}.

(* ------------------------------------------------------------------ *)
(** * Control: normal return, [process.exit], exceptions *)

Inductive Outcome (A : Type) : Type :=
  | Ok (a : A)
  | Exit (code : Z)
  | Throw (msg : string).

Arguments Ok {A} a.
Arguments Exit {A} code.
Arguments Throw {A} msg.

Definition M (A : Type) : Type := World -> Outcome A * World.

Definition ret {A} (a : A) : M A := fun w => (Ok a, w).

Definition bind {A B} (m : M A) (k : A -> M B) : M B :=
  fun w =>
    match m w with
    | (Ok a, w') => k a w'
    | (Exit c, w') => (Exit c, w')
    | (Throw e, w') => (Throw e, w')
    end.

Definition exit {A} (c : Z) : M A := fun w => (Exit c, w).
Definition throw {A} (e : string) : M A := fun w => (Throw e, w).

Definition print (l : Line) : M unit :=
  fun w => (Ok tt, mkWorld (dirs w) (console w ++ [l])).

Definition getDirs : M Dirs := fun w => (Ok (dirs w), w).
Definition putDirs (d : Dirs) : M unit := fun w => (Ok tt, mkWorld d (console w)).

(** [try { m } catch (err) { h err }] *)
Definition tryCatch {A} (m : M A) (h : string -> M A) : M A :=
  fun w =>
    match m w with
    | (Throw e, w') => h e w'
    | r => r
    end.

(** [try { m } finally { f }]: [f] runs on every way out of [m]; when [f]
    itself ends abnormally that outcome replaces the one of [m]. *)
Definition tryFinally {A} (m : M A) (f : M unit) : M A :=
  fun w =>
    let '(r, w') := m w in
    match f w' with
    | (Ok _, w'') => (r, w'')
    | (Exit c, w'') => (Exit c, w'')
    | (Throw e, w'') => (Throw e, w'')
    end.

Declare Scope tangent_scope.
Delimit Scope tangent_scope with tangent.
Notation "'let*' x := m 'in' k" := (bind m (fun x => k))
  (at level 10, x name, m at level 100, k at level 200) : tangent_scope.
Notation "m ;;; k" := (bind m (fun _ => k))
  (at level 100, right associativity) : tangent_scope.
Open Scope tangent_scope.

(* ------------------------------------------------------------------ *)
(** * [parseArgs] *)

Definition isOneOf (a : string) (flags : list string) : bool :=
  existsb (String.eqb a) flags.

(** The separator class of [/^(\d+)[x\u00D7](\d+)$/i]: the letter in
    either case, or the multiplication sign. *)
Definition isResizeSep (c : ascii) : bool :=
  Ascii.eqb c "x" || Ascii.eqb c "X" || Ascii.eqb c "215".

(** [raw.match(/^(\d+)[x\u00D7](\d+)$/i)]: the two captured groups.  The
    digits and the separator are disjoint classes, so the first group is
    the whole leading run of digits. *)
Definition matchResize (raw : string) : option (string * string) :=
  match Js.span Js.isDigit raw with
  | (String _ _ as g1, String c g2) =>
      if isResizeSep c && Js.nonEmpty g2 && Js.forallChars Js.isDigit g2
      then Some (g1, g2) else None
  | _ => None
  end.

(** [path.resolve(undefined)] and [path.dirname(undefined)] *)
Definition typeErrorPaths : string :=
  "The paths[0] argument must be of type string. Received undefined".
Definition typeErrorPath : string :=
  "The path argument must be of type string. Received undefined".
(** [undefined.match(...)] *)
Definition typeErrorMatch : string :=
  "Cannot read properties of undefined (reading 'match')".

Section ParseArgs.

Variable env : Env.

Definition defaultConfig : Config :=
  mkConfig (cwd env) (Path.join (cwd env) "output")
           (Js.Num 150) (Js.Num 90) None false.

Definition setInputPath (c : Config) (p : string) : Config :=
  mkConfig p (outputDir c) (dpi c) (quality c) (resize c) (recursive c).
Definition setOutputDir (c : Config) (p : string) : Config :=
  mkConfig (inputPath c) p (dpi c) (quality c) (resize c) (recursive c).
Definition setDpi (c : Config) (n : Js.number) : Config :=
  mkConfig (inputPath c) (outputDir c) n (quality c) (resize c) (recursive c).
Definition setQuality (c : Config) (n : Js.number) : Config :=
  mkConfig (inputPath c) (outputDir c) (dpi c) n (resize c) (recursive c).
Definition setResize (c : Config) (r : Resize) : Config :=
  mkConfig (inputPath c) (outputDir c) (dpi c) (quality c) (Some r) (recursive c).
Definition setRecursive (c : Config) : Config :=
  mkConfig (inputPath c) (outputDir c) (dpi c) (quality c) (resize c) true.

(** The [for] loop over [args]: the list is what remains from index [i]
    on; a flag that takes a value reads [args[++i]], which is [undefined]
    past the end. *)
Fixpoint parseLoop (args : list string) (config : Config) : M Config :=
  match args with
  | [] => ret config
  | a :: rest =>
      if isOneOf a ["-h"; "--help"] then
        print LHelp ;;; exit 0
      else if isOneOf a ["-i"; "--input"] then
        match rest with
        | v :: rest' => parseLoop rest' (setInputPath config (Path.resolve (cwd env) v))
        | [] => throw typeErrorPaths
        end
      else if isOneOf a ["-o"; "--output"] then
        match rest with
        | v :: rest' => parseLoop rest' (setOutputDir config (Path.resolve (cwd env) v))
        | [] => throw typeErrorPaths
        end
      else if isOneOf a ["-d"; "--dpi"] then
        match rest with
        | v :: rest' => parseLoop rest' (setDpi config (Js.parseInt v))
        | [] => ret (setDpi config (Js.parseIntArg None))
        end
      else if isOneOf a ["-q"; "--quality"] then
        match rest with
        | v :: rest' => parseLoop rest' (setQuality config (Js.parseInt v))
        | [] => ret (setQuality config (Js.parseIntArg None))
        end
      else if isOneOf a ["-s"; "--resize"] then
        match rest with
        | raw :: rest' =>
            match matchResize raw with
            | None => print (LInvalidResize raw) ;;; exit 1
            | Some (g1, g2) =>
                parseLoop rest' (setResize config (mkResize (Js.parseInt g1) (Js.parseInt g2)))
            end
        | [] => throw typeErrorMatch
        end
      else if isOneOf a ["-r"; "--recursive"] then
        parseLoop rest (setRecursive config)
      else if negb (Js.startsWith a "-") then
        parseLoop rest (setInputPath config (Path.resolve (cwd env) a))
      else parseLoop rest config
  end.

Definition parseArgs (args : list string) : M Config :=
  parseLoop args defaultConfig.

End ParseArgs.

(* ------------------------------------------------------------------ *)
(** * The file-system calls on the directories of the state *)

Section Program.

Variable env : Env.

(** [fs.existsSync(p)] on the file system as found. *)
Definition existsSync (p : string) : bool :=
  match stat env p with Some _ => true | None => false end.

(** The names a program leaves in a directory, after those already
    there. *)
Definition addNames (names : list string) (old : list string) : list string :=
  fold_left (fun acc n => if isOneOf n acc then acc else acc ++ [n]) names old.

(** The directory that holds the path whose segments, innermost first,
    are [above] followed by one more: the segments joined again, and the
    root when nothing but the root is above. *)
Definition pathOf (above : list string) : string :=
  match Path.joinSegments (List.rev above) with
  | EmptyString => "/"
  | parent => parent
  end.

(** What a recursive [mkdir] of the path [p] makes, [rsegs] being the
    segments of [p], innermost first: nothing when [p] is there already;
    otherwise the directory that holds [p] is made first, in the same way,
    and then [p], empty, whose name becomes an entry of that directory.
    A path of one segment has no directory above it in the state. *)
Fixpoint makeDirs (p : string) (rsegs : list string) (d : Dirs) : Dirs :=
  match d !! p with
  | Some _ => d
  | None =>
      match rsegs with
      | name :: (_ :: _) as above =>
          if Js.nonEmpty name then
            let parent := pathOf above in
            <[p := []]> (alter (addNames [name]) parent (makeDirs parent above d))
          else <[p := []]> d
      | _ => <[p := []]> d
      end
  end.

(** [fs.mkdirSync(p, { recursive: true })], for a normalized path [p] as
    [path.join] and [path.resolve] return it: no error when [p] is a
    directory already, and the missing directories above [p] are made as
    well. *)
Definition mkdirSync (p : string) : M unit :=
  fun w =>
    match mkdirError env p (dirs w) with
    | Some e => (Throw e, w)
    | None =>
        (Ok tt, mkWorld (makeDirs p (List.rev (Path.split p)) (dirs w)) (console w))
    end.

(** [fs.mkdtempSync(prefix)]: a directory that did not exist before.  The
    directory above it is not made, and the new name is not entered there:
    the name ends in six letters or digits, and the program lists a
    directory only for its [.pdf] or [.jpg] entries. *)
Definition mkdtempSync (prefix : string) : M string :=
  fun w =>
    match mkdtempSuffix env prefix (dirs w) with
    | inr e => (Throw e, w)
    | inl suffix =>
        let p := prefix +:+ suffix in
        match dirs w !! p with
        | Some _ => (Throw "EEXIST: file already exists, mkdtemp", w)
        | None => (Ok p, mkWorld (<[p := []]> (dirs w)) (console w))
        end
    end.

(** [fs.readdirSync(p)] *)
Definition readdirSync (p : string) : M (list string) :=
  fun w =>
    match dirs w !! p with
    | Some names => (Ok names, w)
    | None => (Throw "ENOENT: no such file or directory, scandir", w)
    end.

(** [fs.existsSync(path.join(dir, name))] for a [name] without separator:
    [name] is an entry of [dir]. *)
Definition existsIn (dir name : string) : M bool :=
  fun w =>
    match dirs w !! dir with
    | Some names => (Ok (isOneOf name names), w)
    | None => (Ok false, w)
    end.

(** [fs.rmSync(p, { recursive: true, force: true })]: a missing [p] is no
    error; a removal that fails has emptied the directory as far as it
    came, and the directory itself stays. *)
Definition rmSync (p : string) : M unit :=
  fun w =>
    match rmError env p (dirs w) with
    | Some e =>
        (Throw e,
         mkWorld (alter (filter (fun f => rmLeaves env p (dirs w) f = true)) p (dirs w))
                 (console w))
    | None => (Ok tt, mkWorld (delete p (dirs w)) (console w))
    end.

Definition writeFiles (dir : string) (names : list string) : M unit :=
  fun w => (Ok tt, mkWorld (alter (addNames names) dir (dirs w)) (console w)).

(* ------------------------------------------------------------------ *)
(** * [resolveLibreOffice] and [checkDependencies] *)

Definition macPaths : list string :=
  [ "/Applications/LibreOffice.app/Contents/MacOS/soffice";
    homedir env +:+ "/Applications/LibreOffice.app/Contents/MacOS/soffice" ].

(** [r.status === 0 && r.stdout.trim()], when truthy. *)
Definition whichPath (r : SpawnResult) : option string :=
  match r with
  | Ran (Some 0%Z) out _ =>
      let t := Js.trim out in
      if Js.nonEmpty t then Some t else None
  | _ => None
  end.

Definition resolveLibreOffice : string :=
  match List.find existsSync macPaths with
  | Some p => p
  | None =>
      match whichPath (which env "libreoffice") with
      | Some p => p
      | None =>
          match whichPath (which env "soffice") with
          | Some p => p
          | None => EmptyString
          end
      end
  end.

Definition checkDependencies (needsResize : bool) : M unit :=
  if negb (Js.nonEmpty resolveLibreOffice) then
    print (LMissingTool "LibreOffice") ;;; exit 1
  else if negb (statusIsZero (which env "pdftoppm")) then
    print (LMissingTool "pdftoppm") ;;; exit 1
  else if needsResize && negb (statusIsZero (which env "convert")) then
    print (LMissingTool "convert") ;;; exit 1
  else ret tt.

(* ------------------------------------------------------------------ *)
(** * [collectWordFiles] *)

Definition extensions : list string := [".docx"; ".dotm"].

(** [extensions.includes(path.extname(p).toLowerCase())] *)
Definition isWord (p : string) : bool :=
  isOneOf (Js.toLowerCase (Path.extname p)) extensions.

(** One turn of the loop of [scanDir]; the pushes on [files] are the
    returned list, in order. *)
Fixpoint scanEntry (recursive : bool) (dir : string) (entry : Dirent)
  : list string :=
  match entry with
  | DDir name entries =>
      if recursive
      then flat_map (scanEntry recursive (Path.join dir name)) entries
      else []
  | DFile name =>
      if isWord name then [Path.join dir name] else []
  | DOther _ => []
  end.

Definition scanDir (recursive : bool) (dir : string) (entries : list Dirent)
  : list string :=
  flat_map (scanEntry recursive dir) entries.

Definition collectWordFiles (inputPath : string) (recursive : bool)
  : M (list string) :=
  match stat env inputPath with
  | None => throw "ENOENT: no such file or directory, stat"
  | Some NFile =>
      if isWord inputPath then ret [inputPath]
      else print (LNotWord inputPath) ;;; exit 1
  | Some (NDir entries) => ret (scanDir recursive inputPath entries)
  | Some NOther => throw "ENOTDIR: not a directory, scandir"
  end.

(* ------------------------------------------------------------------ *)
(** * [convertFile] *)

Definition isPdf (f : string) : bool := Js.endsWith f ".pdf".
Definition isJpg (f : string) : bool := Js.endsWith f ".jpg".

Definition dropChars (n : nat) (s : string) : string :=
  String.substring n (String.length s - n) s.

(** [stdout.match(/Pages:\\s+(\\d+)/)]: the captured digits of the leftmost
    match. *)
Fixpoint matchPages (s : string) : option string :=
  match s with
  | EmptyString => None
  | String _ s' =>
      if Js.startsWith s "Pages:" then
        let '(sp, rest) := Js.span Js.isSpace (dropChars 6 s) in
        let '(ds, _) := Js.span Js.isDigit rest in
        if Js.nonEmpty sp && Js.nonEmpty ds then Some ds else matchPages s'
      else matchPages s'
  end.

Definition emptyFileError : string :=
  "The argument 'file' cannot be empty. Received ''".

Section ConvertFile.

Variables (filePath outputDir : string) (dpi quality : Js.number)
          (resize : option Resize).

Definition docBasename : string :=
  Path.basename filePath (Path.extname filePath).

Definition fileOutputDir : string := Path.join outputDir docBasename.

Definition tmpPrefix : string := Path.join (tmpdir env) "word2jpg-".

(** Step 1: DOCX to PDF. *)
Definition renderPdf (tmpDir : string) : M unit :=
  print LConvertingToPdf ;;;
  let libreOfficeBin := resolveLibreOffice in
  if negb (Js.nonEmpty libreOfficeBin) then throw emptyFileError
  else
    let* d := getDirs in
    let '(libreResult, written) := soffice env libreOfficeBin tmpDir filePath d in
    writeFiles tmpDir written ;;;
    if negb (statusIsZero libreResult)
    then throw ("LibreOffice error: " +:+ diagnostic libreResult)
    else ret tt.

(** Locate the PDF file: [actualPdf] is the first [.pdf] entry, or
    [undefined]. *)
Definition locatePdf (tmpDir : string) : M (option string) :=
  let* found := existsIn tmpDir (docBasename +:+ ".pdf") in
  (if negb found then
     let* names := readdirSync tmpDir in
     match map (Path.join tmpDir) (filter (fun f => isPdf f = true) names) with
     | [] => throw "No PDF file found after LibreOffice conversion."
     | _ => ret tt
     end
   else ret tt) ;;;
  let* names := readdirSync tmpDir in
  ret (head (map (Path.join tmpDir) (filter (fun f => isPdf f = true) names))).

(** Step 2: the page count, 1 unless [pdfinfo] reports another. *)
Definition pageCountOf (pdfInfoResult : SpawnResult) : Js.number :=
  match pdfInfoResult with
  | Ran (Some 0%Z) out _ =>
      match matchPages out with
      | Some g => Js.parseInt g
      | None => Js.Num 1
      end
  | _ => Js.Num 1
  end.

Definition determinePageCount (actualPdf : option string) : M Js.number :=
  let* d := getDirs in
  let infoResult := identify env actualPdf d in
  let pdfInfoResult := pdfinfo env actualPdf d in
  ret (pageCountOf pdfInfoResult).

(** Step 3: PDF to JPG. *)
Definition rasterize (actualPdf : option string) (pageCount : Js.number) : M unit :=
  print (LCreatingJpgs pageCount dpi) ;;;
  let outputPrefix := Path.join fileOutputDir (docBasename +:+ "_page") in
  let* d := getDirs in
  let '(convertResult, written) := pdftoppm env dpi quality actualPdf outputPrefix d in
  writeFiles fileOutputDir written ;;;
  if negb (statusIsZero convertResult)
  then throw ("pdftoppm error: " +:+ diagnostic convertResult)
  else ret tt.

(** Collect output files. *)
Definition collectOutputs : M (list string) :=
  let* names := readdirSync fileOutputDir in
  ret (map (Path.join fileOutputDir)
           (Js.sort (filter (fun f => isJpg f = true) names))).

(** Step 4: the loop over the output files. *)
Fixpoint resizeEach (r : Resize) (files : list string) : M unit :=
  match files with
  | [] => ret tt
  | jpgFile :: rest =>
      let* d := getDirs in
      let resizeResult := convert env jpgFile r quality d in
      if negb (statusIsZero resizeResult)
      then throw ("ImageMagick resize error: " +:+ diagnostic resizeResult)
      else resizeEach r rest
  end.

Definition resizeOutputs (files : list string) : M unit :=
  match resize with
  | Some r => print (LResizing r) ;;; resizeEach r files
  | None => ret tt
  end.

(** The body of the [try] block. *)
Definition tryBody (tmpDir : string) : M (list string) :=
  renderPdf tmpDir ;;;
  let* actualPdf := locatePdf tmpDir in
  let* pageCount := determinePageCount actualPdf in
  rasterize actualPdf pageCount ;;;
  let* outputFiles := collectOutputs in
  resizeOutputs outputFiles ;;;
  ret outputFiles.

Definition success (outputFiles : list string) : ConversionResult :=
  mkResult filePath (length outputFiles) outputFiles None.

Definition failure (message : string) : ConversionResult :=
  mkResult filePath 0 [] (Some message).

(** The [finally] block. *)
Definition cleanup (tmpDir : string) : M unit :=
  tryCatch (rmSync tmpDir) (fun _ => ret tt).

Definition convertFile : M ConversionResult :=
  mkdirSync fileOutputDir ;;;
  let* tmpDir := mkdtempSync tmpPrefix in
  tryFinally
    (tryCatch (let* outputFiles := tryBody tmpDir in ret (success outputFiles))
              (fun message => ret (failure message)))
    (cleanup tmpDir).

End ConvertFile.

(* ------------------------------------------------------------------ *)
(** * [main] *)

(** [if (result.error)]: a missing or an empty message is falsy. *)
Definition hasError (r : ConversionResult) : bool :=
  match error r with
  | Some e => Js.nonEmpty e
  | None => false
  end.

Definition errorText (r : ConversionResult) : string :=
  match error r with Some e => e | None => EmptyString end.

(** The conversion loop, from the document of index [i] on. *)
Fixpoint convertLoop (config : Config) (i total : nat) (files : list string)
  : M (list ConversionResult) :=
  match files with
  | [] => ret []
  | file :: rest =>
      print (LFile (i + 1) total (Path.basename file EmptyString)) ;;;
      let* result := convertFile file (outputDir config) (dpi config)
                                 (quality config) (resize config) in
      (if hasError result then print (LDocError (errorText result))
       else match outputFiles result with
            | first :: _ => print (LDocOk (pages result) first)
            | [] => throw typeErrorPath
            end) ;;;
      let* results := convertLoop config (i + 1) total rest in
      ret (result :: results)
  end.

Definition successCount (results : list ConversionResult) : nat :=
  length (filter (fun r => hasError r = false) results).
Definition errorCount (results : list ConversionResult) : nat :=
  length (filter (fun r => hasError r = true) results).
Definition totalJpgs (results : list ConversionResult) : nat :=
  fold_left (fun sum r => sum + pages r) results 0.

(** Everything [main] does before the loop. *)
Definition preLoop (args : list string) : M (Config * list string) :=
  print LBanner ;;;
  let* config := parseArgs env args in
  checkDependencies (match resize config with Some _ => true | None => false end) ;;;
  if negb (existsSync (inputPath config)) then
    print (LInputNotFound (inputPath config)) ;;; exit 1
  else
    let* files := collectWordFiles (inputPath config) (recursive config) in
    match files with
    | [] => print LNoFiles ;;; exit 0
    | _ =>
        print (LHeader config (length files)) ;;;
        mkdirSync (outputDir config) ;;;
        ret (config, files)
    end.

Definition main (args : list string) : M (list ConversionResult) :=
  let* found := preLoop args in
  let '(config, files) := found in
  let* results := convertLoop config 0 (length files) files in
  print (LSummary (successCount results) (errorCount results)
                  (totalJpgs results) (outputDir config)) ;;;
  ret results.

(** The process: [main().catch(...)] turns an exception into exit code 1;
    a run that returns ends with code 0. *)
Definition run (args : list string) (w : World) : Z * World :=
  match main args w with
  | (Ok _, w') => (0%Z, w')
  | (Exit c, w') => (c, w')
  | (Throw e, w') => (1%Z, mkWorld (dirs w') (console w' ++ [LUnexpected e]))
  end.

End Program.

(* ------------------------------------------------------------------ *)
(** * Notions the statements use *)

(** A non-empty run of decimal digits. *)
Definition digitRun (s : string) : Prop :=
  s <> EmptyString /\ Js.forallChars Js.isDigit s = true.

(** [raw] reads [g1], one separator, [g2], with both groups digit runs:
    the language of the pattern of [--resize]. *)
Definition ResizeForm (raw g1 g2 : string) : Prop :=
  exists c, raw = g1 +:+ String c g2 /\ isResizeSep c = true
            /\ digitRun g1 /\ digitRun g2.

(** The same with both integers positive, as a reader takes
    [<positive-int>x<positive-int>]. *)
Definition PositiveResizeForm (raw : string) : Prop :=
  exists g1 g2, ResizeForm raw g1 g2
                /\ (0 < Js.decimal g1)%N /\ (0 < Js.decimal g2)%N.

Definition isHelpFlag (a : string) : bool := isOneOf a ["-h"; "--help"].
Definition isInputFlag (a : string) : bool := isOneOf a ["-i"; "--input"].

(** The switches that read the next token as their value. *)
Definition takesValue (a : string) : bool :=
  isOneOf a ["-i"; "--input"] || isOneOf a ["-o"; "--output"]
  || isOneOf a ["-d"; "--dpi"] || isOneOf a ["-q"; "--quality"]
  || isOneOf a ["-s"; "--resize"].

Definition isRecognized (a : string) : bool :=
  isHelpFlag a || takesValue a || isOneOf a ["-r"; "--recursive"].

(** Scanning [args] from the left, the last token is a switch still
    waiting for its value. *)
Fixpoint dangling (args : list string) : bool :=
  match args with
  | [] => false
  | a :: rest =>
      if takesValue a then
        match rest with
        | [] => true
        | _ :: rest' => dangling rest'
        end
      else dangling rest
  end.

(** The tokens that name an input path, in order: the values of
    [-i]/[--input], and the tokens that do not start with a dash and are
    not the value of a preceding switch. *)
Fixpoint inputTokens (args : list string) : list string :=
  match args with
  | [] => []
  | a :: rest =>
      if isInputFlag a then
        match rest with
        | v :: rest' => v :: inputTokens rest'
        | [] => []
        end
      else if takesValue a then
        match rest with
        | _ :: rest' => inputTokens rest'
        | [] => []
        end
      else if Js.startsWith a "-" then inputTokens rest
      else a :: inputTokens rest
  end.

(** The lines that announce one of the fatal conditions checked before
    the loop. *)
Definition isFatalLine (l : Line) : bool :=
  match l with
  | LInvalidResize _ | LMissingTool _ | LInputNotFound _ | LNotWord _ => true
  | _ => false
  end.

(** A file name as a directory holds it: no separator in it. *)
Definition isFileName (f : string) : bool :=
  Js.forallChars (fun c => negb (Ascii.eqb c Path.slash)) f.

(** The regular files of a listing that are Word documents. *)
Definition wordFilesOf (entries : list Dirent) : list string :=
  flat_map (fun e => match e with
                     | DFile name => if isWord name then [name] else []
                     | _ => []
                     end) entries.

(** The number of Word documents in a tree, at any depth. *)
Fixpoint countWordDeep (e : Dirent) : nat :=
  match e with
  | DFile name => if isWord name then 1 else 0
  | DDir _ entries => list_sum (map countWordDeep entries)
  | DOther _ => 0
  end.

(** [p] is the path of a Word document under [dir], at any depth below
    the entries given. *)
Inductive WordFileBelow (dir : string) : list Dirent -> string -> Prop :=
  | WordHere entries name :
      In (DFile name) entries -> isWord name = true ->
      WordFileBelow dir entries (Path.join dir name)
  | WordDeeper entries name sub p :
      In (DDir name sub) entries ->
      WordFileBelow (Path.join dir name) sub p ->
      WordFileBelow dir entries p.

(** One of the failures of the pipeline of [convertFile], met in the
    [try] block started in state [w] with scratch directory [tmp]: the
    document-to-PDF conversion returns non-zero; it returns zero and no
    PDF file is found in the scratch directory; the rasterization returns
    non-zero; the resize of one of the collected files returns
    non-zero. *)
Inductive StepFails (env : Env) (filePath outputDir : string)
    (dpi quality : Js.number) (resize : option Resize)
    (tmp : string) (w : World) : Prop :=
  | ConversionNonZero :
      Js.nonEmpty (resolveLibreOffice env) = true ->
      statusIsZero
        (fst (soffice env (resolveLibreOffice env) tmp filePath (dirs w))) = false ->
      StepFails env filePath outputDir dpi quality resize tmp w
  | NoPdfFound w1 names :
      renderPdf env filePath tmp w = (Ok tt, w1) ->
      dirs w1 !! tmp = Some names ->
      filter (fun f => isPdf f = true) names = [] ->
      StepFails env filePath outputDir dpi quality resize tmp w
  | RasterizationNonZero w1 pdf w2 n w3 :
      renderPdf env filePath tmp w = (Ok tt, w1) ->
      locatePdf filePath tmp w1 = (Ok pdf, w2) ->
      determinePageCount env pdf w2 = (Ok n, w3) ->
      statusIsZero
        (fst (pdftoppm env dpi quality pdf
                (Path.join (fileOutputDir filePath outputDir)
                           (docBasename filePath +:+ "_page")) (dirs w3))) = false ->
      StepFails env filePath outputDir dpi quality resize tmp w
  | ResizeNonZero r w1 pdf w2 n w3 w4 files w5 :
      resize = Some r ->
      renderPdf env filePath tmp w = (Ok tt, w1) ->
      locatePdf filePath tmp w1 = (Ok pdf, w2) ->
      determinePageCount env pdf w2 = (Ok n, w3) ->
      rasterize env filePath outputDir dpi quality pdf n w3 = (Ok tt, w4) ->
      collectOutputs filePath outputDir w4 = (Ok files, w5) ->
      Exists (fun f => statusIsZero (convert env f r quality (dirs w5)) = false)
             files ->
      StepFails env filePath outputDir dpi quality resize tmp w.

(** The console without the page count of the progress line. *)
Definition erasePageCount (l : Line) : Line :=
  match l with
  | LCreatingJpgs _ dpi => LCreatingJpgs Js.NaN dpi
  | _ => l
  end.

(** The host with other answers of the two page-count queries. *)
Definition withLookup (env : Env)
    (identify' pdfinfo' : option string -> Dirs -> SpawnResult) : Env :=
  mkEnv (cwd env) (homedir env) (tmpdir env) (stat env) (which env)
        (soffice env) identify' pdfinfo' (pdftoppm env) (convert env)
        (mkdirError env) (mkdtempSuffix env) (rmError env) (rmLeaves env).


(** The order of [sort()]: code unit by code unit, a prefix first. *)
Definition lexLe (a b : string) : Prop := String.leb a b = true.

(** The text [path.join(d, f)] puts before a file name [f]. *)
Definition joinPrefix (d : string) : string :=
  match d with
  | EmptyString => EmptyString
  | _ =>
      let abs := Path.isAbsolute d in
      let kept := fold_left (Path.normStep (negb abs)) (Path.split d) [] in
      (if abs then "/" else EmptyString)
      +:+ match kept with
          | [] => EmptyString
          | _ => Path.joinSegments (List.rev kept) +:+ "/"
          end
  end.

(** Outcomes of a step of the pipeline: no [process.exit], a thrown
    message is never empty, and the set of directories is unchanged. *)
Definition Behaved {A} (m : M A) : Prop :=
  forall w,
    match m w with
    | (Ok _, w') => dom (dirs w') = dom (dirs w)
    | (Exit _, _) => False
    | (Throw e, w') => e <> EmptyString /\ dom (dirs w') = dom (dirs w)
    end.

(** Two states alike up to the page count of the progress lines. *)
Definition alike (w1 w2 : World) : Prop :=
  dirs w1 = dirs w2
  /\ map erasePageCount (console w1) = map erasePageCount (console w2).

(** Two computations that take alike states to equal outcomes and alike
    states. *)
Definition Alike {A} (m1 m2 : M A) : Prop :=
  forall w1 w2, alike w1 w2 ->
    fst (m1 w1) = fst (m2 w2) /\ alike (snd (m1 w1)) (snd (m2 w2)).

(** What an exit says: the code is 0 or 1, and before an exit with code 1
    the last line written names a fatal condition. *)
Definition exitFact (c : Z) (w : World) : Prop :=
  (c = 0%Z \/ c = 1%Z)
  /\ (c = 1%Z -> exists l, last (console w) = Some l /\ isFatalLine l = true).

Definition ExitsWell {A} (m : M A) : Prop :=
  forall w c w', m w = (Exit c, w') -> exitFact c w'.

(* ------------------------------------------------------------------ *)
(** * A sample host *)

Module Demo.

Definition docName (file : string) : string :=
  Path.basename file (Path.extname file).

Definition exited (code : Z) (out : string) : SpawnResult :=
  Ran (Some code) out EmptyString.

Definition tree : list Dirent :=
  [ DFile "A.docx"; DFile "B.DOTM"; DFile "notes.txt";
    DDir "sub" [DFile "C.docx"; DFile ".docx"];
    DOther "link.docx" ].

Definition statOf (p : string) : option Node :=
  if (p =? "/home/u/docs")%string then Some (NDir tree)
  else if (p =? "/home/u/Report.docx")%string then Some NFile
  else if (p =? "/home/u/notes.txt")%string then Some NFile
  else None.

Definition pagesOf (prefix : string) : list string :=
  [ Path.lastPart prefix +:+ "-2.jpg";
    Path.lastPart prefix +:+ "-1.jpg";
    Path.lastPart prefix +:+ "-3.jpg" ].

(** Every tool installed and working; three pages per document. *)
Definition host : Env :=
  mkEnv "/home/u" "/home/u" "/tmp" statOf
    (fun tool => exited 0 ("/usr/bin/" +:+ tool))
    (fun _ _ file _ => (exited 0 EmptyString, [docName file +:+ ".pdf"]))
    (fun _ _ => NotStarted)
    (fun _ _ => exited 0 "Pages:          3")
    (fun _ _ _ prefix _ => (exited 0 EmptyString, pagesOf prefix))
    (fun _ _ _ _ => exited 0 EmptyString)
    (fun _ _ => None)
    (fun _ _ => inl "a1B2c3")
    (fun _ _ => None)
    (fun _ _ _ => true).

(** The same host with one behaviour changed. *)
Definition withSoffice (f : string -> string -> string -> Dirs -> SpawnResult * list string)
  : Env :=
  mkEnv (cwd host) (homedir host) (tmpdir host) (stat host) (which host)
        f (identify host) (pdfinfo host) (pdftoppm host) (convert host)
        (mkdirError host) (mkdtempSuffix host) (rmError host)
        (rmLeaves host).

Definition withRmError (f : string -> Dirs -> option string) : Env :=
  mkEnv (cwd host) (homedir host) (tmpdir host) (stat host) (which host)
        (soffice host) (identify host) (pdfinfo host) (pdftoppm host)
        (convert host) (mkdirError host) (mkdtempSuffix host) f (rmLeaves host).

Definition withMkdirError (f : string -> Dirs -> option string) : Env :=
  mkEnv (cwd host) (homedir host) (tmpdir host) (stat host) (which host)
        (soffice host) (identify host) (pdfinfo host) (pdftoppm host)
        (convert host) f (mkdtempSuffix host) (rmError host) (rmLeaves host).

(** A host whose LibreOffice fails on every document. *)
Definition broken : Env :=
  withSoffice (fun _ _ _ _ => (exited 1 "boom", [])).

(** A host on which the output subdirectory of [Report] cannot be made. *)
Definition outputTaken (p : string) (_ : Dirs) : option string :=
  if (p =? "/home/u/output/Report")%string
  then Some "EEXIST: file already exists, mkdir '/home/u/output/Report'"
  else None.

Definition config : Config :=
  mkConfig "/home/u/docs" "/home/u/output" (Js.Num 150) (Js.Num 90) None false.

Definition start : World := mkWorld ∅ [].

End Demo.

(* ------------------------------------------------------------------ *)
(** * Further notions *)

(** The directories above a path, nearest first, [rsegs] being the
    segments of the path, innermost first. *)
Fixpoint pathsAbove (rsegs : list string) : list string :=
  match rsegs with
  | _ :: (_ :: _) as above => pathOf above :: pathsAbove above
  | _ => []
  end.

(** None of the tokens is one of the given spellings of a switch. *)
Definition noneOf (flags args : list string) : Prop :=
  Forall (fun a => isOneOf a flags = false) args.

(** A computation that leaves the directories of the state as they are. *)
Definition KeepsDirs {A} (m : M A) : Prop :=
  forall w, dirs (snd (m w)) = dirs w.

(** A computation whose exceptions all carry a message in [P]. *)
Definition Throws {A} (P : string -> Prop) (m : M A) : Prop :=
  forall w e w', m w = (Throw e, w') -> P e.

(** The messages of the errors a document can end with once LibreOffice
    has been found: the diagnostic of one of the three tools after its
    name, the missing PDF, or a directory that cannot be listed. *)
Definition knownError (e : string) : Prop :=
  Js.startsWith e "LibreOffice error: " = true
  \/ e = "No PDF file found after LibreOffice conversion."
  \/ e = "ENOENT: no such file or directory, scandir"
  \/ Js.startsWith e "pdftoppm error: " = true
  \/ Js.startsWith e "ImageMagick resize error: " = true.

(** Every regular file of the tree has a file name. *)
Fixpoint wellNamed (e : Dirent) : bool :=
  match e with
  | DFile name => isFileName name
  | DDir _ entries => forallb wellNamed entries
  | DOther _ => true
  end.

(** The sum of the page counts, as the summary of [main] shows it. *)
Definition pagesTotal (results : list ConversionResult) : nat :=
  list_sum (map (fun r => length (outputFiles r)) results).

(** Further sample hosts. *)
Module Hosts.

(** The resizer fails on every file. *)
Definition noResize : Env :=
  mkEnv (cwd Demo.host) (homedir Demo.host) (tmpdir Demo.host) (stat Demo.host)
        (which Demo.host) (soffice Demo.host) (identify Demo.host)
        (pdfinfo Demo.host) (pdftoppm Demo.host)
        (fun _ _ _ _ => Demo.exited 1 "convert: unable to open image")
        (mkdirError Demo.host) (mkdtempSuffix Demo.host) (rmError Demo.host)
        (rmLeaves Demo.host).

(** The rasterizer exits with 0 and writes nothing. *)
Definition noPages : Env :=
  mkEnv (cwd Demo.host) (homedir Demo.host) (tmpdir Demo.host) (stat Demo.host)
        (which Demo.host) (soffice Demo.host) (identify Demo.host)
        (pdfinfo Demo.host)
        (fun _ _ _ _ _ => (Demo.exited 0 EmptyString, []))
        (convert Demo.host)
        (mkdirError Demo.host) (mkdtempSuffix Demo.host) (rmError Demo.host)
        (rmLeaves Demo.host).

(** No scratch directory can be made. *)
Definition noScratch : Env :=
  mkEnv (cwd Demo.host) (homedir Demo.host) (tmpdir Demo.host) (stat Demo.host)
        (which Demo.host) (soffice Demo.host) (identify Demo.host)
        (pdfinfo Demo.host) (pdftoppm Demo.host) (convert Demo.host)
        (mkdirError Demo.host)
        (fun _ _ => inr "EACCES: permission denied, mkdtemp")
        (rmError Demo.host) (rmLeaves Demo.host).

(** Nothing is installed. *)
Definition bare : Env :=
  mkEnv (cwd Demo.host) (homedir Demo.host) (tmpdir Demo.host) (stat Demo.host)
        (fun _ => Demo.exited 1 EmptyString)
        (soffice Demo.host) (identify Demo.host)
        (pdfinfo Demo.host) (pdftoppm Demo.host) (convert Demo.host)
        (mkdirError Demo.host) (mkdtempSuffix Demo.host) (rmError Demo.host)
        (rmLeaves Demo.host).

End Hosts.

(* ------------------------------------------------------------------ *)
(** * Properties *)

#[local] Arguments String.append !s1 s2 : simpl nomatch.

(** ** Strings *)

Lemma span_app (p : ascii -> bool) (s : string) :
  s = fst (Js.span p s) +:+ snd (Js.span p s).
Proof.
  induction s as [|c s IH]; simpl; [reflexivity|].
  destruct (p c); [|reflexivity].
  destruct (Js.span p s) as [a b]; simpl in *. congruence.
Qed.

Lemma span_prefix (p : ascii -> bool) (s : string) :
  Js.forallChars p (fst (Js.span p s)) = true.
Proof.
  induction s as [|c s IH]; simpl; [reflexivity|].
  destruct (p c) eqn:Hc; [|reflexivity].
  destruct (Js.span p s) as [a b]; simpl in *. now rewrite Hc.
Qed.

Lemma span_stop (p : ascii -> bool) (g : string) (c : ascii) (rest : string) :
  Js.forallChars p g = true -> p c = false ->
  Js.span p (g +:+ String c rest) = (g, String c rest).
Proof.
  intros Hg Hc. induction g as [|a g IH]; simpl in *.
  - now rewrite Hc.
  - apply andb_true_iff in Hg as [Ha Hg]. rewrite Ha, (IH Hg). reflexivity.
Qed.

Lemma span_all (p : ascii -> bool) (g : string) :
  Js.forallChars p g = true -> Js.span p g = (g, EmptyString).
Proof.
  induction g as [|a g IH]; simpl; [reflexivity|].
  intros [Ha Hg]%andb_true_iff. now rewrite Ha, (IH Hg).
Qed.

Lemma resizeSep_not_digit (c : ascii) :
  isResizeSep c = true -> Js.isDigit c = false.
Proof.
  unfold isResizeSep. intros H.
  apply orb_true_iff in H as [H|H]; [apply orb_true_iff in H as [H|H]|];
    apply Ascii.eqb_eq in H; subst c; reflexivity.
Qed.

Lemma digit_not_space (c : ascii) : Js.isDigit c = true -> Js.isSpace c = false.
Proof.
  unfold Js.isDigit, Js.isSpace. intros H.
  apply andb_true_iff in H as [H1 H2].
  apply N.leb_le in H1. apply N.leb_le in H2.
  repeat match goal with
  | |- (_ || _) = false => apply orb_false_iff; split
  | |- (_ && _) = false => apply andb_false_iff
  end.
  - right. apply N.leb_gt. lia.
  - apply N.eqb_neq. lia.
  - apply N.eqb_neq. lia.
Qed.

Lemma digit_not_sign (c : ascii) :
  Js.isDigit c = true -> c <> "-"%char /\ c <> "+"%char.
Proof. intros H; split; intros ->; discriminate H. Qed.

(** [parseInt] of a run of digits is the number value of its decimal
    value. *)
Lemma parseInt_digitRun (g : string) :
  digitRun g -> Js.parseInt g = Js.ofN (Js.decimal g).
Proof.
  intros [Hne Hd]. destruct g as [|c g]; [congruence|].
  pose proof Hd as Hd'. simpl in Hd'. apply andb_true_iff in Hd' as [Hc Hg].
  unfold Js.parseInt. cbn [Js.dropWhile]. rewrite (digit_not_space _ Hc).
  destruct (digit_not_sign _ Hc) as [Hm Hp].
  assert (Hsign : (let '(neg, s2) :=
             match String c g with
             | String "-"%char r => (true, r)
             | String "+"%char r => (false, r)
             | _ => (false, String c g)
             end in
           let '(ds, _) := Js.span Js.isDigit s2 in
           match ds with
           | EmptyString => Js.NaN
           | _ => Js.ofDigits neg (Js.decimal ds)
           end) = Js.ofN (Js.decimal (String c g))).
  { destruct c as [b0 b1 b2 b3 b4 b5 b6 b7].
    destruct b0, b1, b2, b3, b4, b5, b6, b7; try discriminate Hc;
      rewrite (span_all _ _ Hd); reflexivity. }
  exact Hsign.
Qed.

(** Up to 2^53 the number value of an integer is the integer. *)
Lemma nearestDouble_exact (n : N) :
  (n <= 2 ^ 53)%N -> Js.nearestDouble n = Some n.
Proof.
  intros Hn. unfold Js.nearestDouble.
  destruct (N.leb_spec (N.size n) 53) as [Hs|Hs]; [reflexivity|].
  assert (Heq : n = (2 ^ 53)%N).
  { apply N.le_antisymm; [exact Hn|].
    destruct (N.lt_ge_cases n (2 ^ 53)) as [Hlt|Hge]; [|exact Hge].
    exfalso. pose proof (N.size_le n) as Hle.
    assert (H54 : (2 ^ N.size n < 2 ^ 54)%N).
    { eapply N.le_lt_trans; [exact Hle|]. rewrite N.succ_double_spec.
      change (2 ^ 54)%N with (2 * 2 ^ 53)%N. lia. }
    apply N.pow_lt_mono_r_iff in H54; lia. }
  subst n. vm_compute. reflexivity.
Qed.

Lemma ofN_exact (n : N) :
  (n <= 2 ^ 53)%N -> Js.ofN n = Js.Num (Z.of_N n).
Proof.
  intros Hn. unfold Js.ofN, Js.ofDigits. now rewrite (nearestDouble_exact _ Hn).
Qed.

(** The number value of a natural number is never [NaN] and never
    negative. *)
Lemma ofN_cases (n : N) :
  (exists m : N, Js.ofN n = Js.Num (Z.of_N m)) \/ Js.ofN n = Js.Infinity false.
Proof.
  unfold Js.ofN, Js.ofDigits. destruct (Js.nearestDouble n) as [m|]; eauto.
Qed.

(** The decimal value is positional: a further digit multiplies the value
    read so far by ten. *)
Lemma decimalAcc_append (a b : string) (acc : N) :
  Js.decimalAcc acc (a +:+ b) = Js.decimalAcc (Js.decimalAcc acc a) b.
Proof. revert acc. induction a as [|c a IH]; intros acc; cbn; [reflexivity | apply IH]. Qed.

Lemma decimal_snoc (s : string) (d : ascii) :
  Js.decimal (s +:+ String d EmptyString)
  = (10 * Js.decimal s + (Js.code d - 48))%N.
Proof. unfold Js.decimal. now rewrite decimalAcc_append. Qed.

(** ** The pattern of [--resize] *)

Lemma nonEmpty_true (s : string) : Js.nonEmpty s = true <-> s <> EmptyString.
Proof. destruct s; simpl; split; congruence. Qed.

Lemma matchResize_form (raw g1 g2 : string) :
  matchResize raw = Some (g1, g2) <-> ResizeForm raw g1 g2.
Proof.
  unfold matchResize, ResizeForm, digitRun. split.
  - pose proof (span_app Js.isDigit raw) as Happ.
    pose proof (span_prefix Js.isDigit raw) as Hpre.
    destruct (Js.span Js.isDigit raw) as [a b]; simpl in *.
    destruct a as [|a0 a]; [destruct b; discriminate|].
    destruct b as [|c b]; [discriminate|].
    destruct (isResizeSep c && Js.nonEmpty b && Js.forallChars Js.isDigit b) eqn:E;
      [|discriminate].
    intros [= <- <-].
    apply andb_true_iff in E as [[Hc Hb]%andb_true_iff Hd].
    exists c. rewrite nonEmpty_true in Hb. repeat split; try assumption; congruence.
  - intros (c & -> & Hc & [Hn1 Hd1] & [Hn2 Hd2]).
    rewrite (span_stop _ _ _ _ Hd1 (resizeSep_not_digit _ Hc)).
    destruct g1 as [|a0 a]; [congruence|].
    apply nonEmpty_true in Hn2. now rewrite Hc, Hn2, Hd2.
Qed.

Lemma matchResize_none (raw : string) :
  matchResize raw = None <-> ~ exists g1 g2, ResizeForm raw g1 g2.
Proof.
  split.
  - intros H (g1 & g2 & Hf). apply matchResize_form in Hf. congruence.
  - intros H. destruct (matchResize raw) as [[g1 g2]|] eqn:E; [|reflexivity].
    exfalso. apply H. exists g1, g2. now apply matchResize_form.
Qed.

(** ** The argument loop *)

(** Induction over a list the way the loop walks it: one or two tokens
    at a time. *)
Lemma tokens_ind (P : list string -> Prop) :
  P [] ->
  (forall a rest, P rest ->
                  (forall v rest', rest = v :: rest' -> P rest') ->
                  P (a :: rest)) ->
  forall args, P args.
Proof.
  intros Hnil Hstep args.
  assert (H : P args /\ forall v rest', args = v :: rest' -> P rest').
  { induction args as [|a rest [IH1 IH2]].
    - split; [exact Hnil | discriminate].
    - split.
      + apply Hstep; assumption.
      + intros v rest' [= _ <-]. exact IH1. }
  exact (proj1 H).
Qed.

Ltac step_parse :=
  cbn [parseLoop];
  repeat match goal with
  | |- context [if isOneOf ?a ?l then _ else _] =>
      destruct (isOneOf a l) eqn:?
  | |- context [if negb (Js.startsWith ?a ?p) then _ else _] =>
      destruct (Js.startsWith a p) eqn:?; cbn [negb]
  end.

(** A parse that returns has printed nothing and touched nothing. *)
Lemma parseLoop_silent (env : Env) (args : list string) :
  forall config config' w w',
    parseLoop env args config w = (Ok config', w') -> w' = w.
Proof.
  induction args as [|a rest IH IH2] using tokens_ind; intros config config' w w'.
  - cbn. now intros [= _ <-].
  - step_parse; try (now apply IH); try discriminate;
      destruct rest as [|v rest']; try discriminate;
      try (now apply (IH2 v rest' eq_refl)); try (now intros [= _ <-]).
    destruct (matchResize v) as [[g1 g2]|]; [now apply (IH2 v rest' eq_refl)|discriminate].
Qed.

Ltac flag_facts H :=
  unfold takesValue, isInputFlag, isHelpFlag in H;
  repeat match goal with
  | E : isOneOf ?a ?l = _ |- _ =>
      lazymatch E with H => fail | _ => idtac end;
      progress (rewrite E in H)
  end;
  cbn [orb andb negb] in H.

Lemma parseLoop_app (env : Env) (pre : list string) :
  forall rest config config' w w',
    dangling pre = false ->
    parseLoop env pre config w = (Ok config', w') ->
    parseLoop env (pre ++ rest) config w = parseLoop env rest config' w'.
Proof.
  induction pre as [|a pre IH IH2] using tokens_ind;
    intros rest config config' w w' Hd Hp.
  - cbn in Hp. injection Hp as <- <-. reflexivity.
  - rewrite <- app_comm_cons. cbn [dangling] in Hd. revert Hp. step_parse;
      flag_facts Hd; try discriminate;
      try (destruct pre as [|v pre']; [discriminate|]; rewrite <- app_comm_cons);
      try (now apply IH); try (now apply (IH2 v pre' eq_refl)).
    destruct (matchResize v) as [[g1 g2]|]; [|discriminate].
    now apply (IH2 v pre' eq_refl).
Qed.

Lemma isOneOf_two (a x y : string) :
  isOneOf a [x; y] = true -> a = x \/ a = y.
Proof.
  unfold isOneOf. cbn [existsb]. rewrite orb_false_r.
  intros [H|H]%orb_true_iff; apply String.eqb_eq in H; auto.
Qed.

(** C4 (amended): the value of [-s]/[--resize] is accepted exactly when it
    reads: a non-empty run of decimal digits, one of [x], [X] or the
    multiplication sign, a non-empty run of decimal digits (zero and
    leading zeros included).  Then the scan goes on with the resize width
    and height set to the number values of the two runs (the doubles
    nearest to their decimal values), which are the decimal values
    themselves whenever these are at most 2^53, and a parse of just this
    switch returns that configuration.  Any other value prints the error
    and ends the process with exit code 1. *)
Theorem resize_value_parsed (env : Env) (flag raw : string) (rest : list string)
    (config : Config) (w : World) :
  isOneOf flag ["-s"; "--resize"] = true ->
  (forall g1 g2, ResizeForm raw g1 g2 ->
     let r := mkResize (Js.ofN (Js.decimal g1)) (Js.ofN (Js.decimal g2)) in
     parseLoop env (flag :: raw :: rest) config w
       = parseLoop env rest (setResize config r) w
     /\ parseArgs env [flag; raw] w = (Ok (setResize (defaultConfig env) r), w)
     /\ ((Js.decimal g1 <= 2 ^ 53)%N -> width r = Js.Num (Z.of_N (Js.decimal g1)))
     /\ ((Js.decimal g2 <= 2 ^ 53)%N -> height r = Js.Num (Z.of_N (Js.decimal g2))))
  /\ ((~ exists g1 g2, ResizeForm raw g1 g2) ->
      parseLoop env (flag :: raw :: rest) config w
        = (Exit 1, mkWorld (dirs w) (console w ++ [LInvalidResize raw]))
      /\ fst (run env (flag :: raw :: rest) w) = 1%Z).
Proof.
  intros Hflag.
  assert (Hstep : forall c w0, parseLoop env (flag :: raw :: rest) c w0 =
            match matchResize raw with
            | None => (print (LInvalidResize raw) ;;; exit 1) w0
            | Some (g1, g2) =>
                parseLoop env rest
                  (setResize c (mkResize (Js.parseInt g1) (Js.parseInt g2))) w0
            end).
  { intros c w0. destruct (isOneOf_two _ _ _ Hflag) as [-> | ->]; cbn [parseLoop];
      cbn; destruct (matchResize raw) as [[g1 g2]|]; reflexivity. }
  split.
  - intros g1 g2 Hform r. pose proof Hform as (c & _ & _ & Hg1 & Hg2).
    apply matchResize_form in Hform. split; [|split; [|split]].
    + rewrite Hstep, Hform, (parseInt_digitRun _ Hg1), (parseInt_digitRun _ Hg2).
      reflexivity.
    + unfold parseArgs.
      assert (H0 : parseLoop env [flag; raw] (defaultConfig env) w
                   = parseLoop env [] (setResize (defaultConfig env)
                       (mkResize (Js.parseInt g1) (Js.parseInt g2))) w).
      { destruct (isOneOf_two _ _ _ Hflag) as [-> | ->]; cbn [parseLoop]; cbn;
          rewrite Hform; reflexivity. }
      rewrite H0, (parseInt_digitRun _ Hg1), (parseInt_digitRun _ Hg2). reflexivity.
    + intros Hle. cbn [width r]. now apply ofN_exact.
    + intros Hle. cbn [height r]. now apply ofN_exact.
  - intros Hnot. apply matchResize_none in Hnot. split.
    + rewrite Hstep, Hnot. reflexivity.
    + unfold run, main, preLoop, parseArgs, bind at 1 2 3. cbn [print].
      rewrite Hstep, Hnot. reflexivity.
Qed.

Lemma resize_value_parsed_witness :
  parseArgs Demo.host ["-s"; "2480x3508"] Demo.start
    = (Ok (setResize (defaultConfig Demo.host)
             (mkResize (Js.Num 2480) (Js.Num 3508))), Demo.start)
  /\ fst (run Demo.host ["-s"; "2480*3508"] Demo.start) = 1%Z.
Proof.
  pose proof (resize_value_parsed Demo.host "-s" "2480x3508" []
                (defaultConfig Demo.host) Demo.start eq_refl) as [Hyes _].
  pose proof (resize_value_parsed Demo.host "-s" "2480*3508" []
                (defaultConfig Demo.host) Demo.start eq_refl) as [_ Hno].
  split.
  - apply (Hyes "2480" "3508"). exists "x"%char.
    repeat split; try reflexivity; discriminate.
  - apply Hno. apply matchResize_none. reflexivity.
Defined.

(** C4 (as stated, refuted): the value [0x0] is not of the form
    positive integer, separator, positive integer, and yet it is accepted:
    the parse returns a configuration with a 0 by 0 resize.  And the
    value [9007199254740993x1] is of that form, but the width of the
    configuration is 9007199254740992, the double nearest to 2^53 + 1,
    and not the integer that was written. *)
Lemma resize_zero_accepted :
  (~ PositiveResizeForm "0x0"
   /\ fst (parseArgs Demo.host ["--resize"; "0x0"] Demo.start)
      = Ok (setResize (defaultConfig Demo.host) (mkResize (Js.Num 0) (Js.Num 0))))
  /\ (PositiveResizeForm "9007199254740993x1"
      /\ fst (parseArgs Demo.host ["--resize"; "9007199254740993x1"] Demo.start)
         = Ok (setResize (defaultConfig Demo.host)
                 (mkResize (Js.Num 9007199254740992) (Js.Num 1)))
      /\ Js.decimal "9007199254740993" = 9007199254740993%N).
Proof.
  split; [split; [|reflexivity] | split; [|split; reflexivity]].
  - intros (g1 & g2 & Hform & Hp1 & Hp2).
    apply matchResize_form in Hform. vm_compute in Hform.
    injection Hform as <- <-. vm_compute in Hp1. discriminate.
  - exists "9007199254740993", "1". split; [|split; reflexivity].
    apply matchResize_form. reflexivity.
Qed.

(** C7 (amended): when the scan reaches a help flag, that is, the tokens
    before it are parsed without a fatal error or an exception and none of
    them is a switch left waiting for its value, the program prints the
    usage text and exits with code 0 at once; the arguments after the help
    flag are ignored. *)
Theorem help_short_circuits (env : Env) (pre post : list string) (h : string)
    (w : World) :
  isHelpFlag h = true ->
  dangling pre = false ->
  (exists config, fst (parseArgs env pre w) = Ok config) ->
  run env (pre ++ h :: post) w
    = (0%Z, mkWorld (dirs w) (console w ++ [LBanner; LHelp])).
Proof.
  intros Hh Hd [config Hp].
  set (w1 := mkWorld (dirs w) (console w ++ [LBanner])).
  assert (Hpre : fst (parseArgs env pre w1) = Ok config ->
                 parseArgs env (pre ++ h :: post) w1
                 = (Exit 0, mkWorld (dirs w1) (console w1 ++ [LHelp]))).
  { intros H. unfold parseArgs in *.
    destruct (parseLoop env pre (defaultConfig env) w1) as [o w'] eqn:E.
    simpl in H. subst o. pose proof (parseLoop_silent _ _ _ _ _ _ E) as ->.
    rewrite (parseLoop_app env pre _ _ _ _ _ Hd E).
    cbn [parseLoop]. unfold isHelpFlag in Hh. rewrite Hh. reflexivity. }
  assert (Hsame : fst (parseArgs env pre w1) = Ok config).
  { unfold parseArgs in *. clear Hpre.
    destruct (parseLoop env pre (defaultConfig env) w) as [o w'] eqn:E.
    simpl in Hp. subst o. pose proof (parseLoop_silent _ _ _ _ _ _ E) as ->.
    revert E. generalize (defaultConfig env) as c. clear Hd.
    induction pre as [|a pre IH IH2] using tokens_ind; intros c.
    - cbn. now intros [= ->].
    - step_parse; try discriminate; try (now apply IH);
        destruct pre as [|v pre']; try discriminate;
        try (now apply (IH2 v pre' eq_refl)); try (now intros [= ->]).
      all: try (cbn; intros [= ->]; reflexivity).
      destruct (matchResize v) as [[g1 g2]|]; [now apply (IH2 v pre' eq_refl)|discriminate]. }
  specialize (Hpre Hsame).
  unfold run, main, preLoop. unfold bind at 1 2 3. cbn [print]. fold w1.
  rewrite Hpre. subst w1. cbn. rewrite <- app_assoc. reflexivity.
Qed.

Lemma help_short_circuits_witness :
  run Demo.host (["-d"; "300"; "docs"] ++ "--help" :: ["-s"; "bad"]) Demo.start
    = (0%Z, mkWorld ∅ [LBanner; LHelp]).
Proof.
  apply (help_short_circuits Demo.host ["-d"; "300"; "docs"] ["-s"; "bad"]
           "--help" Demo.start); [reflexivity | reflexivity |].
  eexists. reflexivity.
Defined.

(** C7 (as stated, refuted): an argument list that contains the help flag
    and still ends with exit code 1 and no usage text, because the
    malformed resize value is met first. *)
Lemma help_after_bad_resize :
  In "--help" ["--resize"; "bad"; "--help"]
  /\ run Demo.host ["--resize"; "bad"; "--help"] Demo.start
     = (1%Z, mkWorld ∅ [LBanner; LInvalidResize "bad"]).
Proof. split; [simpl; auto | reflexivity]. Qed.

(** C8 (amended): the input path of the configuration is decided by the
    tokens that name an input: the tokens that do not start with a dash
    and are not the value of a preceding switch, and the values of
    [-i]/[--input].  The last of them, resolved against the working
    directory, is the final input path; without any, it is the working
    directory.  A token that starts with a dash and is no known switch is
    skipped. *)
Theorem input_path_last_wins (env : Env) (args : list string)
    (config : Config) (w w' : World) :
  parseArgs env args w = (Ok config, w') ->
  inputPath config =
    match last (inputTokens args) with
    | Some p => Path.resolve (cwd env) p
    | None => cwd env
    end.
Proof.
  unfold parseArgs. change (cwd env) with (inputPath (defaultConfig env)) at 2.
  generalize (defaultConfig env) as c. revert config w w'.
  induction args as [|a rest IH IH2] using tokens_ind; intros config w w' c.
  - cbn. now intros [= <- _].
  - cbn [inputTokens]. step_parse; intros Hp;
      destruct (isInputFlag a) eqn:Hin; flag_facts Hin; try discriminate Hin;
      clear Hin;
      try (destruct (takesValue a) eqn:Htv; flag_facts Htv; try discriminate Htv;
           clear Htv);
      try discriminate Hp;
      try (destruct rest as [|v rest']; [try discriminate Hp|]).
    all: try (cbn in Hp; injection Hp as <- _; reflexivity).
    all: try match type of Hp with
             | context [matchResize ?x] =>
                 destruct (matchResize x) as [[g1 g2]|]; [|discriminate Hp]
             end.
    all: try match goal with
             | E : Js.startsWith _ _ = _ |- _ => rewrite E
             | E : isOneOf _ ["-r"; "--recursive"] = true |- _ =>
                 destruct (isOneOf_two _ _ _ E) as [-> | ->];
                 cbn -[inputTokens last Path.resolve]
             end.
    all: try (rewrite last_cons).
    all: first [ pose proof (IH2 _ _ eq_refl _ _ _ _ Hp) as Hq
               | pose proof (IH _ _ _ _ Hp) as Hq ];
         clear IH IH2 Hp; rewrite Hq; clear Hq;
         match goal with |- context [last ?l] => destruct (last l) end;
         reflexivity.
Qed.

Lemma input_path_last_wins_witness :
  inputPath (setOutputDir
               (setRecursive (setInputPath (defaultConfig Demo.host) "/home/u/b.docx"))
               "/home/u/out")
  = "/home/u/b.docx".
Proof.
  apply (input_path_last_wins Demo.host
           ["a.docx"; "--verbose"; "-o"; "out"; "b.docx"; "-r"] _
           Demo.start Demo.start).
  reflexivity.
Defined.

(** C8 (as stated, refuted): [--verbose] is no known switch and is not the
    value of a switch, yet it does not become the input path, which stays
    the working directory. *)
Lemma unknown_dash_token_ignored :
  isRecognized "--verbose" = false
  /\ exists config,
       parseArgs Demo.host ["--verbose"] Demo.start = (Ok config, Demo.start)
       /\ inputPath config = "/home/u"
       /\ inputPath config <> Path.resolve (cwd Demo.host) "--verbose".
Proof.
  split; [reflexivity|]. eexists. split; [reflexivity|].
  split; [reflexivity | discriminate].
Qed.

(** ** The file collector *)

(** Induction on a tree of entries, with the hypothesis for every entry
    of a directory. *)
Lemma Dirent_nested_ind (P : Dirent -> Prop) :
  (forall name, P (DFile name)) ->
  (forall name entries, Forall P entries -> P (DDir name entries)) ->
  (forall name, P (DOther name)) ->
  forall e, P e.
Proof.
  intros Hfile Hdir Hother. fix IH 1. intros [name|name entries|name].
  - apply Hfile.
  - apply Hdir. induction entries as [|e es IHes]; constructor.
    + apply IH.
    + exact IHes.
  - apply Hother.
Qed.

Lemma scanDir_flat (recursive : bool) (dir : string) (entries : list Dirent) :
  scanDir recursive dir entries
  = flat_map (scanEntry recursive dir) entries.
Proof. reflexivity. Qed.

Lemma scanDir_top_level (dir : string) (entries : list Dirent) :
  scanDir false dir entries = map (Path.join dir) (wordFilesOf entries).
Proof.
  unfold scanDir, wordFilesOf.
  induction entries as [|e es IH]; [reflexivity|].
  cbn [flat_map]. rewrite map_app, IH. f_equal.
  destruct e as [name|name sub|name]; cbn [scanEntry];
    [destruct (isWord name)|..]; reflexivity.
Qed.

Lemma scanEntry_length (e : Dirent) :
  forall dir, length (scanEntry true dir e) = countWordDeep e.
Proof.
  induction e as [name|name sub IH|name] using Dirent_nested_ind; intros dir.
  - cbn [scanEntry countWordDeep]. destruct (isWord name); reflexivity.
  - cbn [scanEntry countWordDeep].
    induction IH as [|e es He _ IHes]; [reflexivity|].
    cbn [flat_map map list_sum foldr]. rewrite length_app, He.
    f_equal. exact IHes.
  - reflexivity.
Qed.

Lemma scanDir_length (dir : string) (entries : list Dirent) :
  length (scanDir true dir entries) = list_sum (map countWordDeep entries).
Proof.
  unfold scanDir. induction entries as [|e es IH]; [reflexivity|].
  cbn [flat_map map]. rewrite length_app, scanEntry_length, IH. reflexivity.
Qed.

Lemma scanDir_in_entry (recursive : bool) (dir : string) (entries : list Dirent) (p : string) :
  In p (scanDir recursive dir entries)
  <-> exists e, In e entries /\ In p (scanEntry recursive dir e).
Proof. unfold scanDir. apply in_flat_map. Qed.

Lemma scanEntry_below (e : Dirent) :
  forall dir p,
    In p (scanEntry true dir e)
    <-> (exists name, e = DFile name /\ isWord name = true /\ p = Path.join dir name)
        \/ (exists name sub, e = DDir name sub
                             /\ WordFileBelow (Path.join dir name) sub p).
Proof.
  induction e as [name|name sub IH|name] using Dirent_nested_ind; intros dir p.
  - cbn [scanEntry]. split.
    + destruct (isWord name) eqn:E; [|intros []].
      intros [<-|[]]. left. exists name. auto.
    + intros [(n & [= <-] & Hw & ->) | (n & s & [=] & _)].
      rewrite Hw. left. reflexivity.
  - cbn [scanEntry]. fold (scanDir true (Path.join dir name) sub).
    rewrite scanDir_in_entry. split.
    + intros (e & He & Hp). right. exists name, sub. split; [reflexivity|].
      rewrite Forall_forall in IH. apply (IH e) in Hp.
      2:{ apply list_elem_of_In. exact He. }
      destruct Hp as [(n & -> & Hw & ->) | (n & s & -> & Hb)].
      * now apply WordHere.
      * now apply WordDeeper with n s.
    + intros [(n & [=] & _) | (n & s & [= <- <-] & Hb)].
      rewrite Forall_forall in IH.
      inversion Hb as [es n' Hin Hw | es n' s' p' Hin Hb']; subst.
      * exists (DFile n'). split; [exact Hin|].
        apply IH; [apply list_elem_of_In; exact Hin|]. left. exists n'. auto.
      * exists (DDir n' s'). split; [exact Hin|].
        apply IH; [apply list_elem_of_In; exact Hin|]. right. exists n', s'. auto.
  - cbn. split; [intros [] | intros [(n & [=] & _) | (n & s & [=] & _)]].
Qed.

Lemma scanDir_below (dir : string) (entries : list Dirent) (p : string) :
  In p (scanDir true dir entries) <-> WordFileBelow dir entries p.
Proof.
  rewrite scanDir_in_entry. split.
  - intros (e & He & Hp). apply scanEntry_below in Hp.
    destruct Hp as [(n & -> & Hw & ->) | (n & s & -> & Hb)].
    + now apply WordHere.
    + now apply WordDeeper with n s.
  - intros Hb. inversion Hb as [es n Hin Hw | es n s p' Hin Hb']; subst.
    + exists (DFile n). split; [exact Hin|]. apply scanEntry_below. left. exists n. auto.
    + exists (DDir n s). split; [exact Hin|]. apply scanEntry_below. right.
      exists n, s. auto.
Qed.

(** The top-level documents come in the same order in both modes. *)
Lemma scanDir_sublist (dir : string) (entries : list Dirent) :
  sublist (scanDir false dir entries) (scanDir true dir entries).
Proof.
  unfold scanDir. induction entries as [|e es IH]; [constructor|].
  cbn [flat_map]. apply sublist_app; [|exact IH].
  destruct e as [name|name sub|name]; cbn [scanEntry]; [reflexivity| |reflexivity].
  apply sublist_nil_l.
Qed.

(** C5: for an input directory, collection without the recursive flag
    returns exactly the Word documents (extension .docx or .dotm in any
    letter case) among the regular files of its immediate entries, in
    entry order, N of them when N are eligible, and nothing from nested
    directories.  With the flag it returns exactly the Word documents at
    any depth: as many as the tree holds, the top-level ones among them in
    the same order. *)
Theorem collect_directory (env : Env) (dir : string) (entries : list Dirent)
    (w : World) :
  stat env dir = Some (NDir entries) ->
  (collectWordFiles env dir false w
     = (Ok (map (Path.join dir) (wordFilesOf entries)), w)
   /\ length (map (Path.join dir) (wordFilesOf entries))
      = length (wordFilesOf entries))
  /\ exists files,
       collectWordFiles env dir true w = (Ok files, w)
       /\ (forall p, In p files <-> WordFileBelow dir entries p)
       /\ length files = list_sum (map countWordDeep entries)
       /\ sublist (map (Path.join dir) (wordFilesOf entries)) files.
Proof.
  intros Hstat. unfold collectWordFiles. rewrite Hstat. split.
  - split; [|apply length_map]. unfold ret. now rewrite scanDir_top_level.
  - exists (scanDir true dir entries). split; [reflexivity|].
    split; [apply scanDir_below|]. split; [apply scanDir_length|].
    rewrite <- scanDir_top_level. apply scanDir_sublist.
Qed.

Lemma collect_directory_witness :
  collectWordFiles Demo.host "/home/u/docs" false Demo.start
    = (Ok ["/home/u/docs/A.docx"; "/home/u/docs/B.DOTM"], Demo.start)
  /\ collectWordFiles Demo.host "/home/u/docs" true Demo.start
    = (Ok ["/home/u/docs/A.docx"; "/home/u/docs/B.DOTM"; "/home/u/docs/sub/C.docx"],
       Demo.start).
Proof.
  destruct (collect_directory Demo.host "/home/u/docs" Demo.tree Demo.start eq_refl)
    as [[Hflat _] (files & Hdeep & _)].
  split; [exact Hflat|]. reflexivity.
Defined.

(** ** The order of strings and [sort] *)

Lemma ascii_compare_refl (c : ascii) : Ascii.compare c c = Eq.
Proof. unfold Ascii.compare. apply N.compare_refl. Qed.

Lemma string_compare_refl (s : string) : String.compare s s = Eq.
Proof. induction s as [|c s IH]; cbn; [reflexivity|]. now rewrite ascii_compare_refl. Qed.

Lemma leb_prefix (p a b : string) :
  String.leb (p +:+ a) (p +:+ b) = String.leb a b.
Proof.
  unfold String.leb. induction p as [|c p IH]; cbn; [reflexivity|].
  now rewrite ascii_compare_refl.
Qed.

Lemma ascii_compare_trans (a b c : ascii) (r : comparison) :
  Ascii.compare a b = r -> Ascii.compare b c = r -> Ascii.compare a c = r.
Proof.
  unfold Ascii.compare. destruct r; intros H1 H2.
  - apply N.compare_eq in H1, H2. rewrite H1, H2. apply N.compare_refl.
  - rewrite N.compare_lt_iff in *. lia.
  - rewrite N.compare_gt_iff in *. lia.
Qed.

Lemma ascii_compare_eq (a b : ascii) : Ascii.compare a b = Eq -> a = b.
Proof. apply Ascii.compare_eq_iff. Qed.

Lemma string_compare_le_trans (a : string) :
  forall b c, String.compare a b <> Gt -> String.compare b c <> Gt ->
              String.compare a c <> Gt.
Proof.
  induction a as [|x a IH]; intros [|y b] [|z c]; cbn; try congruence.
  destruct (Ascii.compare x y) eqn:Exy; try congruence;
    destruct (Ascii.compare y z) eqn:Eyz; try congruence.
  - apply ascii_compare_eq in Exy, Eyz. subst. rewrite ascii_compare_refl. apply IH.
  - apply ascii_compare_eq in Exy. subst. now rewrite Eyz.
  - apply ascii_compare_eq in Eyz. subst. now rewrite Exy.
  - now rewrite (ascii_compare_trans _ _ _ _ Exy Eyz).
Qed.

Lemma lexLe_trans (a b c : string) : lexLe a b -> lexLe b c -> lexLe a c.
Proof.
  unfold lexLe, String.leb. intros H1 H2.
  pose proof (string_compare_le_trans a b c) as H.
  destruct (String.compare a b), (String.compare b c), (String.compare a c);
    try discriminate; try reflexivity; exfalso; apply H; congruence.
Qed.

Lemma lexLe_total (a b : string) : lexLe a b \/ lexLe b a.
Proof. apply String.leb_total. Qed.

Lemma insertSorted_perm (x : string) (l : list string) :
  Permutation (Js.insertSorted x l) (x :: l).
Proof.
  induction l as [|y l IH]; cbn; [reflexivity|].
  destruct (String.leb x y); [reflexivity|].
  rewrite IH. apply perm_swap.
Qed.

Lemma sort_perm (l : list string) : Permutation (Js.sort l) l.
Proof.
  induction l as [|x l IH]; cbn; [reflexivity|].
  rewrite insertSorted_perm. now constructor.
Qed.

Lemma insertSorted_sorted (x : string) (l : list string) :
  StronglySorted lexLe l -> StronglySorted lexLe (Js.insertSorted x l).
Proof.
  induction l as [|y l IH]; intros Hs; cbn.
  - repeat constructor.
  - apply StronglySorted_inv in Hs as [Hl Hy].
    destruct (String.leb x y) eqn:E.
    + constructor; [constructor; assumption|].
      constructor; [exact E|].
      eapply Forall_impl; [exact Hy|]. intros z Hz. now apply lexLe_trans with y.
    + constructor; [now apply IH|].
      assert (Hyx : lexLe y x).
      { destruct (lexLe_total x y) as [H|H]; [unfold lexLe in H; congruence | exact H]. }
      rewrite Forall_forall. intros z Hz.
      apply list_elem_of_In in Hz.
      apply (Permutation_in _ (insertSorted_perm x l)) in Hz as [<-|Hz]; [exact Hyx|].
      rewrite Forall_forall in Hy. apply Hy. now apply list_elem_of_In.
Qed.

Lemma sort_sorted (l : list string) : StronglySorted lexLe (Js.sort l).
Proof.
  induction l as [|x l IH]; cbn; [constructor | now apply insertSorted_sorted].
Qed.

Lemma sorted_map_prefix (p : string) (l : list string) :
  StronglySorted lexLe l -> StronglySorted lexLe (map (String.append p) l).
Proof.
  induction 1 as [|x l Hs IH Hx]; cbn; constructor; [exact IH|].
  rewrite Forall_forall in *. intros y Hy.
  apply list_elem_of_fmap in Hy as (z & -> & Hz).
  unfold lexLe. rewrite leb_prefix. now apply Hx.
Qed.

(** ** [path.join] with a file name *)

Lemma append_assoc (a b c : string) : (a +:+ b) +:+ c = a +:+ (b +:+ c).
Proof. induction a as [|x a IH]; cbn; [reflexivity | now rewrite IH]. Qed.

Lemma append_empty_r (a : string) : a +:+ EmptyString = a.
Proof. induction a as [|x a IH]; cbn; [reflexivity | now rewrite IH]. Qed.

Lemma rev_append (a b : string) : Js.rev (a +:+ b) = Js.rev b +:+ Js.rev a.
Proof.
  induction a as [|c a IH]; cbn [Js.rev String.append].
  - now rewrite append_empty_r.
  - now rewrite IH, append_assoc.
Qed.

Lemma split_nonempty (s : string) : Path.split s <> [].
Proof.
  induction s as [|c s IH]; cbn; [discriminate|].
  destruct (Ascii.eqb c Path.slash); [discriminate|].
  destruct (Path.split s); [congruence | discriminate].
Qed.

Lemma split_append_slash (d s : string) :
  Path.split (d +:+ String Path.slash s) = Path.split d ++ Path.split s.
Proof.
  induction d as [|c d IH]; cbn [String.append Path.split].
  - now rewrite Ascii.eqb_refl.
  - destruct (Ascii.eqb c Path.slash); [now rewrite IH|].
    rewrite IH. pose proof (split_nonempty d).
    destruct (Path.split d); [congruence | reflexivity].
Qed.

Lemma split_fileName (f : string) : isFileName f = true -> Path.split f = [f].
Proof.
  unfold isFileName. induction f as [|c f IH]; cbn; [reflexivity|].
  intros [Hc Hf]%andb_true_iff. apply negb_true_iff in Hc. rewrite Hc.
  now rewrite (IH Hf).
Qed.

Lemma joinSegments_snoc (l : list string) (f : string) :
  Path.joinSegments (l ++ [f])
  = match l with
    | [] => EmptyString
    | _ => Path.joinSegments l +:+ "/"
    end +:+ f.
Proof.
  induction l as [|s l IH]; [reflexivity|].
  cbn [app Path.joinSegments]. destruct l as [|s' l].
  - cbn. now rewrite append_assoc.
  - change ((s' :: l) ++ [f]) with (s' :: l ++ [f]) in *.
    rewrite IH. cbn [app]. rewrite !append_assoc. reflexivity.
Qed.

Lemma forallChars_append (p : ascii -> bool) (a b : string) :
  Js.forallChars p (a +:+ b) = Js.forallChars p a && Js.forallChars p b.
Proof. induction a as [|c a IH]; cbn; [reflexivity|]. now rewrite IH, andb_assoc. Qed.

Lemma forallChars_rev (p : ascii -> bool) (s : string) :
  Js.forallChars p (Js.rev s) = Js.forallChars p s.
Proof.
  induction s as [|c s IH]; cbn; [reflexivity|].
  rewrite forallChars_append, IH. cbn. now rewrite andb_true_r, andb_comm.
Qed.

Lemma rev_nonempty (s : string) : s <> EmptyString -> Js.rev s <> EmptyString.
Proof.
  destruct s as [|c s]; [congruence|]. intros _. cbn.
  destruct (Js.rev s); discriminate.
Qed.

Lemma fileName_no_leading_slash (f rest : string) :
  isFileName f = true -> f <> EmptyString ->
  Js.startsWith (f +:+ rest) "/" = false.
Proof.
  unfold isFileName. destruct f as [|c f]; [congruence|].
  cbn [Js.forallChars String.append Js.startsWith].
  intros [Hc _]%andb_true_iff _. apply negb_true_iff in Hc.
  unfold Path.slash in Hc. rewrite Ascii.eqb_sym, Hc. reflexivity.
Qed.

Lemma fileName_no_trailing_slash (d f : string) :
  isFileName f = true -> f <> EmptyString ->
  Js.endsWith (d +:+ f) "/" = false.
Proof.
  intros Hf Hne. unfold Js.endsWith. cbn [Js.rev String.append].
  set (r := Js.rev f).
  assert (Hr : isFileName r = true) by (unfold isFileName, r; now rewrite forallChars_rev).
  assert (Hrn : r <> EmptyString) by now apply rev_nonempty.
  rewrite rev_append. now apply fileName_no_leading_slash.
Qed.

Lemma startsWith_empty (s : string) : Js.startsWith s EmptyString = true.
Proof. now destruct s. Qed.

Lemma startsWith_append (p s : string) : Js.startsWith (p +:+ s) p = true.
Proof.
  induction p as [|c p IH]; cbn; [now destruct s|].
  now rewrite Ascii.eqb_refl, IH.
Qed.

Lemma endsWith_append (b ext : string) : Js.endsWith (b +:+ ext) ext = true.
Proof. unfold Js.endsWith. rewrite rev_append. apply startsWith_append. Qed.

Lemma isAbsolute_append (d s : string) :
  d <> EmptyString -> Path.isAbsolute (d +:+ s) = Path.isAbsolute d.
Proof.
  destruct d as [|c d]; [congruence|]. intros _. unfold Path.isAbsolute.
  cbn [String.append Js.startsWith]. now rewrite !startsWith_empty.
Qed.

Lemma normStep_fileName (allow : bool) (kept : list string) (f : string) :
  f <> EmptyString -> f <> "." -> f <> ".." -> Path.normStep allow kept f = f :: kept.
Proof.
  intros H0 H1 H2. unfold Path.normStep.
  apply String.eqb_neq in H0, H1, H2. now rewrite H0, H1, H2.
Qed.

(** A file name joined to a directory is the file name after a text that
    depends on the directory only. *)
Lemma join_fileName (d f : string) :
  isFileName f = true -> f <> EmptyString -> f <> "." -> f <> ".." ->
  Path.join d f = joinPrefix d +:+ f.
Proof.
  intros Hf H0 H1 H2.
  assert (Hnorm : forall s, s <> EmptyString ->
            Path.normalize (s +:+ "/" +:+ f) = joinPrefix s +:+ f).
  { intros s Hs. unfold Path.normalize.
    destruct (s +:+ "/" +:+ f) eqn:E; [destruct s; [congruence|discriminate]|].
    rewrite <- E. clear E.
    rewrite (isAbsolute_append s _ Hs).
    assert (Htr : Js.endsWith (s +:+ "/" +:+ f) "/" = false)
      by (rewrite <- append_assoc; now apply fileName_no_trailing_slash).
    rewrite Htr.
    change (s +:+ "/" +:+ f) with (s +:+ String Path.slash f).
    rewrite split_append_slash, (split_fileName _ Hf).
    unfold Path.normSegments. rewrite fold_left_app. cbn [fold_left].
    rewrite (normStep_fileName _ _ _ H0 H1 H2).
    change (List.rev (f :: ?k)) with (List.rev k ++ [f]).
    rewrite joinSegments_snoc.
    assert (Hpre : joinPrefix s
              = (if Path.isAbsolute s then "/" else EmptyString)
                +:+ match List.rev (fold_left (Path.normStep (negb (Path.isAbsolute s)))
                                              (Path.split s) []) with
                    | [] => EmptyString
                    | _ => Path.joinSegments
                             (List.rev (fold_left (Path.normStep (negb (Path.isAbsolute s)))
                                                  (Path.split s) [])) +:+ "/"
                    end).
    { unfold joinPrefix. destruct s as [|c s]; [congruence|].
      set (kept := fold_left _ _ []). destruct kept as [|k ks]; [reflexivity|].
      destruct (List.rev (k :: ks)) eqn:E; [|reflexivity].
      apply (f_equal (@length _)) in E. rewrite length_rev in E. discriminate. }
    rewrite Hpre. set (pre := match List.rev _ with [] => EmptyString | _ => _ end).
    destruct (pre +:+ f) eqn:E.
    - exfalso. destruct pre; [cbn in E; congruence | discriminate].
    - rewrite <- E. destruct (Path.isAbsolute s); [|reflexivity].
      now rewrite append_assoc. }
  unfold Path.join.
  destruct d as [|c d], f as [|c' f]; try congruence.
  - unfold Path.normalize, joinPrefix.
    pose proof (fileName_no_leading_slash (String c' f) EmptyString Hf H0) as Habs.
    rewrite append_empty_r in Habs. unfold Path.isAbsolute. rewrite Habs.
    pose proof (fileName_no_trailing_slash EmptyString (String c' f) Hf H0) as Htr.
    cbn [String.append] in Htr. rewrite Htr.
    rewrite (split_fileName _ Hf). unfold Path.normSegments. cbn [fold_left negb].
    rewrite (normStep_fileName _ _ _ H0 H1 H2). reflexivity.
  - now rewrite Hnorm by discriminate.
Qed.

Lemma isJpg_not_special (f : string) :
  isJpg f = true -> f <> EmptyString /\ f <> "." /\ f <> "..".
Proof. intros H. repeat split; intros ->; discriminate H. Qed.

(** ** The monad *)

Lemma bind_Ok {A B} (m : M A) (k : A -> M B) (w w' : World) (b : B) :
  bind m k w = (Ok b, w') ->
  exists a w1, m w = (Ok a, w1) /\ k a w1 = (Ok b, w').
Proof.
  unfold bind. destruct (m w) as [[a|c|e] w1]; try discriminate. eauto.
Qed.

Lemma bind_run {A B} (m : M A) (k : A -> M B) (w w1 : World) (a : A) :
  m w = (Ok a, w1) -> bind m k w = k a w1.
Proof. unfold bind. now intros ->. Qed.

Lemma bind_throw {A B} (m : M A) (k : A -> M B) (w w1 : World) (e : string) :
  m w = (Throw e, w1) -> bind m k w = (Throw e, w1).
Proof. unfold bind. now intros ->. Qed.

Lemma append_nonempty (a b : string) : a <> EmptyString -> a +:+ b <> EmptyString.
Proof. destruct a; [congruence | discriminate]. Qed.

Section BehavedRules.

Context {A B : Type}.

Lemma Behaved_ret (a : A) : Behaved (ret a).
Proof. intros w. reflexivity. Qed.

Lemma Behaved_throw (e : string) : e <> EmptyString -> Behaved (@throw A e).
Proof. intros He w. cbn. auto. Qed.

Lemma Behaved_bind (m : M A) (k : A -> M B) :
  Behaved m -> (forall a, Behaved (k a)) -> Behaved (bind m k).
Proof.
  intros Hm Hk w. unfold bind. specialize (Hm w).
  destruct (m w) as [[a|c|e] w1]; [|contradiction|exact Hm].
  specialize (Hk a w1). destruct (k a w1) as [[b|c|e] w2]; [|contradiction|].
  - congruence.
  - destruct Hk as [He Hd]. split; [exact He | congruence].
Qed.

Lemma Behaved_if (c : bool) (m1 m2 : M A) :
  Behaved m1 -> Behaved m2 -> Behaved (if c then m1 else m2).
Proof. destruct c; auto. Qed.

End BehavedRules.

Lemma Behaved_print (l : Line) : Behaved (print l).
Proof. intros w. reflexivity. Qed.

Lemma Behaved_getDirs : Behaved getDirs.
Proof. intros w. reflexivity. Qed.

Lemma Behaved_writeFiles (dir : string) (names : list string) :
  Behaved (writeFiles dir names).
Proof. intros w. cbn. apply dom_alter_L. Qed.

Lemma Behaved_readdirSync (p : string) : Behaved (readdirSync p).
Proof.
  intros w. unfold readdirSync. destruct (dirs w !! p); [reflexivity|].
  split; [discriminate | reflexivity].
Qed.

Lemma Behaved_existsIn (dir name : string) : Behaved (existsIn dir name).
Proof. intros w. unfold existsIn. destruct (dirs w !! dir); reflexivity. Qed.

Create HintDb behaved.

#[local] Hint Resolve Behaved_ret Behaved_print Behaved_getDirs
  Behaved_writeFiles Behaved_readdirSync Behaved_existsIn : behaved.

Ltac behaved :=
  repeat first
    [ apply Behaved_bind; [|intro]
    | apply Behaved_if
    | apply Behaved_throw; first [discriminate | apply append_nonempty; discriminate]
    | solve [auto with behaved]
    | match goal with
      | |- Behaved (let '(_, _) := ?p in _) => destruct p
      | |- Behaved (match ?x with _ => _ end) => destruct x
      end ].

Section ConvertFileFacts.

Variable env : Env.
Variables (filePath outputDir : string) (dpi quality : Js.number)
          (resize : option Resize).

Lemma Behaved_renderPdf (tmpDir : string) :
  Behaved (renderPdf env filePath tmpDir).
Proof. unfold renderPdf. behaved. Qed.

Lemma Behaved_locatePdf (tmpDir : string) :
  Behaved (locatePdf filePath tmpDir).
Proof. unfold locatePdf. behaved. Qed.

Lemma Behaved_determinePageCount (actualPdf : option string) :
  Behaved (determinePageCount env actualPdf).
Proof. unfold determinePageCount. behaved. Qed.

Lemma Behaved_rasterize (actualPdf : option string) (pageCount : Js.number) :
  Behaved (rasterize env filePath outputDir dpi quality actualPdf pageCount).
Proof. unfold rasterize. behaved. Qed.

Lemma Behaved_collectOutputs :
  Behaved (collectOutputs filePath outputDir).
Proof. unfold collectOutputs. behaved. Qed.

Lemma Behaved_resizeEach (r : Resize) (files : list string) :
  Behaved (resizeEach env quality r files).
Proof. induction files as [|f files IH]; cbn [resizeEach]; behaved. Qed.

Lemma Behaved_resizeOutputs (files : list string) :
  Behaved (resizeOutputs env quality resize files).
Proof. unfold resizeOutputs. behaved. apply Behaved_resizeEach. Qed.

Lemma Behaved_tryBody (tmpDir : string) :
  Behaved (tryBody env filePath outputDir dpi quality resize tmpDir).
Proof.
  unfold tryBody.
  pose proof Behaved_renderPdf. pose proof Behaved_locatePdf.
  pose proof Behaved_determinePageCount. pose proof Behaved_rasterize.
  pose proof Behaved_collectOutputs. pose proof Behaved_resizeOutputs.
  repeat (apply Behaved_bind; [solve [auto] | intro]). apply Behaved_ret.
Qed.

End ConvertFileFacts.

(** ** Making and removing directories *)

Lemma addNames_keeps (names old : list string) (f : string) :
  f ∈ old -> f ∈ addNames names old.
Proof.
  unfold addNames. revert old. induction names as [|n names IH]; intros old Hf;
    [exact Hf|].
  cbn [fold_left]. apply IH. destruct (isOneOf n old); [exact Hf|].
  apply elem_of_app. now left.
Qed.

(** A recursive [mkdir] makes its path, removes no directory and takes no
    entry away. *)
Lemma makeDirs_made (p : string) (rsegs : list string) (d : Dirs) :
  is_Some (makeDirs p rsegs d !! p).
Proof.
  destruct rsegs as [|name [|s above]]; cbn [makeDirs];
    destruct (d !! p) eqn:E; try (rewrite E; eauto);
    try (rewrite lookup_insert_eq; eauto).
  destruct (Js.nonEmpty name); rewrite lookup_insert_eq; eauto.
Qed.

Lemma makeDirs_grows (p : string) (rsegs : list string) (d : Dirs)
    (k : string) (names : list string) :
  d !! k = Some names ->
  exists names', makeDirs p rsegs d !! k = Some names' /\ names ⊆ names'.
Proof.
  revert p d names. induction rsegs as [|name above IH]; intros p d names Hk.
  - cbn [makeDirs]. destruct (d !! p) eqn:E; [eauto|].
    exists names. split; [|reflexivity].
    rewrite lookup_insert_ne; [exact Hk | congruence].
  - cbn [makeDirs]. destruct (d !! p) eqn:E; [eauto|].
    assert (Hplain : exists names', <[p := []]> d !! k = Some names' /\ names ⊆ names').
    { exists names. split; [|reflexivity].
      rewrite lookup_insert_ne; [exact Hk | congruence]. }
    destruct above as [|s above']; [exact Hplain|].
    destruct (Js.nonEmpty name); [|exact Hplain].
    destruct (IH (pathOf (s :: above')) d names Hk) as (names1 & H1 & Hsub).
    rewrite lookup_insert_ne; [|congruence].
    destruct (decide (pathOf (s :: above') = k)) as [<- | Hne].
    + rewrite lookup_alter_eq, H1. exists (addNames [name] names1).
      split; [reflexivity|]. intros f Hf. apply addNames_keeps. auto.
    + rewrite lookup_alter_ne; [eauto | exact Hne].
Qed.

Lemma makeDirs_new (p : string) (rsegs : list string) (d : Dirs) (k : string) :
  d !! k = None -> is_Some (makeDirs p rsegs d !! k) ->
  k = p \/ k ∈ pathsAbove rsegs.
Proof.
  revert p d. induction rsegs as [|name above IH]; intros p d Hk Hnew.
  - cbn [makeDirs] in Hnew. destruct (d !! p) eqn:E.
    + rewrite Hk in Hnew. now destruct Hnew.
    + destruct (decide (k = p)) as [->|Hne]; [now left|].
      rewrite lookup_insert_ne, Hk in Hnew by congruence. now destruct Hnew.
  - cbn [makeDirs] in Hnew. destruct (d !! p) eqn:E.
    { rewrite Hk in Hnew. now destruct Hnew. }
    destruct (decide (k = p)) as [->|Hne]; [now left|]. right.
    assert (Hplain : is_Some (<[p := []]> d !! k) -> k ∈ pathsAbove (name :: above)).
    { rewrite lookup_insert_ne, Hk by congruence. now intros []. }
    destruct above as [|s above']; [auto|].
    destruct (Js.nonEmpty name); [|auto].
    rewrite lookup_insert_ne in Hnew by congruence.
    cbn [pathsAbove].
    destruct (decide (k = pathOf (s :: above'))) as [->|Hk'];
      [apply list_elem_of_here|].
    rewrite lookup_alter_ne in Hnew by congruence.
    destruct (IH _ _ Hk Hnew) as [-> | Hin]; [contradiction|].
    now apply list_elem_of_further.
Qed.

Lemma joinSegments_split (p : string) : Path.joinSegments (Path.split p) = p.
Proof.
  induction p as [|c p IH]; [reflexivity|]. cbn [Path.split].
  pose proof (split_nonempty p) as Hne.
  destruct (Ascii.eqb_spec c Path.slash) as [->|Hc].
  - destruct (Path.split p) as [|seg segs]; [congruence|].
    change (Path.joinSegments (EmptyString :: seg :: segs))
      with (EmptyString +:+ "/" +:+ Path.joinSegments (seg :: segs)).
    now rewrite IH.
  - destruct (Path.split p) as [|seg segs]; [congruence|].
    rewrite <- IH. destruct segs; reflexivity.
Qed.

Lemma startsWith_longer (s k x : string) :
  Js.startsWith s k = true -> Js.startsWith (s +:+ x) k = true.
Proof.
  revert s. induction k as [|c k IH]; intros s; [intros _; apply startsWith_empty|].
  destruct s as [|b s]; [discriminate|]. cbn [String.append Js.startsWith].
  intros [Hc Hs]%andb_true_iff. rewrite Hc. now apply IH.
Qed.

(** The directories above a path are spelled by beginnings of the path. *)
Lemma pathsAbove_prefix (rsegs : list string) (k : string) :
  k ∈ pathsAbove rsegs ->
  Js.startsWith (Path.joinSegments (List.rev rsegs)) k = true.
Proof.
  induction rsegs as [|name above IH]; [intros Hk; inversion Hk|].
  destruct above as [|s above']; [intros Hk; inversion Hk|].
  cbn [pathsAbove]. intros Hk.
  assert (Hp : Path.joinSegments (List.rev (name :: s :: above'))
               = Path.joinSegments (List.rev (s :: above')) +:+ "/" +:+ name).
  { cbn [List.rev]. rewrite joinSegments_snoc.
    destruct (List.rev above' ++ [s]) eqn:E; [now destruct (List.rev above')|].
    now rewrite append_assoc. }
  rewrite Hp. apply elem_of_cons in Hk as [-> | Hk].
  - unfold pathOf. destruct (Path.joinSegments (List.rev (s :: above'))) eqn:E.
    + now destruct name.
    + apply startsWith_append.
  - apply startsWith_longer. now apply IH.
Qed.

(** ** [convertFile] *)

Section ConvertFileRun.

Variable env : Env.
Variables (filePath outputDir : string) (dpi quality : Js.number)
          (resize : option Resize).

#[local] Abbreviation body := (tryBody env filePath outputDir dpi quality resize).
#[local] Abbreviation convert1 := (convertFile env filePath outputDir dpi quality resize).
#[local] Abbreviation outDir := (fileOutputDir filePath outputDir).

Lemma mkdirSync_Ok (p : string) (w w1 : World) :
  mkdirSync env p w = (Ok tt, w1) ->
  is_Some (dirs w1 !! p) /\ console w1 = console w
  /\ forall k, is_Some (dirs w !! k) -> is_Some (dirs w1 !! k).
Proof.
  unfold mkdirSync. destruct (mkdirError env p (dirs w)); [discriminate|].
  intros [= <-]. cbn [dirs console]. split; [apply makeDirs_made|].
  split; [reflexivity|]. intros k [names Hk].
  destruct (makeDirs_grows p (List.rev (Path.split p)) _ _ _ Hk) as (names' & -> & _).
  eauto.
Qed.

(** What [mkdirSync] changes: the directories there before stay and lose
    no entry, and a directory that is new is the path or lies above it. *)
Lemma mkdirSync_frame (p : string) (w w1 : World) :
  mkdirSync env p w = (Ok tt, w1) ->
  (forall k names, dirs w !! k = Some names ->
     exists names', dirs w1 !! k = Some names' /\ names ⊆ names')
  /\ (forall k, dirs w !! k = None -> is_Some (dirs w1 !! k) ->
       Js.startsWith p k = true).
Proof.
  unfold mkdirSync. destruct (mkdirError env p (dirs w)); [discriminate|].
  intros [= <-]. cbn [dirs]. split.
  - intros k names Hk. now apply makeDirs_grows.
  - intros k Hk Hnew.
    destruct (makeDirs_new _ _ _ _ Hk Hnew) as [-> | Hin].
    + rewrite <- (append_empty_r p) at 1. apply startsWith_append.
    + apply pathsAbove_prefix in Hin.
      now rewrite List.rev_involutive, joinSegments_split in Hin.
Qed.

Lemma mkdtempSync_Ok (prefix tmp : string) (w1 w2 : World) :
  mkdtempSync env prefix w1 = (Ok tmp, w2) ->
  dirs w1 !! tmp = None /\ dirs w2 = <[tmp := []]> (dirs w1)
  /\ console w2 = console w1.
Proof.
  unfold mkdtempSync. destruct (mkdtempSuffix env prefix (dirs w1)) as [s|e];
    [|discriminate].
  destruct (dirs w1 !! (prefix +:+ s)) eqn:E; [discriminate|].
  intros [= <- <-]. auto.
Qed.

Lemma cleanup_run (tmp : string) (w : World) :
  cleanup env tmp w
  = (Ok tt,
     mkWorld (match rmError env tmp (dirs w) with
              | Some _ =>
                  alter (filter (fun f => rmLeaves env tmp (dirs w) f = true)) tmp (dirs w)
              | None => delete tmp (dirs w)
              end) (console w)).
Proof.
  unfold cleanup, tryCatch, rmSync. destruct (rmError env tmp (dirs w)); reflexivity.
Qed.

(** The [finally] block touches no other directory than the one it is to
    remove. *)
Lemma cleanup_other (tmp k : string) (w : World) :
  k <> tmp -> dirs (snd (cleanup env tmp w)) !! k = dirs w !! k.
Proof.
  intros Hne. rewrite cleanup_run. cbn [snd dirs].
  destruct (rmError env tmp (dirs w)).
  - now apply lookup_alter_ne.
  - now apply lookup_delete_ne.
Qed.

(** Once the two directories are made, [convertFile] returns a result on
    every way out of the [try] block, and the [finally] block has run. *)
Lemma convertFile_run (w w1 w2 : World) (tmp : string) :
  mkdirSync env outDir w = (Ok tt, w1) ->
  mkdtempSync env (tmpPrefix env) w1 = (Ok tmp, w2) ->
  convert1 w
  = (Ok (match fst (body tmp w2) with
         | Ok files => success filePath files
         | Throw e => failure filePath e
         | Exit _ => failure filePath EmptyString
         end),
     snd (cleanup env tmp (snd (body tmp w2)))).
Proof.
  intros Hmk Htmp. unfold convertFile.
  rewrite (bind_run _ _ _ _ _ Hmk), (bind_run _ _ _ _ _ Htmp).
  unfold tryFinally, tryCatch, bind.
  pose proof (Behaved_tryBody env filePath outputDir dpi quality resize tmp w2) as Hb.
  destruct (body tmp w2) as [[files|c|e] w3]; [| contradiction |];
    cbn [ret fst snd]; rewrite cleanup_run; reflexivity.
Qed.

Lemma convertFile_Ok (w w' : World) (r : ConversionResult) :
  convert1 w = (Ok r, w') ->
  exists w1 tmp w2,
    mkdirSync env outDir w = (Ok tt, w1)
    /\ mkdtempSync env (tmpPrefix env) w1 = (Ok tmp, w2).
Proof.
  unfold convertFile. intros H.
  apply bind_Ok in H as ([] & w1 & Hmk & H).
  unfold bind in H.
  destruct (mkdtempSync env (tmpPrefix env) w1) as [[tmp|c|e] w2] eqn:Htmp;
    try discriminate.
  eauto.
Qed.

(** [convertFile] never calls [process.exit]. *)
Lemma convertFile_no_exit (w w' : World) (c : Z) :
  convert1 w <> (Exit c, w').
Proof.
  destruct (mkdirSync env outDir w) as [[[]|c0|e] w1] eqn:Hmk.
  - destruct (mkdtempSync env (tmpPrefix env) w1) as [[tmp|c1|e] w2] eqn:Htmp.
    + rewrite (convertFile_run w w1 w2 tmp Hmk Htmp). discriminate.
    + unfold mkdtempSync in Htmp.
      destruct (mkdtempSuffix env (tmpPrefix env) (dirs w1)); [|discriminate].
      destruct (dirs w1 !! _); discriminate.
    + unfold convertFile. rewrite (bind_run _ _ _ _ _ Hmk).
      rewrite (bind_throw _ _ _ _ _ Htmp). discriminate.
  - unfold mkdirSync in Hmk. destruct (mkdirError env _ (dirs w)); discriminate.
  - unfold convertFile. rewrite (bind_throw _ _ _ _ _ Hmk). discriminate.
Qed.

End ConvertFileRun.

Lemma hasError_failure (file msg : string) :
  msg <> EmptyString -> hasError (failure file msg) = true.
Proof. destruct msg; [congruence | reflexivity]. Qed.

(** An exception of the [try] block becomes the error of the result, and
    the loop of [main] reports it and goes on. *)
Lemma loop_reports_exception (env : Env) (config : Config)
    (i total : nat) (file : string) (rest : list string)
    (w w1 w2 : World) (tmp msg : string) :
  let started :=
    mkWorld (dirs w) (console w ++ [LFile (i + 1) total (Path.basename file EmptyString)]) in
  mkdirSync env (fileOutputDir file (outputDir config)) started = (Ok tt, w1) ->
  mkdtempSync env (tmpPrefix env) w1 = (Ok tmp, w2) ->
  fst (tryBody env file (outputDir config) (dpi config) (quality config)
               (resize config) tmp w2) = Throw msg ->
  exists w3,
    convertFile env file (outputDir config) (dpi config) (quality config)
                (resize config) started
      = (Ok (mkResult file 0 [] (Some msg)), w3)
    /\ msg <> EmptyString
    /\ convertLoop env config i total (file :: rest) w
       = (let* results := convertLoop env config (i + 1) total rest in
          ret (mkResult file 0 [] (Some msg) :: results))
           (mkWorld (dirs w3) (console w3 ++ [LDocError msg])).
Proof.
  intros started Hmk Htmp Hthrow.
  pose proof (convertFile_run env file (outputDir config) (dpi config)
                (quality config) (resize config) _ _ _ _ Hmk Htmp) as Hrun.
  pose proof (Behaved_tryBody env file (outputDir config) (dpi config)
                (quality config) (resize config) tmp w2) as Hb.
  destruct (tryBody env file (outputDir config) (dpi config) (quality config)
              (resize config) tmp w2) as [o w3] eqn:Hbody.
  cbn [fst snd] in *. subst o. destruct Hb as [Hmsg _].
  eexists. split; [exact Hrun|]. split; [exact Hmsg|].
  cbn [convertLoop]. unfold bind at 1. cbn [print]. fold started.
  unfold bind at 1. rewrite Hrun. fold (failure file msg).
  unfold bind at 1. rewrite (hasError_failure _ _ Hmsg). reflexivity.
Qed.

(** *** The four failures of the pipeline, each an exception *)

Lemma isOneOf_In (a : string) (l : list string) :
  isOneOf a l = true <-> In a l.
Proof.
  unfold isOneOf. rewrite existsb_exists. split.
  - intros (x & Hx & Heq). apply String.eqb_eq in Heq. now subst.
  - intros H. exists a. split; [exact H | apply String.eqb_refl].
Qed.

Section Failures.

Variable env : Env.
Variables (filePath outputDir : string) (dpi quality : Js.number)
          (resize : option Resize).

#[local] Abbreviation body := (tryBody env filePath outputDir dpi quality resize).

Lemma renderPdf_nonzero (tmp : string) (w : World) :
  let run := soffice env (resolveLibreOffice env) tmp filePath (dirs w) in
  Js.nonEmpty (resolveLibreOffice env) = true ->
  statusIsZero (fst run) = false ->
  fst (renderPdf env filePath tmp w)
  = Throw ("LibreOffice error: " +:+ diagnostic (fst run)).
Proof.
  intros run Hbin Hst. unfold renderPdf, bind. cbn [print].
  rewrite Hbin. cbn [negb getDirs dirs]. fold run.
  destruct run as [r names]. cbn [fst] in *. cbn [writeFiles]. now rewrite Hst.
Qed.

Lemma locatePdf_none (tmp : string) (w : World) (names : list string) :
  dirs w !! tmp = Some names ->
  filter (fun f => isPdf f = true) names = [] ->
  fst (locatePdf filePath tmp w)
  = Throw "No PDF file found after LibreOffice conversion.".
Proof.
  intros Hdir Hnone. unfold locatePdf, bind, existsIn, readdirSync.
  rewrite Hdir.
  destruct (isOneOf (docBasename filePath +:+ ".pdf") names) eqn:Hin.
  - exfalso. apply isOneOf_In in Hin.
    assert (Hf : docBasename filePath +:+ ".pdf"
                 ∈ filter (fun f => isPdf f = true) names).
    { apply list_elem_of_filter. split; [apply endsWith_append|].
      now apply list_elem_of_In. }
    rewrite Hnone in Hf. inversion Hf.
  - cbn [negb]. rewrite Hdir, Hnone. reflexivity.
Qed.

Lemma rasterize_nonzero (actualPdf : option string) (pageCount : Js.number)
    (w : World) :
  let run := pdftoppm env dpi quality actualPdf
               (Path.join (fileOutputDir filePath outputDir)
                          (docBasename filePath +:+ "_page")) (dirs w) in
  statusIsZero (fst run) = false ->
  fst (rasterize env filePath outputDir dpi quality actualPdf pageCount w)
  = Throw ("pdftoppm error: " +:+ diagnostic (fst run)).
Proof.
  intros run Hst. unfold rasterize, bind. cbn [print getDirs dirs]. fold run.
  destruct run as [r names]. cbn [fst] in *. cbn [writeFiles]. now rewrite Hst.
Qed.

Lemma resizeEach_nonzero (r : Resize) (files : list string) (w : World) :
  Exists (fun f => statusIsZero (convert env f r quality (dirs w)) = false) files ->
  exists f, In f files
    /\ resizeEach env quality r files w
       = (Throw ("ImageMagick resize error: "
                 +:+ diagnostic (convert env f r quality (dirs w))), w).
Proof.
  induction files as [|f files IH]; intros Hex; [inversion Hex|].
  cbn [resizeEach]. unfold bind. cbn [getDirs].
  destruct (statusIsZero (convert env f r quality (dirs w))) eqn:Hst; cbn [negb].
  - apply Exists_cons in Hex as [Hf|Hex]; [congruence|].
    destruct (IH Hex) as (f' & Hin & Heq). exists f'. split; [now right | exact Heq].
  - exists f. split; [now left | reflexivity].
Qed.

(** A step that throws ends the [try] block with that exception. *)
Lemma tryBody_throws (tmp : string) (w : World) (e : string) :
  fst (renderPdf env filePath tmp w) = Throw e
  \/ (exists w1, renderPdf env filePath tmp w = (Ok tt, w1)
        /\ (fst (locatePdf filePath tmp w1) = Throw e
            \/ exists pdf w2 n w3,
                 locatePdf filePath tmp w1 = (Ok pdf, w2)
                 /\ determinePageCount env pdf w2 = (Ok n, w3)
                 /\ (fst (rasterize env filePath outputDir dpi quality pdf n w3)
                     = Throw e
                     \/ exists w4 files w5,
                          rasterize env filePath outputDir dpi quality pdf n w3
                            = (Ok tt, w4)
                          /\ collectOutputs filePath outputDir w4 = (Ok files, w5)
                          /\ fst (resizeOutputs env quality resize files w5)
                             = Throw e))) ->
  fst (body tmp w) = Throw e.
Proof.
  unfold tryBody.
  intros [H | (w1 & Hr & [H | (pdf & w2 & n & w3 & Hl & Hn & [H | (w4 & files & w5 & Hz & Hc & H)])])].
  - unfold bind at 1. destruct (renderPdf env filePath tmp w) as [o w']; cbn in H.
    now subst o.
  - rewrite (bind_run _ _ _ _ _ Hr). unfold bind at 1.
    destruct (locatePdf filePath tmp w1) as [o w']; cbn in H. now subst o.
  - rewrite (bind_run _ _ _ _ _ Hr), (bind_run _ _ _ _ _ Hl), (bind_run _ _ _ _ _ Hn).
    unfold bind at 1.
    destruct (rasterize env filePath outputDir dpi quality pdf n w3) as [o w'];
      cbn in H. now subst o.
  - rewrite (bind_run _ _ _ _ _ Hr), (bind_run _ _ _ _ _ Hl), (bind_run _ _ _ _ _ Hn),
      (bind_run _ _ _ _ _ Hz), (bind_run _ _ _ _ _ Hc).
    unfold bind at 1.
    destruct (resizeOutputs env quality resize files w5) as [o w']; cbn in H.
    now subst o.
Qed.

End Failures.

Lemma resizeOutputs_nonzero (env : Env) (quality : Js.number) (r : Resize)
    (files : list string) (w : World) :
  Exists (fun f => statusIsZero (convert env f r quality (dirs w)) = false) files ->
  exists e, fst (resizeOutputs env quality (Some r) files w) = Throw e.
Proof.
  intros Hex. unfold resizeOutputs, bind. cbn [print].
  set (w' := mkWorld _ _).
  destruct (resizeEach_nonzero env quality r files w' Hex) as (f & _ & Heq).
  rewrite Heq. eauto.
Qed.

Lemma stepFails_throws (env : Env) (filePath outputDir : string)
    (dpi quality : Js.number) (resize : option Resize) (tmp : string) (w : World) :
  StepFails env filePath outputDir dpi quality resize tmp w ->
  exists msg,
    fst (tryBody env filePath outputDir dpi quality resize tmp w) = Throw msg.
Proof.
  intros [Hbin Hst | w1 names Hr Hdir Hnone | w1 pdf w2 n w3 Hr Hl Hn Hst
          | r w1 pdf w2 n w3 w4 files w5 -> Hr Hl Hn Hz Hc Hex].
  - eexists. apply tryBody_throws. left. now apply renderPdf_nonzero.
  - eexists. apply tryBody_throws. right. exists w1. split; [exact Hr|]. left.
    now apply locatePdf_none with names.
  - eexists. apply tryBody_throws. right. exists w1. split; [exact Hr|]. right.
    exists pdf, w2, n, w3. split; [exact Hl|]. split; [exact Hn|]. left.
    now apply rasterize_nonzero.
  - destruct (resizeOutputs_nonzero env quality r files w5 Hex) as [e He].
    exists e. apply tryBody_throws. right. exists w1. split; [exact Hr|]. right.
    exists pdf, w2, n, w3. split; [exact Hl|]. split; [exact Hn|]. right.
    exists w4, files, w5. auto.
Qed.

(** C1: when a step of the pipeline of [convertFile] fails (the
    document-to-PDF conversion returns non-zero, no PDF file is found in
    the scratch directory, the rasterization returns non-zero, the resize
    of an output file returns non-zero), [convertFile] returns a result
    with [pages = 0], no output files and an error message that is not
    empty; the loop of [main] reports it and goes on with the remaining
    documents. *)
Theorem conversion_failure_reported (env : Env) (config : Config)
    (i total : nat) (file : string) (rest : list string)
    (w w1 w2 : World) (tmp : string) :
  let started :=
    mkWorld (dirs w) (console w ++ [LFile (i + 1) total (Path.basename file EmptyString)]) in
  mkdirSync env (fileOutputDir file (outputDir config)) started = (Ok tt, w1) ->
  mkdtempSync env (tmpPrefix env) w1 = (Ok tmp, w2) ->
  StepFails env file (outputDir config) (dpi config) (quality config)
            (resize config) tmp w2 ->
  exists msg w3,
    convertFile env file (outputDir config) (dpi config) (quality config)
                (resize config) started
      = (Ok (mkResult file 0 [] (Some msg)), w3)
    /\ msg <> EmptyString
    /\ convertLoop env config i total (file :: rest) w
       = (let* results := convertLoop env config (i + 1) total rest in
          ret (mkResult file 0 [] (Some msg) :: results))
           (mkWorld (dirs w3) (console w3 ++ [LDocError msg])).
Proof.
  intros started Hmk Htmp Hfail.
  destruct (stepFails_throws _ _ _ _ _ _ _ _ Hfail) as [msg Hthrow].
  exists msg.
  exact (loop_reports_exception env config i total file rest w w1 w2 tmp msg
           Hmk Htmp Hthrow).
Qed.

Lemma conversion_failure_reported_witness :
  exists msg w3,
    convertFile Demo.broken "/home/u/Report.docx" "/home/u/output"
                (Js.Num 150) (Js.Num 90) None
                (mkWorld ∅ [LFile 1 2 "Report.docx"])
    = (Ok (mkResult "/home/u/Report.docx" 0 [] (Some msg)), w3)
    /\ msg <> EmptyString
    /\ convertLoop Demo.broken Demo.config 0 2
         ["/home/u/Report.docx"; "/home/u/docs/A.docx"] Demo.start
       = (let* results := convertLoop Demo.broken Demo.config 1 2
                            ["/home/u/docs/A.docx"] in
          ret (mkResult "/home/u/Report.docx" 0 [] (Some msg) :: results))
           (mkWorld (dirs w3) (console w3 ++ [LDocError msg])).
Proof.
  eapply (conversion_failure_reported Demo.broken Demo.config 0 2
            "/home/u/Report.docx" ["/home/u/docs/A.docx"] Demo.start);
    [vm_compute; reflexivity | vm_compute; reflexivity |].
  apply ConversionNonZero; reflexivity.
Defined.

(** C2 (amended): once [convertFile] has created its scratch directory,
    a directory that did not exist before, it returns a result on every
    way out of the [try] block (success or any exception inside it), and
    the removal of the scratch directory has been attempted by then,
    which writes nothing to the console: when the removal succeeds the
    directory no longer exists; when the removal fails the error is
    swallowed and the directory is still there, with the entries the
    failed removal has left of those it had. *)
Theorem scratch_directory_removed (env : Env) (filePath outputDir : string)
    (dpi quality : Js.number) (resize : option Resize)
    (w w1 w2 : World) (tmp : string) :
  mkdirSync env (fileOutputDir filePath outputDir) w = (Ok tt, w1) ->
  mkdtempSync env (tmpPrefix env) w1 = (Ok tmp, w2) ->
  let w3 := snd (tryBody env filePath outputDir dpi quality resize tmp w2) in
  dirs w1 !! tmp = None
  /\ dirs w2 !! tmp = Some []
  /\ exists r w',
       convertFile env filePath outputDir dpi quality resize w = (Ok r, w')
       /\ console w' = console w3
       /\ (rmError env tmp (dirs w3) = None -> dirs w' !! tmp = None)
       /\ (is_Some (rmError env tmp (dirs w3)) ->
           exists names left,
             dirs w3 !! tmp = Some names
             /\ dirs w' !! tmp = Some left
             /\ left ⊆ names).
Proof.
  intros Hmk Htmp w3.
  destruct (mkdtempSync_Ok _ _ _ _ _ Htmp) as (Hfresh & Hd2 & _).
  split; [exact Hfresh|]. split; [rewrite Hd2; apply lookup_insert_eq|].
  eexists. eexists. split; [apply (convertFile_run _ _ _ _ _ _ _ _ _ _ Hmk Htmp)|].
  fold w3. split; [now rewrite cleanup_run|].
  rewrite cleanup_run. cbn [snd dirs]. split.
  - intros ->. apply lookup_delete_eq.
  - intros [e ->].
    assert (Hin : is_Some (dirs w3 !! tmp)).
    { pose proof (Behaved_tryBody env filePath outputDir dpi quality resize tmp w2) as Hb.
      unfold w3.
      destruct (tryBody env filePath outputDir dpi quality resize tmp w2) as [o w4].
      cbn [snd]. apply elem_of_dom.
      assert (Hdom : dom (dirs w4) = dom (dirs w2))
        by (destruct o; [exact Hb | contradiction | exact (proj2 Hb)]).
      rewrite Hdom, Hd2. apply elem_of_dom. rewrite lookup_insert_eq. eauto. }
    destruct Hin as [names Hnames]. exists names. eexists.
    split; [exact Hnames|]. rewrite lookup_alter_eq, Hnames.
    split; [reflexivity|]. apply list_subseteq_filter.
Qed.

Lemma scratch_directory_removed_witness :
  exists r w',
    convertFile Demo.host "/home/u/Report.docx" "/home/u/output"
                (Js.Num 150) (Js.Num 90) None Demo.start = (Ok r, w')
    /\ dirs w' !! "/tmp/word2jpg-a1B2c3" = None.
Proof.
  destruct (scratch_directory_removed Demo.host "/home/u/Report.docx"
              "/home/u/output" (Js.Num 150) (Js.Num 90) None
              Demo.start _ _ "/tmp/word2jpg-a1B2c3" eq_refl eq_refl)
    as (_ & _ & r & w' & Hrun & _ & Hgone & _).
  exists r, w'. split; [exact Hrun|]. apply Hgone. reflexivity.
Defined.

(** C2 (as stated, refuted): on a host where the removal fails,
    [convertFile] returns its result and the scratch directory, with the
    PDF in it, is still there. *)
Lemma scratch_directory_left_behind :
  exists r w',
    convertFile (Demo.withRmError (fun _ _ => Some "EPERM: operation not permitted, rmdir"))
                "/home/u/Report.docx" "/home/u/output"
                (Js.Num 150) (Js.Num 90) None Demo.start = (Ok r, w')
    /\ error r = None
    /\ dirs w' !! "/tmp/word2jpg-a1B2c3" = Some ["Report.pdf"].
Proof. eexists. eexists. split; [vm_compute; reflexivity|]. split; reflexivity. Qed.

(** C10: the output subdirectory of the document is made first; if that
    fails nothing else is done, and whenever [convertFile] returns a
    result, with or without an error, the subdirectory exists. *)
Theorem output_subdirectory_exists (env : Env) (filePath outputDir : string)
    (dpi quality : Js.number) (resize : option Resize) (w : World) :
  (forall e, mkdirError env (fileOutputDir filePath outputDir) (dirs w) = Some e ->
     convertFile env filePath outputDir dpi quality resize w = (Throw e, w))
  /\ (forall r w',
        convertFile env filePath outputDir dpi quality resize w = (Ok r, w') ->
        is_Some (dirs w' !! fileOutputDir filePath outputDir)).
Proof.
  split.
  - intros e He. unfold convertFile. apply bind_throw. unfold mkdirSync. now rewrite He.
  - intros r w' Hrun.
    destruct (convertFile_Ok _ _ _ _ _ _ _ _ _ Hrun) as (w1 & tmp & w2 & Hmk & Htmp).
    rewrite (convertFile_run _ _ _ _ _ _ _ _ _ _ Hmk Htmp) in Hrun.
    injection Hrun as _ <-.
    destruct (mkdirSync_Ok _ _ _ _ Hmk) as (Hout & _ & _).
    destruct (mkdtempSync_Ok _ _ _ _ _ Htmp) as (Hfresh & Hd2 & _).
    assert (Hne : tmp <> fileOutputDir filePath outputDir).
    { intros ->. rewrite Hfresh in Hout. now destruct Hout. }
    pose proof (Behaved_tryBody env filePath outputDir dpi quality resize tmp w2) as Hb.
    destruct (tryBody env filePath outputDir dpi quality resize tmp w2) as [o w3].
    assert (Hdom : dom (dirs w3) = dom (dirs w2)).
    { destruct o; [exact Hb | contradiction | exact (proj2 Hb)]. }
    assert (H3 : is_Some (dirs w3 !! fileOutputDir filePath outputDir)).
    { apply elem_of_dom. rewrite Hdom, Hd2. apply elem_of_dom.
      rewrite lookup_insert_ne; [exact Hout | exact Hne]. }
    cbn [snd]. rewrite cleanup_other; [exact H3 | congruence].
Qed.

Lemma output_subdirectory_exists_witness :
  exists w',
    convertFile Demo.broken
                "/home/u/Report.docx" "/home/u/output"
                (Js.Num 150) (Js.Num 90) None Demo.start
      = (Ok (mkResult "/home/u/Report.docx" 0 [] (Some "LibreOffice error: boom")), w')
    /\ is_Some (dirs w' !! "/home/u/output/Report").
Proof.
  eexists. split; [vm_compute; reflexivity|].
  eapply (proj2 (output_subdirectory_exists
                   Demo.broken
                   "/home/u/Report.docx" "/home/u/output"
                   (Js.Num 150) (Js.Num 90) None Demo.start)).
  vm_compute; reflexivity.
Defined.

(** ** States alike up to the page count *)

Lemma alike_refl (w : World) : alike w w.
Proof. split; reflexivity. Qed.

Lemma alike_print (l1 l2 : Line) (w1 w2 : World) :
  erasePageCount l1 = erasePageCount l2 -> alike w1 w2 ->
  alike (mkWorld (dirs w1) (console w1 ++ [l1]))
        (mkWorld (dirs w2) (console w2 ++ [l2])).
Proof.
  intros Hl [Hd Hc]. split; cbn; [exact Hd|].
  rewrite !map_app, Hc. cbn. now rewrite Hl.
Qed.

Section AlikeRules.

Context {A B : Type}.

Lemma Alike_ret (a : A) : Alike (ret a) (ret a).
Proof. intros w1 w2 H. split; [reflexivity | exact H]. Qed.

Lemma Alike_throw (e : string) : Alike (@throw A e) (throw e).
Proof. intros w1 w2 H. split; [reflexivity | exact H]. Qed.

Lemma Alike_bind (m1 m2 : M A) (k1 k2 : A -> M B) :
  Alike m1 m2 -> (forall a, Alike (k1 a) (k2 a)) ->
  Alike (bind m1 k1) (bind m2 k2).
Proof.
  intros Hm Hk w1 w2 Hw. unfold bind. destruct (Hm w1 w2 Hw) as [Ho Hw'].
  destruct (m1 w1) as [o1 w1'], (m2 w2) as [o2 w2']. cbn [fst snd] in *. subst o2.
  destruct o1 as [a|c|e]; [exact (Hk a w1' w2' Hw') | |]; split; auto.
Qed.

Lemma Alike_if (c : bool) (m1 m2 n1 n2 : M A) :
  Alike m1 m2 -> Alike n1 n2 ->
  Alike (if c then m1 else n1) (if c then m2 else n2).
Proof. destruct c; auto. Qed.

Lemma Alike_tryCatch (m1 m2 : M A) (h1 h2 : string -> M A) :
  Alike m1 m2 -> (forall e, Alike (h1 e) (h2 e)) ->
  Alike (tryCatch m1 h1) (tryCatch m2 h2).
Proof.
  intros Hm Hh w1 w2 Hw. unfold tryCatch. destruct (Hm w1 w2 Hw) as [Ho Hw'].
  destruct (m1 w1) as [o1 w1'], (m2 w2) as [o2 w2']. cbn [fst snd] in *. subst o2.
  destruct o1 as [a|c|e]; [| |exact (Hh e w1' w2' Hw')]; split; auto.
Qed.

Lemma Alike_tryFinally (m1 m2 : M A) (f1 f2 : M unit) :
  Alike m1 m2 -> Alike f1 f2 ->
  Alike (tryFinally m1 f1) (tryFinally m2 f2).
Proof.
  intros Hm Hf w1 w2 Hw. unfold tryFinally. destruct (Hm w1 w2 Hw) as [Ho Hw'].
  destruct (m1 w1) as [o1 w1'], (m2 w2) as [o2 w2']. cbn [fst snd] in *. subst o2.
  destruct (Hf w1' w2' Hw') as [Ho Hw''].
  destruct (f1 w1') as [q1 v1], (f2 w2') as [q2 v2]. cbn [fst snd] in *. subst q2.
  destruct q1; split; auto.
Qed.

End AlikeRules.

Lemma Alike_print (l1 l2 : Line) :
  erasePageCount l1 = erasePageCount l2 -> Alike (print l1) (print l2).
Proof. intros Hl w1 w2 Hw. split; [reflexivity | now apply alike_print]. Qed.

Lemma Alike_getDirs : Alike getDirs getDirs.
Proof. intros w1 w2 Hw. split; [exact (f_equal Ok (proj1 Hw)) | exact Hw]. Qed.

Lemma Alike_writeFiles (dir : string) (names : list string) :
  Alike (writeFiles dir names) (writeFiles dir names).
Proof.
  intros w1 w2 [Hd Hc]. split; [reflexivity|]. split; cbn; [now rewrite Hd | exact Hc].
Qed.

Lemma Alike_readdirSync (p : string) : Alike (readdirSync p) (readdirSync p).
Proof.
  intros w1 w2 [Hd Hc]. unfold readdirSync. rewrite Hd.
  destruct (dirs w2 !! p); (split; [reflexivity | now split]).
Qed.

Lemma Alike_existsIn (dir name : string) :
  Alike (existsIn dir name) (existsIn dir name).
Proof.
  intros w1 w2 [Hd Hc]. unfold existsIn. rewrite Hd.
  destruct (dirs w2 !! dir); (split; [reflexivity | now split]).
Qed.

Lemma Alike_mkdirSync (env : Env) (p : string) :
  Alike (mkdirSync env p) (mkdirSync env p).
Proof.
  intros w1 w2 [Hd Hc]. unfold mkdirSync. rewrite Hd.
  destruct (mkdirError env p (dirs w2)); [now repeat split|].
  destruct (dirs w2 !! p); (split; [reflexivity|]); split; cbn; congruence.
Qed.

Lemma Alike_mkdtempSync (env : Env) (p : string) :
  Alike (mkdtempSync env p) (mkdtempSync env p).
Proof.
  intros w1 w2 [Hd Hc]. unfold mkdtempSync. rewrite Hd.
  destruct (mkdtempSuffix env p (dirs w2)) as [s|e]; [|now repeat split].
  destruct (dirs w2 !! (p +:+ s)); (split; [reflexivity|]); split; cbn; congruence.
Qed.

Lemma Alike_rmSync (env : Env) (p : string) :
  Alike (rmSync env p) (rmSync env p).
Proof.
  intros w1 w2 [Hd Hc]. unfold rmSync. rewrite Hd.
  destruct (rmError env p (dirs w2)); (split; [reflexivity|]); split; cbn; congruence.
Qed.

Create HintDb alike.

#[local] Hint Resolve Alike_ret Alike_throw Alike_getDirs Alike_writeFiles
  Alike_readdirSync Alike_existsIn Alike_mkdirSync Alike_mkdtempSync
  Alike_rmSync : alike.

Ltac alike :=
  repeat first
    [ apply Alike_bind; [|intro]
    | apply Alike_tryCatch; [|intro]
    | apply Alike_tryFinally
    | apply Alike_if
    | apply Alike_print; reflexivity
    | solve [auto with alike]
    | match goal with
      | |- Alike (let '(_, _) := ?p in _) (let '(_, _) := ?p in _) => destruct p
      | |- Alike (match ?x with _ => _ end) (match ?x with _ => _ end) => destruct x
      end ].

Section Lookup.

Variable env : Env.
Variables identify1 pdfinfo1 identify2 pdfinfo2 : option string -> Dirs -> SpawnResult.
Variables (filePath outputDir : string) (dpi quality : Js.number)
          (resize : option Resize).

#[local] Abbreviation host1 := (withLookup env identify1 pdfinfo1).
#[local] Abbreviation host2 := (withLookup env identify2 pdfinfo2).

Lemma Alike_resizeEach (r : Resize) (files : list string) :
  Alike (resizeEach host1 quality r files) (resizeEach host2 quality r files).
Proof.
  induction files as [|f files IH]; cbn [resizeEach]; [alike|].
  apply Alike_bind; [alike|]. intros d. cbn [convert withLookup]. alike.
Qed.

Lemma bind_determinePageCount {B} (host : Env) (actualPdf : option string)
    (k : Js.number -> M B) (w : World) :
  bind (determinePageCount host actualPdf) k w
  = k (pageCountOf (pdfinfo host actualPdf (dirs w))) w.
Proof. reflexivity. Qed.

(** From the progress line on, whatever the two page counts are. *)
Lemma Alike_after_count (actualPdf : option string) (n1 n2 : Js.number) :
  Alike
    (rasterize host1 filePath outputDir dpi quality actualPdf n1 ;;;
     let* outputFiles := collectOutputs filePath outputDir in
     resizeOutputs host1 quality resize outputFiles ;;; ret outputFiles)
    (rasterize host2 filePath outputDir dpi quality actualPdf n2 ;;;
     let* outputFiles := collectOutputs filePath outputDir in
     resizeOutputs host2 quality resize outputFiles ;;; ret outputFiles).
Proof.
  apply Alike_bind.
  { unfold rasterize. cbn [pdftoppm withLookup]. alike. }
  intros _. apply Alike_bind; [unfold collectOutputs; alike|]. intros files.
  apply Alike_bind; [|intros; alike].
  unfold resizeOutputs. destruct resize as [r|]; [|alike].
  apply Alike_bind; [alike | intros; apply Alike_resizeEach].
Qed.

Lemma Alike_tryBody (tmp : string) :
  Alike (tryBody host1 filePath outputDir dpi quality resize tmp)
        (tryBody host2 filePath outputDir dpi quality resize tmp).
Proof.
  unfold tryBody. apply Alike_bind.
  { change (renderPdf host2 filePath tmp) with (renderPdf host1 filePath tmp).
    unfold renderPdf. alike. }
  intros _. apply Alike_bind; [unfold locatePdf; alike|]. intros actualPdf.
  intros w1 w2 Hw. rewrite !bind_determinePageCount.
  now apply Alike_after_count.
Qed.

Lemma Alike_convertFile :
  Alike (convertFile host1 filePath outputDir dpi quality resize)
        (convertFile host2 filePath outputDir dpi quality resize).
Proof.
  unfold convertFile.
  change (mkdirSync host2) with (mkdirSync host1).
  change (mkdtempSync host2) with (mkdtempSync host1).
  change (tmpPrefix host2) with (tmpPrefix host1).
  change (cleanup host2) with (cleanup host1).
  apply Alike_bind; [alike|]. intros _. apply Alike_bind; [alike|]. intros tmp.
  apply Alike_tryFinally; [|unfold cleanup; alike].
  apply Alike_tryCatch; [|intros; alike].
  apply Alike_bind; [apply Alike_tryBody | intros; alike].
Qed.

(** C9: two runs of [convertFile] on hosts that differ only in what the
    two page-count queries ([identify], [pdfinfo]) answer (any count, a
    failure, a tool that cannot be started) return the same outcome, the
    same [ConversionResult] included, and leave the same directories; the
    consoles differ at most in the page count shown in the progress
    line. *)
Theorem page_count_is_informational (w : World) :
  let run1 := convertFile host1 filePath outputDir dpi quality resize w in
  let run2 := convertFile host2 filePath outputDir dpi quality resize w in
  fst run1 = fst run2
  /\ dirs (snd run1) = dirs (snd run2)
  /\ map erasePageCount (console (snd run1))
     = map erasePageCount (console (snd run2)).
Proof.
  destruct (Alike_convertFile w w (alike_refl w)) as [Ho [Hd Hc]]. auto.
Qed.

End Lookup.

(** ** The outputs of a successful conversion *)

Section Outputs.

Variable env : Env.
Variables (filePath outputDir : string) (dpi quality : Js.number)
          (resize : option Resize).

#[local] Abbreviation outDir := (fileOutputDir filePath outputDir).

Lemma resizeEach_state (r : Resize) (files : list string) (w : World) :
  snd (resizeEach env quality r files w) = w.
Proof.
  induction files as [|f files IH]; [reflexivity|].
  cbn [resizeEach]. unfold bind. cbn [getDirs].
  destruct (statusIsZero (convert env f r quality (dirs w))); [exact IH | reflexivity].
Qed.

Lemma resizeOutputs_dirs (files : list string) (w : World) :
  dirs (snd (resizeOutputs env quality resize files w)) = dirs w.
Proof.
  unfold resizeOutputs. destruct resize as [r|]; [|reflexivity].
  unfold bind. cbn [print]. now rewrite resizeEach_state.
Qed.

Lemma collectOutputs_Ok (files : list string) (w w' : World) :
  collectOutputs filePath outputDir w = (Ok files, w') ->
  w' = w
  /\ exists names,
       dirs w !! outDir = Some names
       /\ files = map (Path.join outDir)
                      (Js.sort (filter (fun f => isJpg f = true) names)).
Proof.
  unfold collectOutputs, bind, readdirSync.
  destruct (dirs w !! outDir) as [names|]; [|discriminate].
  intros [= <- <-]. eauto.
Qed.

(** What the [try] block returns is the sorted [.jpg] entries of the
    output subdirectory as the block leaves it. *)
Lemma tryBody_Ok (tmp : string) (files : list string) (w w' : World) :
  tryBody env filePath outputDir dpi quality resize tmp w = (Ok files, w') ->
  exists names,
    dirs w' !! outDir = Some names
    /\ files = map (Path.join outDir)
                   (Js.sort (filter (fun f => isJpg f = true) names)).
Proof.
  unfold tryBody. intros H.
  apply bind_Ok in H as (_ & wa & _ & H).
  apply bind_Ok in H as (pdf & wb & _ & H).
  apply bind_Ok in H as (n & wc & _ & H).
  apply bind_Ok in H as (_ & wd & _ & H).
  apply bind_Ok in H as (files' & we & Hc & H).
  apply bind_Ok in H as ([] & wf & Hr & H).
  cbn in H. injection H as Hf Hw. subst files' wf.
  apply collectOutputs_Ok in Hc as (-> & names & Hn & ->).
  exists names. split; [|reflexivity].
  pose proof (resizeOutputs_dirs
                (map (Path.join outDir)
                     (Js.sort (filter (fun f => isJpg f = true) names))) wd) as Hd.
  rewrite Hr in Hd. cbn [snd] in Hd. now rewrite Hd.
Qed.

Lemma sorted_outputs (dir : string) (names : list string) :
  Forall (fun f => isFileName f = true) names ->
  StronglySorted lexLe
    (map (Path.join dir) (Js.sort (filter (fun f => isJpg f = true) names))).
Proof.
  intros Hnames.
  set (jpgs := Js.sort (filter (fun f => isJpg f = true) names)).
  assert (Hj : Forall (fun f => isJpg f = true /\ isFileName f = true) jpgs).
  { rewrite Forall_forall. intros f Hf. unfold jpgs in Hf.
    rewrite (sort_perm _) in Hf. apply list_elem_of_filter in Hf as [Hjpg Hin].
    rewrite Forall_forall in Hnames. auto. }
  assert (Heq : map (Path.join dir) jpgs = map (String.append (joinPrefix dir)) jpgs).
  { apply map_ext_Forall. eapply Forall_impl; [exact Hj|].
    intros f [Hjpg Hname]. cbn beta.
    destruct (isJpg_not_special _ Hjpg) as (H0 & H1 & H2).
    now apply join_fileName. }
  rewrite Heq. apply sorted_map_prefix. apply sort_sorted.
Qed.

(** A result of [convertFile] without an error lists the [.jpg] entries
    of the directory [path.join(outputDir, basename)], joined to that
    directory, in the sorted order of the entry names, and [pages] is
    their number. *)
Lemma success_outputs (w w' : World) (r : ConversionResult) :
  convertFile env filePath outputDir dpi quality resize w = (Ok r, w') ->
  error r = None ->
  exists names,
    dirs w' !! outDir = Some names
    /\ outputFiles r
       = map (Path.join outDir)
             (Js.sort (filter (fun f => isJpg f = true) names))
    /\ pages r = length (outputFiles r)
    /\ pages r = length (filter (fun f => isJpg f = true) names).
Proof.
  intros Hrun Herr.
  destruct (convertFile_Ok _ _ _ _ _ _ _ _ _ Hrun) as (w1 & tmp & w2 & Hmk & Htmp).
  rewrite (convertFile_run _ _ _ _ _ _ _ _ _ _ Hmk Htmp) in Hrun.
  destruct (tryBody env filePath outputDir dpi quality resize tmp w2)
    as [o w3] eqn:Hbody.
  cbn [fst snd] in Hrun. injection Hrun as <- <-.
  destruct o as [files|c|e]; try discriminate Herr.
  destruct (tryBody_Ok _ _ _ _ Hbody) as (names & Hnames & ->).
  assert (Hne : tmp <> outDir).
  { destruct (mkdirSync_Ok _ _ _ _ Hmk) as (Hout & _ & _).
    destruct (mkdtempSync_Ok _ _ _ _ _ Htmp) as (Hfresh & Hd2 & _).
    pose proof (Behaved_tryBody env filePath outputDir dpi quality resize tmp w2) as Hb.
    rewrite Hbody in Hb.
    intros ->. assert (Hin : outDir ∈ dom (dirs w1)) by now apply elem_of_dom.
    apply not_elem_of_dom in Hfresh. contradiction. }
  exists names. split.
  - rewrite cleanup_other; [exact Hnames | congruence].
  - cbn [outputFiles pages success].
    split; [reflexivity|]. split; [reflexivity|].
    rewrite length_map. apply Permutation_length, sort_perm.
Qed.

End Outputs.

(** C6 (the code at a failing input): a document named [...docx] is a
    Word document for the program, its base name without the extension is
    [..], and [path.join] of the output directory and [..] is the
    directory above the output directory.  The conversion succeeds, its
    pages are written there, and the output files of the result are all
    the [.jpg] entries of that directory, a picture that was there before
    among them: none of them lies in the output directory. *)
Lemma outputs_outside_output_directory :
  let w0 := mkWorld (<["/home/u/output" := []]>
                       (<["/home/u" := ["holiday.jpg"; "output"]]> ∅)) [] in
  let files := [ "/home/u/.._page-1.jpg"; "/home/u/.._page-2.jpg";
                 "/home/u/.._page-3.jpg"; "/home/u/holiday.jpg" ] in
  isWord "/home/u/docs/...docx" = true
  /\ docBasename "/home/u/docs/...docx" = ".."
  /\ fileOutputDir "/home/u/docs/...docx" "/home/u/output" = "/home/u"
  /\ fst (convertFile Demo.host "/home/u/docs/...docx" "/home/u/output"
                      (Js.Num 150) (Js.Num 90) None w0)
     = Ok (mkResult "/home/u/docs/...docx" 4 files None)
  /\ Forall (fun f => Js.startsWith f "/home/u/output/" = false) files.
Proof.
  cbv zeta. split; [reflexivity|]. split; [reflexivity|]. split; [reflexivity|].
  split; [vm_compute; reflexivity|]. repeat constructor.
Qed.

(** ** Exit codes *)

Section ExitRules.

Context {A B : Type}.

Lemma ExitsWell_ret (a : A) : ExitsWell (ret a).
Proof. intros w c w'. discriminate. Qed.

Lemma ExitsWell_throw (e : string) : ExitsWell (@throw A e).
Proof. intros w c w'. discriminate. Qed.

Lemma ExitsWell_bind (m : M A) (k : A -> M B) :
  ExitsWell m -> (forall a, ExitsWell (k a)) -> ExitsWell (bind m k).
Proof.
  intros Hm Hk w c w'. unfold bind.
  destruct (m w) as [[a|c0|e] w1] eqn:E; [apply Hk | | discriminate].
  intros [= <- <-]. now apply (Hm w).
Qed.

Lemma ExitsWell_if (c : bool) (m1 m2 : M A) :
  ExitsWell m1 -> ExitsWell m2 -> ExitsWell (if c then m1 else m2).
Proof. destruct c; auto. Qed.

Lemma ExitsWell_help (l : Line) : ExitsWell (print l ;;; @exit A 0).
Proof.
  intros w c w'. cbn. intros [= <- <-]. split; [now left | discriminate].
Qed.

Lemma ExitsWell_fatal (l : Line) :
  isFatalLine l = true -> ExitsWell (print l ;;; @exit A 1).
Proof.
  intros Hl w c w'. cbn. intros [= <- <-]. split; [now right|].
  intros _. exists l. split; [apply last_snoc | exact Hl].
Qed.

End ExitRules.

Lemma ExitsWell_print (l : Line) : ExitsWell (print l).
Proof. intros w c w'. discriminate. Qed.

Lemma ExitsWell_parseLoop (env : Env) (args : list string) :
  forall config, ExitsWell (parseLoop env args config).
Proof.
  induction args as [|a rest IH IH2] using tokens_ind; intros config.
  - apply ExitsWell_ret.
  - step_parse; try apply IH; try apply ExitsWell_help;
      destruct rest as [|v rest']; try apply ExitsWell_throw;
      try apply ExitsWell_ret; try apply (IH2 v rest' eq_refl).
    destruct (matchResize v) as [[g1 g2]|];
      [apply (IH2 v rest' eq_refl) | now apply ExitsWell_fatal].
Qed.

Lemma ExitsWell_checkDependencies (env : Env) (needsResize : bool) :
  ExitsWell (checkDependencies env needsResize).
Proof.
  unfold checkDependencies.
  repeat (apply ExitsWell_if; [now apply ExitsWell_fatal|]). apply ExitsWell_ret.
Qed.

Lemma ExitsWell_collectWordFiles (env : Env) (p : string) (recursive : bool) :
  ExitsWell (collectWordFiles env p recursive).
Proof.
  unfold collectWordFiles. destruct (stat env p) as [[|entries|]|];
    try apply ExitsWell_throw; try apply ExitsWell_ret.
  apply ExitsWell_if; [apply ExitsWell_ret | now apply ExitsWell_fatal].
Qed.

Lemma mkdirSync_no_exit (env : Env) (p : string) : ExitsWell (mkdirSync env p).
Proof.
  intros w c w'. unfold mkdirSync. destruct (mkdirError env p (dirs w));
    [discriminate|]. destruct (dirs w !! p); discriminate.
Qed.

Lemma ExitsWell_preLoop (env : Env) (args : list string) :
  ExitsWell (preLoop env args).
Proof.
  unfold preLoop. apply ExitsWell_bind; [apply ExitsWell_print|]. intros _.
  apply ExitsWell_bind; [apply ExitsWell_parseLoop|]. intros config.
  apply ExitsWell_bind; [apply ExitsWell_checkDependencies|]. intros _.
  apply ExitsWell_if; [now apply ExitsWell_fatal|].
  apply ExitsWell_bind; [apply ExitsWell_collectWordFiles|]. intros files.
  destruct files as [|f files]; [apply ExitsWell_help|].
  apply ExitsWell_bind; [apply ExitsWell_print|]. intros _.
  apply ExitsWell_bind; [apply mkdirSync_no_exit | intros; apply ExitsWell_ret].
Qed.

(** The loop never calls [process.exit]. *)
Lemma no_exit_bind {A B} (m : M A) (k : A -> M B) :
  (forall w c w', m w <> (Exit c, w')) ->
  (forall a w c w', k a w <> (Exit c, w')) ->
  forall w c w', bind m k w <> (Exit c, w').
Proof.
  intros Hm Hk w c w'. unfold bind. specialize (Hm w).
  destruct (m w) as [[a|c0|e] w1]; [apply Hk | | discriminate].
  intros [= <- <-]. now apply (Hm c0 w1).
Qed.

Lemma convertLoop_no_exit (env : Env) (config : Config) (total : nat)
    (files : list string) :
  forall i w c w', convertLoop env config i total files w <> (Exit c, w').
Proof.
  induction files as [|file rest IH]; intros i; [discriminate|].
  cbn [convertLoop].
  apply no_exit_bind; [discriminate|]. intros _.
  apply no_exit_bind; [intros w c w'; apply convertFile_no_exit|]. intros r.
  apply no_exit_bind.
  { intros w c w'. destruct (hasError r); [discriminate|].
    destruct (outputFiles r); discriminate. }
  intros _. apply no_exit_bind; [apply IH | discriminate].
Qed.

(** C3 (amended): the exit code of the process is 0 or 1.  It is 0
    whenever the conversion loop runs to its end, whatever errors the
    results of the documents carry.  It is 1 in two cases only: one of the
    fatal checks before the loop has printed its message and called
    [process.exit(1)] (malformed resize value, missing tool, missing input
    path, input file that is no Word document); or an exception has
    reached the handler at the top, before the loop (a switch whose value
    is missing, a failing file-system call) or inside it (the output
    subdirectory or the scratch directory cannot be made, a conversion
    without error that found no output file).  When the steps before the
    loop succeed, exit code 1 means that the loop threw. *)
Theorem exit_code_of_run (env : Env) (args : list string) (w : World) :
  (forall config files w1 results w2,
      preLoop env args w = (Ok (config, files), w1) ->
      convertLoop env config 0 (length files) files w1 = (Ok results, w2) ->
      fst (run env args w) = 0%Z)
  /\ (fst (run env args w) = 0%Z \/ fst (run env args w) = 1%Z)
  /\ (fst (run env args w) = 1%Z ->
      (exists w1 l, preLoop env args w = (Exit 1, w1)
                    /\ last (console w1) = Some l /\ isFatalLine l = true)
      \/ (exists e w', main env args w = (Throw e, w')))
  /\ (forall config files w1,
        preLoop env args w = (Ok (config, files), w1) ->
        fst (run env args w) = 1%Z ->
        exists e w2,
          convertLoop env config 0 (length files) files w1 = (Throw e, w2)).
Proof.
  assert (Hmain : forall o w', main env args w = (o, w') ->
                    forall c, o = Exit c -> preLoop env args w = (Exit c, w')).
  { intros o w'. unfold main. unfold bind at 1.
    destruct (preLoop env args w) as [[[config files]|c0|e] w1];
      [| intros [= <- <-] c [= <-]; reflexivity | intros [= <- <-]; discriminate].
    unfold bind at 1.
    pose proof (convertLoop_no_exit env config (length files) files 0 w1) as Hno.
    destruct (convertLoop env config 0 (length files) files w1) as [[rs|c1|e] w2].
    - cbn. intros [= <- <-]. discriminate.
    - exfalso. now apply (Hno c1 w2).
    - intros [= <- <-]. discriminate. }
  split; [|split; [|split]].
  - intros config files w1 results w2 Hpre Hloop. unfold run, main.
    rewrite (bind_run _ _ _ _ _ Hpre). cbn iota beta.
    rewrite (bind_run _ _ _ _ _ Hloop). reflexivity.
  - unfold run. destruct (main env args w) as [[rs|c|e] w'] eqn:E; cbn; auto.
    pose proof (Hmain _ _ eq_refl c eq_refl) as Hpre.
    apply ExitsWell_preLoop in Hpre. exact (proj1 Hpre).
  - unfold run. destruct (main env args w) as [[rs|c|e] w'] eqn:E; cbn [fst].
    + discriminate.
    + intros ->. left. pose proof (Hmain _ _ eq_refl 1%Z eq_refl) as Hpre.
      pose proof (ExitsWell_preLoop _ _ _ _ _ Hpre) as [_ Hl].
      destruct (Hl eq_refl) as (l & Hlast & Hfatal). eauto.
    + intros _. right. eauto.
  - intros config files w1 Hpre. unfold run, main.
    rewrite (bind_run _ _ _ _ _ Hpre). cbn iota beta. unfold bind at 1.
    pose proof (convertLoop_no_exit env config (length files) files 0 w1) as Hno.
    destruct (convertLoop env config 0 (length files) files w1) as [[rs|c1|e] w2].
    + cbn. discriminate.
    + exfalso. now apply (Hno c1 w2).
    + eauto.
Qed.

Lemma exit_code_of_run_witness :
  fst (run Demo.broken
           ["Report.docx"] Demo.start) = 0%Z.
Proof.
  eapply (proj1 (exit_code_of_run Demo.broken ["Report.docx"] Demo.start));
    vm_compute; reflexivity.
Defined.

(** C3 (as stated, refuted): every tool is installed, the input path
    exists and is a [.docx] file, no resize is asked for, so the steps
    before the loop succeed; the output subdirectory of the document
    cannot be made, the exception leaves the loop and the exit code is 1. *)
Lemma exit_code_one_inside_loop :
  (exists config w1,
      preLoop (Demo.withMkdirError Demo.outputTaken) ["Report.docx"] Demo.start
      = (Ok (config, ["/home/u/Report.docx"]), w1))
  /\ fst (run (Demo.withMkdirError Demo.outputTaken) ["Report.docx"] Demo.start) = 1%Z.
Proof.
  split; [|vm_compute; reflexivity].
  eexists. eexists. vm_compute. reflexivity.
Qed.

(** ** The embedding on concrete inputs *)

Example resize_with_multiplication_sign :
  matchResize ("1240" +:+ String "215" "1754") = Some ("1240", "1754").
Proof. reflexivity. Qed.

Example resize_rejects_signs_and_spaces :
  matchResize "-10x20" = None /\ matchResize "10 x 20" = None
  /\ matchResize "10x" = None /\ matchResize "x20" = None.
Proof. repeat split. Qed.

Example extname_cases :
  Path.extname "/a/Report.DOCX" = ".DOCX" /\ Path.extname ".docx" = EmptyString
  /\ Path.extname "archive.tar.gz" = ".gz" /\ Path.extname "notes" = EmptyString.
Proof. repeat split. Qed.

Example basename_strips_extension :
  docBasename "/home/u/docs/Report.docx" = "Report".
Proof. reflexivity. Qed.

Example dpi_without_value_is_NaN :
  fst (parseArgs Demo.host ["-d"] Demo.start)
  = Ok (setDpi (defaultConfig Demo.host) Js.NaN).
Proof. reflexivity. Qed.

Example input_without_value_throws :
  run Demo.host ["-i"] Demo.start
  = (1%Z, mkWorld ∅ [LBanner; LUnexpected typeErrorPaths]).
Proof. reflexivity. Qed.

Example run_three_pages :
  fst (main Demo.host ["-i"; "Report.docx"] Demo.start)
  = Ok [ mkResult "/home/u/Report.docx" 3
           [ "/home/u/output/Report/Report_page-1.jpg";
             "/home/u/output/Report/Report_page-2.jpg";
             "/home/u/output/Report/Report_page-3.jpg" ] None ].
Proof. vm_compute. reflexivity. Qed.

Example run_all_documents_fail :
  fst (run Demo.broken ["docs"] Demo.start) = 0%Z
  /\ exists r1 r2,
       fst (main Demo.broken ["docs"] Demo.start) = Ok [r1; r2]
       /\ hasError r1 = true /\ hasError r2 = true.
Proof.
  split; [vm_compute; reflexivity|].
  eexists. eexists. split; [vm_compute; reflexivity|]. split; reflexivity.
Qed.

Example missing_resizer_is_fatal :
  run (mkEnv (cwd Demo.host) (homedir Demo.host) (tmpdir Demo.host)
             (stat Demo.host)
             (fun tool => if (tool =? "convert")%string
                          then Demo.exited 1 EmptyString else which Demo.host tool)
             (soffice Demo.host) (identify Demo.host) (pdfinfo Demo.host)
             (pdftoppm Demo.host) (convert Demo.host) (mkdirError Demo.host)
             (mkdtempSuffix Demo.host) (rmError Demo.host) (rmLeaves Demo.host))
      ["Report.docx"; "-s"; "2480x3508"] Demo.start
  = (1%Z, mkWorld ∅ [LBanner; LMissingTool "convert"]).
Proof. vm_compute. reflexivity. Qed.

Example page_count_only_in_progress_line :
  let seven := withLookup Demo.host (fun _ _ => NotStarted)
                          (fun _ _ => Demo.exited 0 "Pages: 7") in
  let absent := withLookup Demo.host (fun _ _ => NotStarted)
                           (fun _ _ => NotStarted) in
  let run1 := convertFile seven "/home/u/Report.docx" "/home/u/output"
                          (Js.Num 150) (Js.Num 90) None Demo.start in
  let run2 := convertFile absent "/home/u/Report.docx" "/home/u/output"
                          (Js.Num 150) (Js.Num 90) None Demo.start in
  fst run1 = fst run2
  /\ console (snd run1)
     = [LConvertingToPdf; LCreatingJpgs (Js.Num 7) (Js.Num 150)]
  /\ console (snd run2)
     = [LConvertingToPdf; LCreatingJpgs (Js.Num 1) (Js.Num 150)].
Proof. vm_compute. repeat split. Qed.

(* ------------------------------------------------------------------ *)
(** * Further properties *)

(** ** The argument parser *)

(** X1: the three ways [parseArgs] ends.  When it returns, it has
    written nothing.  It exits with code 0 only at a help flag, after the
    usage text, and with code 1 only at a resize value that does not match
    the pattern, after the message that quotes it; no other exit code
    occurs.  It throws only when the last token scanned is a switch whose
    value is missing, and then a [TypeError]. *)
Theorem parseArgs_outcomes (env : Env) (args : list string) (w : World) :
  match parseArgs env args w with
  | (Ok _, w') => w' = w
  | (Exit code, w') =>
      (code = 0%Z /\ (exists h, In h args /\ isHelpFlag h = true)
       /\ w' = mkWorld (dirs w) (console w ++ [LHelp]))
      \/ (code = 1%Z
          /\ exists raw, In raw args /\ matchResize raw = None
               /\ w' = mkWorld (dirs w) (console w ++ [LInvalidResize raw]))
  | (Throw e, w') =>
      w' = w /\ dangling args = true
      /\ (e = typeErrorPaths \/ e = typeErrorMatch)
  end.
Proof.
  unfold parseArgs. generalize (defaultConfig env) as config.
  induction args as [|a rest IH IH2] using tokens_ind; intros config.
  - reflexivity.
  - assert (Hweak : forall c,
      match parseLoop env rest c w with
      | (Ok _, w') => w' = w
      | (Exit code, w') =>
          (code = 0%Z /\ (exists h, In h (a :: rest) /\ isHelpFlag h = true)
           /\ w' = mkWorld (dirs w) (console w ++ [LHelp]))
          \/ (code = 1%Z
              /\ exists raw, In raw (a :: rest) /\ matchResize raw = None
                   /\ w' = mkWorld (dirs w) (console w ++ [LInvalidResize raw]))
      | (Throw e, w') =>
          w' = w /\ dangling rest = true
          /\ (e = typeErrorPaths \/ e = typeErrorMatch)
      end).
    { intros c. specialize (IH c).
      destruct (parseLoop env rest c w) as [[c'|code|e] w']; [exact IH | | exact IH].
      destruct IH as [(-> & (h & Hin & Hh) & ->) | (-> & raw & Hin & Hm & ->)];
        [left | right]; (split; [reflexivity|]).
      - split; [|reflexivity]. exists h. split; [now right | exact Hh].
      - exists raw. split; [now right|]. now split. }
    assert (Hweak2 : forall v rest' c, rest = v :: rest' ->
      match parseLoop env rest' c w with
      | (Ok _, w') => w' = w
      | (Exit code, w') =>
          (code = 0%Z /\ (exists h, In h (a :: rest) /\ isHelpFlag h = true)
           /\ w' = mkWorld (dirs w) (console w ++ [LHelp]))
          \/ (code = 1%Z
              /\ exists raw, In raw (a :: rest) /\ matchResize raw = None
                   /\ w' = mkWorld (dirs w) (console w ++ [LInvalidResize raw]))
      | (Throw e, w') =>
          w' = w /\ dangling rest' = true
          /\ (e = typeErrorPaths \/ e = typeErrorMatch)
      end).
    { intros v rest' c ->. specialize (IH2 v rest' eq_refl c).
      destruct (parseLoop env rest' c w) as [[c'|code|e] w']; [exact IH2 | | exact IH2].
      destruct IH2 as [(-> & (h & Hin & Hh) & ->) | (-> & raw & Hin & Hm & ->)];
        [left | right]; (split; [reflexivity|]).
      - split; [|reflexivity]. exists h. split; [now right; right | exact Hh].
      - exists raw. split; [now right; right|]. now split. }
    clear IH IH2. cbn [dangling]. unfold takesValue. step_parse;
      repeat match goal with
             | E : isOneOf a _ = _ |- _ => rewrite ?E; revert E
             end; intros; cbn [orb].
    + left. split; [reflexivity|]. split; [|reflexivity].
      exists a. split; [now left | assumption].
    + destruct rest as [|v rest']; [cbn; auto|]. apply (Hweak2 v rest' _ eq_refl).
    + destruct rest as [|v rest']; [cbn; auto|]. apply (Hweak2 v rest' _ eq_refl).
    + destruct rest as [|v rest']; [reflexivity|]. apply (Hweak2 v rest' _ eq_refl).
    + destruct rest as [|v rest']; [reflexivity|]. apply (Hweak2 v rest' _ eq_refl).
    + destruct rest as [|v rest']; [cbn; auto|].
      destruct (matchResize v) as [[g1 g2]|] eqn:Hm; [apply (Hweak2 v rest' _ eq_refl)|].
      cbn. right. split; [reflexivity|]. exists v. split; [now right; left | now split].
    + apply Hweak.
    + apply Hweak.
    + apply Hweak.
Qed.

Lemma noneOf_cons (flags : list string) (a : string) (rest : list string) :
  noneOf flags (a :: rest) -> isOneOf a flags = false /\ noneOf flags rest.
Proof. unfold noneOf. intros H. now apply Forall_cons in H. Qed.

Lemma noneOf_cons2 (flags : list string) (a v : string) (rest : list string) :
  noneOf flags (a :: v :: rest) -> isOneOf a flags = false /\ noneOf flags rest.
Proof.
  intros H. apply noneOf_cons in H as [Ha H]. apply noneOf_cons in H as [_ H]. auto.
Qed.

Ltac frame_close Ho Hd Hq Hs Hr Hn :=
  first [ congruence
        | rewrite Ho by exact Hn; reflexivity
        | rewrite Hd by exact Hn; reflexivity
        | rewrite Hq by exact Hn; reflexivity
        | rewrite Hs by exact Hn; reflexivity
        | rewrite Hr by exact Hn; reflexivity ].

Ltac frame_case IHp :=
  let Ho := fresh "Ho" in let Hd := fresh "Hd" in let Hq := fresh "Hq" in
  let Hs := fresh "Hs" in let Hr := fresh "Hr" in
  let Hrec := fresh "Hrec" in let Hres := fresh "Hres" in
  destruct IHp as (Ho & Hd & Hq & Hs & Hr & Hrec & Hres);
  repeat split;
  let Hn := fresh "Hn" in
  let Ha := fresh "Ha" in
  intros Hn;
  first
    [ solve [ apply noneOf_cons in Hn as [Ha Hn]; frame_close Ho Hd Hq Hs Hr Hn ]
    | solve [ apply noneOf_cons2 in Hn as [Ha Hn]; frame_close Ho Hd Hq Hs Hr Hn ]
    | solve [ apply Hrec; first [exact Hn | reflexivity] ]
    | solve [ apply Hres; cbn; eauto ] ].

(** X2: a parse that returns leaves every setting whose switch does not
    occur among the arguments as it was (for [parseArgs]: at its default:
    output directory [./output] of the working directory, 150 DPI, quality
    90, no resize, not recursive); and no argument switches the recursive
    search off again or takes a resize target away. *)
Theorem parse_keeps_unmentioned (env : Env) (args : list string)
    (config config' : Config) (w w' : World) :
  parseLoop env args config w = (Ok config', w') ->
  (noneOf ["-o"; "--output"] args -> outputDir config' = outputDir config)
  /\ (noneOf ["-d"; "--dpi"] args -> dpi config' = dpi config)
  /\ (noneOf ["-q"; "--quality"] args -> quality config' = quality config)
  /\ (noneOf ["-s"; "--resize"] args -> resize config' = resize config)
  /\ (noneOf ["-r"; "--recursive"] args -> recursive config' = recursive config)
  /\ (recursive config = true -> recursive config' = true)
  /\ (is_Some (resize config) -> is_Some (resize config')).
Proof.
  revert config config' w w'.
  induction args as [|a rest IH IH2] using tokens_ind; intros config config' w w'.
  - cbn. intros [= <- _]. repeat split; auto.
  - step_parse; intros Hp; try discriminate Hp;
      try (destruct rest as [|v rest']; [try discriminate Hp|]).
    all: try (cbn in Hp; injection Hp as <- _; repeat split; auto;
              intros Hn; apply noneOf_cons in Hn as [Ha _]; congruence).
    all: try match type of Hp with
             | context [matchResize ?x] =>
                 destruct (matchResize x) as [[g1 g2]|]; [|discriminate Hp]
             end.
    all: first [ pose proof (IH2 _ _ eq_refl _ _ _ _ Hp) as IHp
               | pose proof (IH _ _ _ _ Hp) as IHp ];
         clear IH IH2 Hp; frame_case IHp.
Qed.

Lemma parse_keeps_unmentioned_witness :
  let config' :=
    setQuality (setInputPath (defaultConfig Demo.host) "/home/u/docs") (Js.Num 75) in
  dpi config' = Js.Num 150 /\ resize config' = None /\ recursive config' = false
  /\ outputDir config' = "/home/u/output".
Proof.
  intros config'.
  destruct (parse_keeps_unmentioned Demo.host ["docs"; "-q"; "75"; "--verbose"]
              (defaultConfig Demo.host) config' Demo.start Demo.start eq_refl)
    as (Ho & Hd & _ & Hs & Hr & _).
  split; [apply Hd; repeat constructor|].
  split; [apply Hs; repeat constructor|].
  split; [apply Hr; repeat constructor|].
  apply Ho; repeat constructor.
Defined.

(** X3: a switch that takes a value, met as the last token scanned: the
    missing value of [-d]/[--dpi] or [-q]/[--quality] silently gives
    [NaN]; the missing value of [-i]/[--input], [-o]/[--output] or
    [-s]/[--resize] is a [TypeError] thrown out of the parser, with
    nothing written. *)
Theorem missing_value (env : Env) (pre : list string) (flag : string)
    (config config' : Config) (w : World) :
  dangling pre = false ->
  parseLoop env pre config w = (Ok config', w) ->
  (isOneOf flag ["-d"; "--dpi"] = true ->
     parseLoop env (pre ++ [flag]) config w = (Ok (setDpi config' Js.NaN), w))
  /\ (isOneOf flag ["-q"; "--quality"] = true ->
     parseLoop env (pre ++ [flag]) config w = (Ok (setQuality config' Js.NaN), w))
  /\ (isOneOf flag ["-i"; "--input"] = true \/ isOneOf flag ["-o"; "--output"] = true ->
     parseLoop env (pre ++ [flag]) config w = (Throw typeErrorPaths, w))
  /\ (isOneOf flag ["-s"; "--resize"] = true ->
     parseLoop env (pre ++ [flag]) config w = (Throw typeErrorMatch, w)).
Proof.
  intros Hd Hp. rewrite (parseLoop_app env pre [flag] _ _ _ _ Hd Hp).
  repeat split.
  - intros H. destruct (isOneOf_two _ _ _ H) as [-> | ->]; reflexivity.
  - intros H. destruct (isOneOf_two _ _ _ H) as [-> | ->]; reflexivity.
  - intros [H|H]; destruct (isOneOf_two _ _ _ H) as [-> | ->]; reflexivity.
  - intros H. destruct (isOneOf_two _ _ _ H) as [-> | ->]; reflexivity.
Qed.

Lemma missing_value_witness :
  parseLoop Demo.host (["docs"; "-r"] ++ ["--dpi"]) (defaultConfig Demo.host) Demo.start
    = (Ok (setDpi (setRecursive (setInputPath (defaultConfig Demo.host) "/home/u/docs"))
                  Js.NaN), Demo.start)
  /\ parseLoop Demo.host (["docs"; "-r"] ++ ["-o"]) (defaultConfig Demo.host) Demo.start
    = (Throw typeErrorPaths, Demo.start).
Proof.
  split.
  - apply (missing_value Demo.host ["docs"; "-r"] "--dpi" (defaultConfig Demo.host)
             _ Demo.start eq_refl eq_refl). reflexivity.
  - apply (missing_value Demo.host ["docs"; "-r"] "-o" (defaultConfig Demo.host)
             _ Demo.start eq_refl eq_refl). right. reflexivity.
Defined.

(** The parser reads the host for its working directory only, and its
    outcome does not depend on the state. *)
Lemma parseLoop_cwd (env1 env2 : Env) (args : list string) :
  cwd env1 = cwd env2 ->
  forall config w, parseLoop env1 args config w = parseLoop env2 args config w.
Proof.
  intros Hcwd. induction args as [|a rest IH IH2] using tokens_ind; intros config w.
  - reflexivity.
  - cbn [parseLoop]. rewrite Hcwd.
    repeat match goal with
    | |- context [if isOneOf ?a ?l then _ else _] => destruct (isOneOf a l)
    | |- context [if negb (Js.startsWith ?a ?p) then _ else _] =>
        destruct (Js.startsWith a p); cbn [negb]
    end; try reflexivity; try apply IH;
      destruct rest as [|v rest']; try reflexivity; try apply (IH2 v rest' eq_refl).
    destruct (matchResize v) as [[g1 g2]|]; [apply (IH2 v rest' eq_refl) | reflexivity].
Qed.

Lemma parseLoop_state (env : Env) (args : list string) :
  forall config w1 w2,
    fst (parseLoop env args config w1) = fst (parseLoop env args config w2).
Proof.
  induction args as [|a rest IH IH2] using tokens_ind; intros config w1 w2.
  - reflexivity.
  - step_parse; try reflexivity; try apply IH;
      destruct rest as [|v rest']; try reflexivity; try apply (IH2 v rest' eq_refl).
    destruct (matchResize v) as [[g1 g2]|]; [apply (IH2 v rest' eq_refl) | reflexivity].
Qed.

(** X4: the arguments are parsed before anything else is looked at: when
    the parse does not return a configuration (help, malformed resize
    value, missing value), the run is the same on every host with the same
    working directory, whatever is installed or on disk there. *)
Theorem parse_failure_first (env1 env2 : Env) (args : list string) (w : World) :
  cwd env1 = cwd env2 ->
  (forall config, fst (parseArgs env1 args w) <> Ok config) ->
  run env1 args w = run env2 args w.
Proof.
  intros Hcwd Hfail.
  set (w1 := mkWorld (dirs w) (console w ++ [LBanner])).
  assert (Hsame : parseArgs env2 args w1 = parseArgs env1 args w1).
  { unfold parseArgs. rewrite (parseLoop_cwd env1 env2 args Hcwd).
    unfold defaultConfig. now rewrite Hcwd. }
  assert (Hfail1 : forall config, fst (parseArgs env1 args w1) <> Ok config).
  { intros config. unfold parseArgs in *. rewrite (parseLoop_state env1 args _ w1 w).
    apply Hfail. }
  unfold run, main, preLoop, bind. cbn [print]. fold w1.
  rewrite Hsame. destruct (parseArgs env1 args w1) as [[config|c|e] w'].
  - exfalso. now apply (Hfail1 config).
  - reflexivity.
  - reflexivity.
Qed.

Lemma parse_failure_first_witness :
  run Demo.host ["-s"; "A4"] Demo.start = run Hosts.bare ["-s"; "A4"] Demo.start.
Proof.
  apply parse_failure_first; [reflexivity | discriminate].
Defined.

(** ** Finding the tools *)

Lemma whichPath_Some (r : SpawnResult) (p : string) :
  whichPath r = Some p ->
  Js.nonEmpty p = true
  /\ exists out err, r = Ran (Some 0%Z) out err /\ p = Js.trim out.
Proof.
  unfold whichPath. destruct r as [|[[| |]|] out err]; try discriminate.
  destruct (Js.nonEmpty (Js.trim out)) eqn:E; [|discriminate].
  intros [= <-]. eauto.
Qed.

Lemma dropWhile_all (p : ascii -> bool) (s : string) :
  Js.forallChars p s = true -> Js.dropWhile p s = EmptyString.
Proof.
  induction s as [|c s IH]; cbn; [reflexivity|].
  intros [Hc Hs]%andb_true_iff. rewrite Hc. now apply IH.
Qed.

Lemma macPaths_nonEmpty (env : Env) (p : string) :
  In p (macPaths env) -> Js.nonEmpty p = true.
Proof.
  unfold macPaths. intros [<-|[<-|[]]]; [reflexivity|].
  destruct (homedir env); reflexivity.
Qed.

(** X5: how the LibreOffice binary is resolved.  It is reported missing
    (the empty string) exactly when neither of the two application-bundle
    paths exists and both look-ups on the PATH fail; an existing bundle
    path is taken whatever the PATH holds; without one, the answer for
    [libreoffice] goes before the one for [soffice]; and a look-up that
    exits with 0 and prints only white space counts as a failure. *)
Theorem resolveLibreOffice_cases (env : Env) :
  (Js.nonEmpty (resolveLibreOffice env) = false
   <-> Forall (fun p => existsSync env p = false) (macPaths env)
       /\ whichPath (which env "libreoffice") = None
       /\ whichPath (which env "soffice") = None)
  /\ (Exists (fun p => existsSync env p = true) (macPaths env) ->
      In (resolveLibreOffice env) (macPaths env)
      /\ existsSync env (resolveLibreOffice env) = true)
  /\ (Forall (fun p => existsSync env p = false) (macPaths env) ->
      forall p, whichPath (which env "libreoffice") = Some p ->
                resolveLibreOffice env = p)
  /\ (forall out err, Js.forallChars Js.isSpace out = true ->
                      whichPath (Ran (Some 0%Z) out err) = None).
Proof.
  assert (Hnone : Forall (fun p => existsSync env p = false) (macPaths env) ->
                  List.find (existsSync env) (macPaths env) = None).
  { unfold macPaths. intros H.
    apply Forall_cons in H as [H1 H]. apply Forall_cons in H as [H2 _].
    cbn [List.find]. now rewrite H1, H2. }
  split; [|split; [|split]].
  - unfold resolveLibreOffice. split.
    + destruct (List.find (existsSync env) (macPaths env)) as [p|] eqn:Ef.
      { intros H. apply List.find_some in Ef as [Hin _].
        rewrite (macPaths_nonEmpty env p Hin) in H. discriminate. }
      destruct (whichPath (which env "libreoffice")) as [p|] eqn:E1.
      { intros H. apply whichPath_Some in E1 as [Hp _]. congruence. }
      destruct (whichPath (which env "soffice")) as [p|] eqn:E2.
      { intros H. apply whichPath_Some in E2 as [Hp _]. congruence. }
      intros _. split; [|auto]. rewrite Forall_forall. intros p Hp.
      apply list_elem_of_In in Hp. exact (List.find_none _ _ Ef p Hp).
    + intros (Hmac & -> & ->). now rewrite (Hnone Hmac).
  - intros Hex. unfold resolveLibreOffice.
    destruct (List.find (existsSync env) (macPaths env)) as [p|] eqn:Ef.
    + now apply List.find_some in Ef.
    + exfalso. apply Exists_exists in Hex as (p & Hin & Hp).
      apply list_elem_of_In in Hin.
      rewrite (List.find_none _ _ Ef p Hin) in Hp. discriminate.
  - intros Hmac p Hp. unfold resolveLibreOffice. now rewrite (Hnone Hmac), Hp.
  - intros out err Hsp. unfold whichPath, Js.trim.
    now rewrite (dropWhile_all _ _ Hsp).
Qed.

Lemma resolveLibreOffice_cases_witness :
  resolveLibreOffice Demo.host = "/usr/bin/libreoffice"
  /\ Js.nonEmpty (resolveLibreOffice Hosts.bare) = false.
Proof.
  destruct (resolveLibreOffice_cases Demo.host) as (_ & _ & Hpath & _).
  destruct (resolveLibreOffice_cases Hosts.bare) as (Hmissing & _).
  split.
  - apply Hpath; [repeat constructor | reflexivity].
  - apply Hmissing. split; [repeat constructor | split; reflexivity].
Defined.

(** ** The page count *)

Lemma matchPages_digits (s g : string) : matchPages s = Some g -> digitRun g.
Proof.
  induction s as [|c s IH]; [discriminate|].
  cbn [matchPages]. destruct (Js.startsWith (String c s) "Pages:"); [|exact IH].
  destruct (Js.span Js.isSpace (dropChars 6 (String c s))) as [sp rest].
  pose proof (span_prefix Js.isDigit rest) as Hd.
  destruct (Js.span Js.isDigit rest) as [ds tl]. cbn [fst] in Hd.
  destruct (Js.nonEmpty sp && Js.nonEmpty ds) eqn:E; [|exact IH].
  intros [= <-]. apply andb_true_iff in E as [_ E]. apply nonEmpty_true in E.
  now split.
Qed.

(** X6: the page count of the progress line is never [NaN] and never
    negative: it is 1 when [pdfinfo] cannot be started, is ended by a
    signal, exits with another code than 0 or prints no [Pages:] label;
    otherwise it is the number value of the digits after the first such
    label: their decimal value when that is at most 2^53, the nearest
    double above that, [Infinity] when no finite double is near. *)
Theorem page_count_is_a_number (r : SpawnResult) :
  pageCountOf r <> Js.NaN
  /\ ((exists n : N, pageCountOf r = Js.Num (Z.of_N n))
      \/ pageCountOf r = Js.Infinity false)
  /\ (statusIsZero r = false -> pageCountOf r = Js.Num 1)
  /\ (forall out err, r = Ran (Some 0%Z) out err ->
        match matchPages out with
        | Some g =>
            digitRun g
            /\ pageCountOf r = Js.ofN (Js.decimal g)
            /\ ((Js.decimal g <= 2 ^ 53)%N ->
                pageCountOf r = Js.Num (Z.of_N (Js.decimal g)))
        | None => pageCountOf r = Js.Num 1
        end).
Proof.
  assert (Hone : forall r0, pageCountOf r0 = Js.Num 1 ->
            pageCountOf r0 <> Js.NaN
            /\ ((exists n : N, pageCountOf r0 = Js.Num (Z.of_N n))
                \/ pageCountOf r0 = Js.Infinity false)).
  { intros r0 ->. split; [discriminate|]. left. now exists 1%N. }
  destruct r as [|[[| |]|] out err];
    try (match goal with
         | |- pageCountOf ?x <> _ /\ _ => destruct (Hone x eq_refl) as [H1 H2]
         end;
         split; [exact H1|]; split; [exact H2|]; split; [reflexivity|];
         intros out' err'; discriminate).
  cbn [pageCountOf]. destruct (matchPages out) as [g|] eqn:E.
  - pose proof (matchPages_digits _ _ E) as Hg.
    rewrite (parseInt_digitRun _ Hg).
    split; [|split; [|split]].
    + destruct (ofN_cases (Js.decimal g)) as [[m ->] | ->]; discriminate.
    + apply ofN_cases.
    + discriminate.
    + intros out' err' [= <- <-]. rewrite E.
      split; [exact Hg|]. split; [reflexivity|]. apply ofN_exact.
  - split; [discriminate|]. split; [left; now exists 1%N|].
    split; [discriminate|].
    intros out' err' [= <- <-]. now rewrite E.
Qed.

(** ** Before the loop *)

Lemma KeepsDirs_bind {A B} (m : M A) (k : A -> M B) :
  KeepsDirs m -> (forall a, KeepsDirs (k a)) -> KeepsDirs (bind m k).
Proof.
  intros Hm Hk w. unfold bind. specialize (Hm w).
  destruct (m w) as [[a|c|e] w1]; cbn [snd] in *; [|exact Hm|exact Hm].
  now rewrite (Hk a w1).
Qed.

Lemma KeepsDirs_print (l : Line) : KeepsDirs (print l).
Proof. intros w. reflexivity. Qed.

Lemma KeepsDirs_parseLoop (env : Env) (args : list string) :
  forall config, KeepsDirs (parseLoop env args config).
Proof.
  induction args as [|a rest IH IH2] using tokens_ind; intros config w; [reflexivity|].
  step_parse; try reflexivity; try apply IH;
    destruct rest as [|v rest']; try reflexivity; try apply (IH2 v rest' eq_refl).
  destruct (matchResize v) as [[g1 g2]|]; [apply (IH2 v rest' eq_refl) | reflexivity].
Qed.

Lemma KeepsDirs_checkDependencies (env : Env) (needsResize : bool) :
  KeepsDirs (checkDependencies env needsResize).
Proof.
  intros w. unfold checkDependencies.
  destruct (negb (Js.nonEmpty (resolveLibreOffice env))); [reflexivity|].
  destruct (negb (statusIsZero (which env "pdftoppm"))); [reflexivity|].
  destruct (needsResize && negb (statusIsZero (which env "convert"))); reflexivity.
Qed.

Lemma KeepsDirs_collectWordFiles (env : Env) (p : string) (recursive : bool) :
  KeepsDirs (collectWordFiles env p recursive).
Proof.
  intros w. unfold collectWordFiles.
  destruct (stat env p) as [[|entries|]|]; try reflexivity.
  destruct (isWord p); reflexivity.
Qed.

(** X7: nothing is created before the run is known to have work to do.
    When the part of [main] before the loop ends the process (help, a
    fatal check, no Word file found), the directories are as they were,
    and so they are when it throws, unless the exception is the one of
    the [mkdirSync] of the output directory, its last step.  When it
    hands over a list of documents, the list is not empty, the output
    directory exists, every directory there before is still there and
    has lost no entry, and a directory that is new is the output
    directory or one above it, spelled by a beginning of its path. *)
Theorem early_exit_keeps_directories (env : Env) (args : list string)
    (w w' : World) (o : Outcome (Config * list string)) :
  preLoop env args w = (o, w') ->
  match o with
  | Ok (config, files) =>
      files <> []
      /\ is_Some (dirs w' !! outputDir config)
      /\ (forall k names, dirs w !! k = Some names ->
            exists names', dirs w' !! k = Some names' /\ names ⊆ names')
      /\ (forall k, dirs w !! k = None -> is_Some (dirs w' !! k) ->
            Js.startsWith (outputDir config) k = true)
  | Exit _ => dirs w' = dirs w
  | Throw e =>
      dirs w' = dirs w
      \/ exists config,
           fst (parseArgs env args (mkWorld (dirs w) (console w ++ [LBanner])))
           = Ok config
           /\ mkdirError env (outputDir config) (dirs w) = Some e
  end.
Proof.
  unfold preLoop. unfold bind at 1. cbn [print].
  set (w1 := mkWorld (dirs w) (console w ++ [LBanner])).
  assert (H1 : dirs w1 = dirs w) by reflexivity.
  unfold bind at 1. pose proof (KeepsDirs_parseLoop env args (defaultConfig env) w1) as Hp.
  unfold parseArgs.
  destruct (parseLoop env args (defaultConfig env) w1) as [[config|c|e] w2] eqn:Hparse;
    cbn [snd] in Hp;
    [| intros [= <- <-]; congruence | intros [= <- <-]; left; congruence].
  unfold bind at 1.
  pose proof (KeepsDirs_checkDependencies env
                (match resize config with Some _ => true | None => false end) w2) as Hc.
  destruct (checkDependencies env _ w2) as [[[]|c|e] w3];
    cbn [snd] in Hc;
    [| intros [= <- <-]; congruence | intros [= <- <-]; left; congruence].
  destruct (existsSync env (inputPath config)); cbn [negb];
    [| cbn; intros [= <- <-]; cbn; congruence].
  unfold bind at 1.
  pose proof (KeepsDirs_collectWordFiles env (inputPath config) (recursive config) w3)
    as Hf.
  destruct (collectWordFiles env (inputPath config) (recursive config) w3)
    as [[files|c|e] w4];
    cbn [snd] in Hf;
    [| intros [= <- <-]; congruence | intros [= <- <-]; left; congruence].
  destruct files as [|f files]; [cbn; intros [= <- <-]; cbn; congruence|].
  unfold bind at 1. cbn [print]. unfold bind at 1.
  assert (Hd : dirs w4 = dirs w) by congruence.
  set (w5 := mkWorld (dirs w4) (console w4 ++ [LHeader config (length (f :: files))])).
  assert (H5 : dirs w5 = dirs w) by exact Hd.
  destruct (mkdirSync env (outputDir config) w5) as [[[]|c|e] w6] eqn:Hmk.
  - cbn [ret]. intros [= <- <-]. split; [discriminate|].
    destruct (mkdirSync_Ok _ _ _ _ Hmk) as (Hout & _ & _).
    destruct (mkdirSync_frame _ _ _ _ Hmk) as (Hold & Hnew).
    rewrite H5 in Hold, Hnew. auto.
  - intros [= <- <-]. exfalso. unfold mkdirSync in Hmk.
    destruct (mkdirError env (outputDir config) (dirs w5)); discriminate.
  - intros [= <- <-]. right. exists config. split; [reflexivity|].
    unfold mkdirSync in Hmk. rewrite H5 in Hmk.
    destruct (mkdirError env (outputDir config) (dirs w)); [|discriminate].
    now injection Hmk as -> _.
Qed.

Lemma early_exit_keeps_directories_witness :
  dirs (snd (preLoop Demo.host ["missing.docx"] Demo.start)) = ∅
  /\ is_Some (dirs (snd (preLoop Demo.host ["Report.docx"] Demo.start))
               !! "/home/u/output").
Proof.
  split.
  - exact (early_exit_keeps_directories Demo.host ["missing.docx"] Demo.start
             _ (Exit 1) eq_refl).
  - apply (early_exit_keeps_directories Demo.host ["Report.docx"] Demo.start
             _ (Ok (setInputPath (defaultConfig Demo.host) "/home/u/Report.docx",
                    ["/home/u/Report.docx"])) eq_refl).
Defined.

(** ** The errors of a document *)

Section ThrowsRules.

Context {A B : Type} (P : string -> Prop).

Lemma Throws_ret (a : A) : Throws P (ret a).
Proof. intros w e w'. discriminate. Qed.

Lemma Throws_throw (e : string) : P e -> Throws P (@throw A e).
Proof. intros He w e' w'. now intros [= <- _]. Qed.

Lemma Throws_bind (m : M A) (k : A -> M B) :
  Throws P m -> (forall a, Throws P (k a)) -> Throws P (bind m k).
Proof.
  intros Hm Hk w e w'. unfold bind.
  destruct (m w) as [[a|c|e0] w1] eqn:E; [apply Hk | discriminate |].
  intros [= <- <-]. now apply (Hm w e0 w1).
Qed.

Lemma Throws_if (c : bool) (m1 m2 : M A) :
  Throws P m1 -> Throws P m2 -> Throws P (if c then m1 else m2).
Proof. destruct c; auto. Qed.

End ThrowsRules.

Lemma Throws_print (P : string -> Prop) (l : Line) : Throws P (print l).
Proof. intros w e w'. discriminate. Qed.

Lemma Throws_getDirs (P : string -> Prop) : Throws P getDirs.
Proof. intros w e w'. discriminate. Qed.

Lemma Throws_writeFiles (P : string -> Prop) (dir : string) (names : list string) :
  Throws P (writeFiles dir names).
Proof. intros w e w'. discriminate. Qed.

Lemma Throws_existsIn (P : string -> Prop) (dir name : string) :
  Throws P (existsIn dir name).
Proof. intros w e w'. unfold existsIn. destruct (dirs w !! dir); discriminate. Qed.

Lemma Throws_readdirSync (p : string) : Throws knownError (readdirSync p).
Proof.
  intros w e w'. unfold readdirSync. destruct (dirs w !! p); [discriminate|].
  intros [= <- _]. right. right. left. reflexivity.
Qed.

Lemma knownError_libreoffice (d : string) : knownError ("LibreOffice error: " +:+ d).
Proof. left. apply startsWith_append. Qed.

Lemma knownError_pdftoppm (d : string) : knownError ("pdftoppm error: " +:+ d).
Proof. do 3 right. left. apply startsWith_append. Qed.

Lemma knownError_resize (d : string) : knownError ("ImageMagick resize error: " +:+ d).
Proof. do 4 right. apply startsWith_append. Qed.

Lemma knownError_noPdf :
  knownError "No PDF file found after LibreOffice conversion.".
Proof. right. left. reflexivity. Qed.

Create HintDb throws.

#[local] Hint Resolve Throws_ret Throws_print Throws_getDirs Throws_writeFiles
  Throws_existsIn Throws_readdirSync knownError_libreoffice knownError_pdftoppm
  knownError_resize knownError_noPdf : throws.

Ltac throws :=
  repeat first
    [ apply Throws_bind; [|intro]
    | apply Throws_if
    | apply Throws_throw
    | solve [auto with throws]
    | match goal with
      | |- Throws _ (let '(_, _) := ?p in _) => destruct p
      | |- Throws _ (match ?x with _ => _ end) => destruct x
      end ].

Lemma Throws_resizeEach (env : Env) (quality : Js.number) (r : Resize)
    (files : list string) :
  Throws knownError (resizeEach env quality r files).
Proof. induction files as [|f files IH]; cbn [resizeEach]; throws. Qed.

Lemma Throws_tryBody (env : Env) (filePath outputDir : string)
    (dpi quality : Js.number) (resize : option Resize) (tmp : string) :
  Js.nonEmpty (resolveLibreOffice env) = true ->
  Throws knownError (tryBody env filePath outputDir dpi quality resize tmp).
Proof.
  intros Hbin. unfold tryBody.
  apply Throws_bind; [unfold renderPdf; rewrite Hbin; cbn [negb]; throws|]. intros _.
  apply Throws_bind; [unfold locatePdf; throws|]. intros pdf.
  apply Throws_bind; [unfold determinePageCount; throws|]. intros n.
  apply Throws_bind; [unfold rasterize; throws|]. intros _.
  apply Throws_bind; [unfold collectOutputs; throws|]. intros files.
  apply Throws_bind; [|intros; throws].
  unfold resizeOutputs. destruct resize as [r|]; [|throws].
  apply Throws_bind; [throws | intros; apply Throws_resizeEach].
Qed.

Lemma checkDependencies_Ok (env : Env) (needsResize : bool) (w w' : World) :
  checkDependencies env needsResize w = (Ok tt, w') ->
  w' = w
  /\ Js.nonEmpty (resolveLibreOffice env) = true
  /\ statusIsZero (which env "pdftoppm") = true
  /\ (needsResize = true -> statusIsZero (which env "convert") = true).
Proof.
  unfold checkDependencies.
  destruct (Js.nonEmpty (resolveLibreOffice env)); [|discriminate].
  destruct (statusIsZero (which env "pdftoppm")); [|discriminate].
  destruct needsResize; cbn [negb andb];
    [destruct (statusIsZero (which env "convert")); [|discriminate]|];
    intros [= <-]; repeat split; auto; discriminate.
Qed.

(** X8: the dependency check and the conversions fit together.  A check
    that passes has written nothing and found LibreOffice and pdftoppm,
    and the resizer when a resize is asked for; and on such a host the
    error of a document, if [convertFile] returns one, is always one of:
    the diagnostic of LibreOffice, of pdftoppm or of the resizer after the
    name of the tool, the missing PDF file, or a directory that cannot be
    listed. *)
Theorem checked_host_errors (env : Env) (needsResize : bool) (w0 w0' : World)
    (filePath outputDir : string) (dpi quality : Js.number)
    (resize : option Resize) (w w' : World) (r : ConversionResult) (e : string) :
  checkDependencies env needsResize w0 = (Ok tt, w0') ->
  convertFile env filePath outputDir dpi quality resize w = (Ok r, w') ->
  error r = Some e ->
  w0' = w0
  /\ statusIsZero (which env "pdftoppm") = true
  /\ (needsResize = true -> statusIsZero (which env "convert") = true)
  /\ knownError e.
Proof.
  intros Hcheck Hrun Herr.
  destruct (checkDependencies_Ok _ _ _ _ Hcheck) as (Hw & Hbin & Hppm & Hconv).
  split; [exact Hw|]. split; [exact Hppm|]. split; [exact Hconv|].
  destruct (convertFile_Ok _ _ _ _ _ _ _ _ _ Hrun) as (w1 & tmp & w2 & Hmk & Htmp).
  rewrite (convertFile_run _ _ _ _ _ _ _ _ _ _ Hmk Htmp) in Hrun.
  pose proof (Throws_tryBody env filePath outputDir dpi quality resize tmp Hbin w2)
    as Hthrows.
  pose proof (Behaved_tryBody env filePath outputDir dpi quality resize tmp w2) as Hb.
  destruct (tryBody env filePath outputDir dpi quality resize tmp w2) as [[files|c|e0] w3];
    cbn [fst snd] in Hrun; injection Hrun as <- _.
  - discriminate Herr.
  - contradiction.
  - injection Herr as <-. now apply (Hthrows e0 w3).
Qed.

Lemma checked_host_errors_witness :
  knownError "LibreOffice error: boom".
Proof.
  eapply (checked_host_errors Demo.broken false Demo.start Demo.start
            "/home/u/Report.docx" "/home/u/output" (Js.Num 150) (Js.Num 90) None
            Demo.start);
    [reflexivity | vm_compute; reflexivity | reflexivity].
Defined.

(** ** What is collected *)

Lemma lastPart_fileName (f : string) :
  isFileName f = true -> f <> EmptyString -> Path.lastPart f = f.
Proof.
  intros Hf Hne. unfold Path.lastPart. rewrite (split_fileName _ Hf). cbn.
  apply nonEmpty_true in Hne. rewrite Hne. destruct (decide _); [reflexivity|].
  congruence.
Qed.

Lemma lastPart_after_slash (x f : string) :
  isFileName f = true -> f <> EmptyString ->
  Path.lastPart (x +:+ "/" +:+ f) = f.
Proof.
  intros Hf Hne. unfold Path.lastPart.
  change (x +:+ "/" +:+ f) with (x +:+ String Path.slash f).
  rewrite split_append_slash, (split_fileName _ Hf), rev_app_distr. cbn.
  apply nonEmpty_true in Hne. rewrite Hne. destruct (decide _); [reflexivity|].
  congruence.
Qed.

Lemma joinPrefix_shape (d : string) :
  joinPrefix d = EmptyString \/ exists x, joinPrefix d = x +:+ "/".
Proof.
  unfold joinPrefix. destruct d as [|c d]; [now left|].
  destruct (fold_left _ _ _) as [|k ks].
  - destruct (Path.isAbsolute (String c d)); [right; now exists EmptyString | now left].
  - right. exists ((if Path.isAbsolute (String c d) then "/" else EmptyString)
                   +:+ Path.joinSegments (List.rev (k :: ks))).
    now rewrite append_assoc.
Qed.

(** The last component of a file joined to a directory is the file. *)
Lemma lastPart_join (d f : string) :
  isFileName f = true -> f <> EmptyString -> f <> "." -> f <> ".." ->
  Path.lastPart (Path.join d f) = Path.lastPart f.
Proof.
  intros Hf H0 H1 H2. rewrite (join_fileName d f Hf H0 H1 H2).
  rewrite (lastPart_fileName f Hf H0).
  destruct (joinPrefix_shape d) as [-> | [x ->]].
  - now apply lastPart_fileName.
  - rewrite append_assoc. now apply lastPart_after_slash.
Qed.

Lemma isWord_not_special (f : string) :
  isWord f = true -> f <> EmptyString /\ f <> "." /\ f <> "..".
Proof. intros H. repeat split; intros ->; discriminate H. Qed.

Lemma isWord_join (d f : string) :
  isFileName f = true -> isWord f = true -> isWord (Path.join d f) = true.
Proof.
  intros Hf Hw. destruct (isWord_not_special f Hw) as (H0 & H1 & H2).
  unfold isWord, Path.extname in *. now rewrite (lastPart_join d f Hf H0 H1 H2).
Qed.

Lemma scanEntry_word (recursive : bool) (e : Dirent) :
  forall dir, wellNamed e = true ->
              Forall (fun p => isWord p = true) (scanEntry recursive dir e).
Proof.
  induction e as [name|name sub IH|name] using Dirent_nested_ind; intros dir Hn.
  - cbn [scanEntry]. destruct (isWord name) eqn:E; [|constructor].
    constructor; [|constructor]. now apply isWord_join.
  - cbn [scanEntry]. destruct recursive; [|constructor].
    cbn [wellNamed] in Hn. rewrite forallb_forall in Hn.
    rewrite Forall_forall in IH. rewrite Forall_forall. intros p Hp.
    apply list_elem_of_In, in_flat_map in Hp as (e & He & Hp).
    specialize (IH e (proj2 (list_elem_of_In _ _) He) (Path.join dir name) (Hn e He)).
    rewrite Forall_forall in IH. apply IH. now apply list_elem_of_In.
  - constructor.
Qed.

(** X9: [collectWordFiles] hands over Word documents only: on a tree
    whose files have file names, every path it returns, for a single file
    or from a directory, recursively or not, has the extension [.docx] or
    [.dotm] in some letter case, so that its base name without the
    extension is what names the output subdirectory. *)
Theorem collected_files_are_word (env : Env) (inputPath : string)
    (recursive : bool) (w w' : World) (files : list string) :
  (forall entries, stat env inputPath = Some (NDir entries) ->
                   forallb wellNamed entries = true) ->
  collectWordFiles env inputPath recursive w = (Ok files, w') ->
  w' = w /\ Forall (fun p => isWord p = true) files.
Proof.
  intros Hnamed. unfold collectWordFiles.
  destruct (stat env inputPath) as [[|entries|]|]; try discriminate.
  - destruct (isWord inputPath) eqn:E; [|discriminate].
    intros [= <- <-]. split; [reflexivity|]. now repeat constructor.
  - intros [= <- <-]. split; [reflexivity|].
    specialize (Hnamed entries eq_refl). rewrite forallb_forall in Hnamed.
    unfold scanDir. rewrite Forall_forall. intros p Hp.
    apply list_elem_of_In, in_flat_map in Hp as (e & He & Hp).
    pose proof (scanEntry_word recursive e inputPath (Hnamed e He)) as Hw.
    rewrite Forall_forall in Hw. apply Hw. now apply list_elem_of_In.
Qed.

Lemma collected_files_are_word_witness :
  Forall (fun p => isWord p = true)
    ["/home/u/docs/A.docx"; "/home/u/docs/B.DOTM"; "/home/u/docs/sub/C.docx"].
Proof.
  apply (collected_files_are_word Demo.host "/home/u/docs" true Demo.start Demo.start).
  - intros entries [= <-]. reflexivity.
  - reflexivity.
Defined.

(** ** The results *)

(** A result is built by [success] or by [failure] with a message. *)
Lemma convertFile_result (env : Env) (filePath outputDir : string)
    (dpi quality : Js.number) (resize : option Resize) (w w' : World)
    (r : ConversionResult) :
  convertFile env filePath outputDir dpi quality resize w = (Ok r, w') ->
  (exists files, r = success filePath files)
  \/ (exists e, e <> EmptyString /\ r = failure filePath e).
Proof.
  intros Hrun.
  destruct (convertFile_Ok _ _ _ _ _ _ _ _ _ Hrun) as (w1 & tmp & w2 & Hmk & Htmp).
  rewrite (convertFile_run _ _ _ _ _ _ _ _ _ _ Hmk Htmp) in Hrun.
  pose proof (Behaved_tryBody env filePath outputDir dpi quality resize tmp w2) as Hb.
  destruct (tryBody env filePath outputDir dpi quality resize tmp w2) as [[files|c|e] w3];
    cbn [fst snd] in Hrun; injection Hrun as <- _; [| contradiction |].
  - left. now exists files.
  - right. exists e. split; [exact (proj1 Hb) | reflexivity].
Qed.

(** X10: the shape of every result of [convertFile]: its source is the
    document, [pages] is the number of its output files, and either it has
    no error, or it has an error message that is not empty and no output
    file at all. *)
Theorem conversion_result_shape (env : Env) (filePath outputDir : string)
    (dpi quality : Js.number) (resize : option Resize) (w w' : World)
    (r : ConversionResult) :
  convertFile env filePath outputDir dpi quality resize w = (Ok r, w') ->
  source r = filePath
  /\ pages r = length (outputFiles r)
  /\ (error r = None /\ hasError r = false
      \/ exists e, error r = Some e /\ e <> EmptyString /\ hasError r = true
                   /\ outputFiles r = []).
Proof.
  intros Hrun.
  destruct (convertFile_result _ _ _ _ _ _ _ _ _ Hrun) as [[files ->] | (e & He & ->)].
  - repeat split. now left.
  - repeat split. right. exists e.
    repeat split; [exact He | now apply hasError_failure].
Qed.

Lemma conversion_result_shape_witness :
  source (mkResult "/home/u/Report.docx" 0 [] (Some "LibreOffice error: boom"))
  = "/home/u/Report.docx".
Proof.
  eapply (conversion_result_shape Demo.broken "/home/u/Report.docx" "/home/u/output"
            (Js.Num 150) (Js.Num 90) None Demo.start).
  vm_compute. reflexivity.
Defined.

Lemma convertLoop_Ok (env : Env) (config : Config) (total : nat)
    (files : list string) :
  forall i w w' results,
    convertLoop env config i total files w = (Ok results, w') ->
    map source results = files
    /\ Forall (fun r => pages r = length (outputFiles r)
                        /\ (hasError r = false -> outputFiles r <> [])
                        /\ (hasError r = true -> outputFiles r = [])) results.
Proof.
  induction files as [|file rest IH]; intros i w w' results.
  - cbn. intros [= <- _]. split; [reflexivity | constructor].
  - cbn [convertLoop]. intros H.
    apply bind_Ok in H as (_ & w0 & _ & H).
    apply bind_Ok in H as (r & w1 & Hrun & H).
    apply bind_Ok in H as ([] & w2 & Hrep & H).
    apply bind_Ok in H as (rs & w3 & Hrest & H).
    cbn in H. injection H as <- _.
    destruct (IH _ _ _ _ Hrest) as [Hmap Hall].
    destruct (convertFile_result _ _ _ _ _ _ _ _ _ Hrun) as [[fs ->] | (e & He & ->)].
    + split; [cbn; now rewrite Hmap|].
      constructor; [|exact Hall]. split; [reflexivity|]. split; [|discriminate].
      intros _. cbn in Hrep. cbn. destruct fs; [discriminate Hrep | discriminate].
    + split; [cbn; now rewrite Hmap|].
      constructor; [|exact Hall]. split; [reflexivity|]. split; [|reflexivity].
      intros Hno. rewrite (hasError_failure _ _ He) in Hno. discriminate.
Qed.

(** X11: a loop that runs to its end returns one result per document,
    in the order of the documents and each with its document as source;
    a result without error in it has at least one output file (a
    conversion that reports success and found none makes the loop throw
    instead), and a result with an error has none. *)
Theorem loop_results_in_order (env : Env) (config : Config) (i total : nat)
    (files : list string) (w w' : World) (results : list ConversionResult) :
  convertLoop env config i total files w = (Ok results, w') ->
  map source results = files
  /\ length results = length files
  /\ Forall (fun r => hasError r = false -> outputFiles r <> []) results
  /\ Forall (fun r => hasError r = true -> outputFiles r = [] /\ pages r = 0) results.
Proof.
  intros Hloop. destruct (convertLoop_Ok _ _ _ _ _ _ _ _ Hloop) as [Hmap Hall].
  split; [exact Hmap|]. split; [rewrite <- Hmap; symmetry; apply length_map|].
  split; (eapply Forall_impl; [exact Hall|]); cbn beta.
  - intros r (_ & H & _). exact H.
  - intros r (Hp & _ & H) Hyes. split; [now apply H|]. rewrite Hp, (H Hyes). reflexivity.
Qed.

Lemma loop_results_in_order_witness :
  exists results w',
    convertLoop Demo.broken Demo.config 0 2
      ["/home/u/docs/A.docx"; "/home/u/docs/B.DOTM"] Demo.start = (Ok results, w')
    /\ map source results = ["/home/u/docs/A.docx"; "/home/u/docs/B.DOTM"].
Proof.
  eexists. eexists. split; [vm_compute; reflexivity|].
  eapply (loop_results_in_order Demo.broken Demo.config 0 2
            ["/home/u/docs/A.docx"; "/home/u/docs/B.DOTM"] Demo.start).
  vm_compute. reflexivity.
Defined.

Lemma totalJpgs_sum (results : list ConversionResult) :
  totalJpgs results = list_sum (map pages results).
Proof.
  unfold totalJpgs.
  assert (H : forall n, fold_left (fun sum r => sum + pages r) results n
                        = n + list_sum (map pages results)).
  { induction results as [|r rs IH]; intros n; cbn [fold_left map]; [cbn; lia|].
    rewrite IH. change (list_sum (pages r :: map pages rs))
      with (pages r + list_sum (map pages rs)). lia. }
  apply (H 0).
Qed.

Lemma counts_partition (results : list ConversionResult) :
  successCount results + errorCount results = length results.
Proof.
  unfold successCount, errorCount.
  induction results as [|r rs IH]; [reflexivity|].
  rewrite !filter_cons. destruct (hasError r) eqn:E;
    repeat (destruct (decide _); try congruence); cbn; lia.
Qed.

(** X12: the summary of a run that converts.  [main] returns only after
    at least one document was found; its last line is the summary; the
    successes and the errors it counts add up to the number of documents
    collected, and the total of JPGs is the number of output files of all
    results together, the documents that failed counting for nothing. *)
Theorem summary_counts (env : Env) (args : list string) (w w' : World)
    (results : list ConversionResult) :
  main env args w = (Ok results, w') ->
  results <> []
  /\ exists config files w1,
       preLoop env args w = (Ok (config, files), w1)
       /\ map source results = files
       /\ last (console w')
          = Some (LSummary (successCount results) (errorCount results)
                           (totalJpgs results) (outputDir config))
       /\ successCount results + errorCount results = length files
       /\ totalJpgs results = pagesTotal results
       /\ totalJpgs results
          = pagesTotal (filter (fun r => hasError r = false) results).
Proof.
  unfold main. intros H.
  apply bind_Ok in H as ([config files] & w1 & Hpre & H).
  apply bind_Ok in H as (rs & w2 & Hloop & H).
  cbn in H. injection H as <- <-.
  destruct (convertLoop_Ok _ _ _ _ _ _ _ _ Hloop) as [Hmap Hall].
  assert (Hfiles : files <> []).
  { unfold preLoop in Hpre.
    apply bind_Ok in Hpre as (_ & wa & _ & Hpre).
    apply bind_Ok in Hpre as (c & wb & _ & Hpre).
    apply bind_Ok in Hpre as (_ & wc & _ & Hpre).
    destruct (negb (existsSync env (inputPath c))); [discriminate|].
    apply bind_Ok in Hpre as (fs & wd & _ & Hpre).
    destruct fs as [|f fs]; [discriminate|].
    apply bind_Ok in Hpre as (_ & we & _ & Hpre).
    apply bind_Ok in Hpre as (_ & wf & _ & Hpre).
    cbn in Hpre. injection Hpre as _ <- _. discriminate. }
  split.
  { intros ->. cbn in Hmap. congruence. }
  exists config, files, w1. split; [exact Hpre|]. split; [exact Hmap|].
  split; [cbn; apply last_snoc|].
  split; [rewrite counts_partition, <- Hmap; symmetry; apply length_map|].
  assert (Htotal : totalJpgs rs = pagesTotal rs).
  { rewrite totalJpgs_sum. unfold pagesTotal. f_equal.
    apply map_ext_Forall. eapply Forall_impl; [exact Hall|].
    intros r (Hp & _). exact Hp. }
  split; [exact Htotal|]. rewrite Htotal. unfold pagesTotal.
  clear -Hall. induction Hall as [|r rs (_ & _ & Hr) _ IH]; [reflexivity|].
  rewrite filter_cons.
  change (list_sum (map (fun r => length (outputFiles r)) (r :: rs)))
    with (length (outputFiles r)
          + list_sum (map (fun r => length (outputFiles r)) rs)).
  rewrite IH. destruct (decide (hasError r = false)) as [E|E].
  - reflexivity.
  - destruct (hasError r); [|congruence]. now rewrite (Hr eq_refl).
Qed.

Lemma summary_counts_witness :
  exists results w',
    main Demo.broken ["docs"] Demo.start = (Ok results, w')
    /\ successCount results + errorCount results = 2
    /\ totalJpgs results = 0.
Proof.
  eexists. eexists. split; [vm_compute; reflexivity|].
  edestruct (summary_counts Demo.broken ["docs"] Demo.start)
    as (_ & config & files & w1 & Hpre & _ & _ & Hcount & _);
    [vm_compute; reflexivity|].
  split; [|reflexivity].
  vm_compute in Hpre. injection Hpre as _ <- _. exact Hcount.
Defined.

(** ** Edges of the loop and of [convertFile] *)

(** X13: a conversion that reports no error and has no output file (the
    rasterizer exits with 0 and the output subdirectory holds no [.jpg]
    entry) is no success for [main]: the line that reports it reads the
    first output file, the [TypeError] leaves the loop, the remaining
    documents are not converted, no summary is written and the process
    ends with exit code 1. *)
Theorem success_without_output_aborts (env : Env) (args : list string)
    (w w1 w2 : World) (config : Config) (file : string) (rest : list string)
    (r : ConversionResult) :
  preLoop env args w = (Ok (config, file :: rest), w1) ->
  convertFile env file (outputDir config) (dpi config) (quality config)
              (resize config)
              (mkWorld (dirs w1)
                 (console w1 ++ [LFile 1 (S (length rest))
                                       (Path.basename file EmptyString)]))
    = (Ok r, w2) ->
  hasError r = false ->
  outputFiles r = [] ->
  run env args w
  = (1%Z, mkWorld (dirs w2) (console w2 ++ [LUnexpected typeErrorPath])).
Proof.
  intros Hpre Hrun Hok Hout.
  assert (Hloop : convertLoop env config 0 (length (file :: rest)) (file :: rest) w1
                  = (Throw typeErrorPath, w2)).
  { cbn [convertLoop]. unfold bind at 1. cbn [print length Nat.add].
    rewrite (bind_run _ _ _ _ _ Hrun). rewrite Hok, Hout. reflexivity. }
  unfold run, main. rewrite (bind_run _ _ _ _ _ Hpre). cbn iota beta.
  now rewrite (bind_throw _ _ _ _ _ Hloop).
Qed.

Lemma success_without_output_aborts_witness :
  fst (run Hosts.noPages ["Report.docx"] Demo.start) = 1%Z.
Proof.
  erewrite (success_without_output_aborts Hosts.noPages ["Report.docx"] Demo.start);
    [reflexivity | vm_compute; reflexivity | vm_compute; reflexivity
     | reflexivity | reflexivity].
Defined.

(** X14: [convertFile] throws only while it makes its two directories:
    either the output subdirectory cannot be made, and nothing has changed,
    or it was made and the scratch directory cannot be; in both cases no
    tool has run and nothing was written to the console.  Every exception
    after that point becomes the error of the result. *)
Theorem conversion_throws_only_at_setup (env : Env) (filePath outputDir : string)
    (dpi quality : Js.number) (resize : option Resize) (w w' : World) (e : string) :
  convertFile env filePath outputDir dpi quality resize w = (Throw e, w') ->
  console w' = console w
  /\ ((mkdirError env (fileOutputDir filePath outputDir) (dirs w) = Some e /\ w' = w)
      \/ (mkdirSync env (fileOutputDir filePath outputDir) w = (Ok tt, w')
          /\ (mkdtempSuffix env (tmpPrefix env) (dirs w') = inr e
              \/ exists suffix,
                   mkdtempSuffix env (tmpPrefix env) (dirs w') = inl suffix
                   /\ is_Some (dirs w' !! (tmpPrefix env +:+ suffix))))).
Proof.
  intros Hrun.
  destruct (mkdirSync env (fileOutputDir filePath outputDir) w) as [[[]|c|e0] w1] eqn:Hmk.
  - destruct (mkdirSync_Ok _ _ _ _ Hmk) as (_ & Hcon & _).
    destruct (mkdtempSync env (tmpPrefix env) w1) as [[tmp|c|e0] w2] eqn:Htmp.
    + rewrite (convertFile_run _ _ _ _ _ _ _ _ _ _ Hmk Htmp) in Hrun. discriminate.
    + exfalso. unfold mkdtempSync in Htmp.
      destruct (mkdtempSuffix env (tmpPrefix env) (dirs w1)); [|discriminate].
      destruct (dirs w1 !! _); discriminate.
    + unfold convertFile in Hrun.
      rewrite (bind_run _ _ _ _ _ Hmk), (bind_throw _ _ _ _ _ Htmp) in Hrun.
      injection Hrun as <- <-. unfold mkdtempSync in Htmp.
      destruct (mkdtempSuffix env (tmpPrefix env) (dirs w1)) as [s|e1] eqn:Es.
      * destruct (dirs w1 !! (tmpPrefix env +:+ s)) eqn:El; [|discriminate].
        injection Htmp as _ <-. split; [exact Hcon|]. right. split; [reflexivity|].
        right. exists s. split; [exact Es | eauto].
      * injection Htmp as <- <-. split; [exact Hcon|]. right. split; [reflexivity|].
        left. exact Es.
  - exfalso. unfold mkdirSync in Hmk.
    destruct (mkdirError env _ (dirs w)); discriminate.
  - unfold convertFile in Hrun. rewrite (bind_throw _ _ _ _ _ Hmk) in Hrun.
    injection Hrun as <- <-. unfold mkdirSync in Hmk.
    destruct (mkdirError env _ (dirs w)) as [e1|] eqn:Ee.
    + injection Hmk as <- <-. split; [reflexivity|]. left. split; reflexivity.
    + discriminate.
Qed.

Lemma conversion_throws_only_at_setup_witness :
  console (snd (convertFile Hosts.noScratch "/home/u/Report.docx" "/home/u/output"
                            (Js.Num 150) (Js.Num 90) None Demo.start)) = [].
Proof.
  eapply (conversion_throws_only_at_setup Hosts.noScratch "/home/u/Report.docx"
            "/home/u/output" (Js.Num 150) (Js.Num 90) None Demo.start).
  vm_compute. reflexivity.
Defined.

(** ** A resize that fails *)

Lemma bind_throw_inv {A B} (m : M A) (k : A -> M B) (w w' : World) (e : string) :
  bind m k w = (Throw e, w') ->
  m w = (Throw e, w') \/ exists a w1, m w = (Ok a, w1) /\ k a w1 = (Throw e, w').
Proof.
  unfold bind. destruct (m w) as [[a|c|e0] w1]; [eauto | discriminate |].
  intros [= <- <-]. now left.
Qed.

Lemma scratch_is_not_output (env : Env) (dir prefix tmp : string) (w w1 w2 : World) :
  mkdirSync env dir w = (Ok tt, w1) ->
  mkdtempSync env prefix w1 = (Ok tmp, w2) ->
  tmp <> dir.
Proof.
  intros Hmk Htmp. destruct (mkdirSync_Ok _ _ _ _ Hmk) as (Hout & _ & _).
  destruct (mkdtempSync_Ok _ _ _ _ _ Htmp) as (Hfresh & _ & _).
  intros ->. rewrite Hfresh in Hout. now destruct Hout.
Qed.

Section ResizeFailure.

Variable env : Env.
Variables (filePath outputDir : string) (dpi quality : Js.number)
          (resize : option Resize).

#[local] Abbreviation notResize :=
  (fun e : string => Js.startsWith e "ImageMagick resize error: " = false).

Lemma resizeEach_throws_nonempty (r : Resize) (files : list string)
    (w w' : World) (e : string) :
  resizeEach env quality r files w = (Throw e, w') -> files <> [].
Proof. destruct files; [discriminate | discriminate]. Qed.

(** An error of the resizer comes from the loop over the collected files,
    after they were collected. *)
Lemma tryBody_resize_error (tmp : string) (w w' : World) (e : string) :
  tryBody env filePath outputDir dpi quality resize tmp w = (Throw e, w') ->
  Js.startsWith e "ImageMagick resize error: " = true ->
  exists names,
    dirs w' !! fileOutputDir filePath outputDir = Some names
    /\ filter (fun f => isJpg f = true) names <> [].
Proof.
  unfold tryBody. intros H He.
  assert (Hnot : forall A (m : M A) w0 w0',
            Throws notResize m -> m w0 <> (Throw e, w0')).
  { intros A m w0 w0' Hm Heq. apply Hm in Heq. congruence. }
  apply bind_throw_inv in H as [H | (_ & wa & _ & H)].
  { exfalso. revert H. apply Hnot. unfold renderPdf. throws; reflexivity. }
  apply bind_throw_inv in H as [H | (pdf & wb & _ & H)].
  { exfalso. revert H. apply Hnot. unfold locatePdf. throws; try reflexivity.
    intros w0 e0 w0'. unfold readdirSync. destruct (dirs w0 !! tmp); [discriminate|].
    now intros [= <- _].
    intros w0 e0 w0'. unfold readdirSync. destruct (dirs w0 !! tmp); [discriminate|].
    now intros [= <- _]. }
  apply bind_throw_inv in H as [H | (n & wc & _ & H)].
  { exfalso. revert H. apply Hnot. unfold determinePageCount. throws. }
  apply bind_throw_inv in H as [H | (_ & wd & _ & H)].
  { exfalso. revert H. apply Hnot. unfold rasterize. throws; reflexivity. }
  apply bind_throw_inv in H as [H | (files & we & Hc & H)].
  { exfalso. revert H. apply Hnot. unfold collectOutputs. throws.
    intros w0 e0 w0'. unfold readdirSync.
    destruct (dirs w0 !! fileOutputDir filePath outputDir); [discriminate|].
    now intros [= <- _]. }
  apply bind_throw_inv in H as [H | ([] & wf & _ & H)]; [|discriminate].
  apply collectOutputs_Ok in Hc as (-> & names & Hn & ->).
  pose proof (resizeOutputs_dirs env quality resize
                (map (Path.join (fileOutputDir filePath outputDir))
                     (Js.sort (filter (fun f => isJpg f = true) names))) wd) as Hd.
  rewrite H in Hd. cbn [snd] in Hd. exists names. split; [now rewrite Hd|].
  unfold resizeOutputs in H. destruct resize as [r|]; [|discriminate].
  apply bind_throw_inv in H as [H | ([] & wg & _ & H)]; [discriminate|].
  apply resizeEach_throws_nonempty in H. intros Hnil. apply H.
  now rewrite Hnil.
Qed.

End ResizeFailure.

(** X15: a resize that fails comes after the pages were written and
    nothing is rolled back: when the error of a result is the one of the
    resizer, the result lists no output file and counts no page, while the
    output subdirectory still holds at least one [.jpg] entry. *)
Theorem resize_failure_keeps_pages (env : Env) (filePath outputDir : string)
    (dpi quality : Js.number) (resize : option Resize) (w w' : World)
    (r : ConversionResult) (e : string) :
  convertFile env filePath outputDir dpi quality resize w = (Ok r, w') ->
  error r = Some e ->
  Js.startsWith e "ImageMagick resize error: " = true ->
  outputFiles r = [] /\ pages r = 0
  /\ exists names,
       dirs w' !! fileOutputDir filePath outputDir = Some names
       /\ filter (fun f => isJpg f = true) names <> [].
Proof.
  intros Hrun Herr He.
  destruct (convertFile_Ok _ _ _ _ _ _ _ _ _ Hrun) as (w1 & tmp & w2 & Hmk & Htmp).
  pose proof (scratch_is_not_output _ _ _ _ _ _ _ Hmk Htmp) as Hne.
  rewrite (convertFile_run _ _ _ _ _ _ _ _ _ _ Hmk Htmp) in Hrun.
  destruct (tryBody env filePath outputDir dpi quality resize tmp w2)
    as [[files|c|e0] w3] eqn:Hbody; cbn [fst snd] in Hrun; injection Hrun as <- <-.
  - discriminate Herr.
  - pose proof (Behaved_tryBody env filePath outputDir dpi quality resize tmp w2) as Hb.
    rewrite Hbody in Hb. contradiction.
  - injection Herr as ->. split; [reflexivity|]. split; [reflexivity|].
    destruct (tryBody_resize_error _ _ _ _ _ _ _ _ _ _ Hbody He) as (names & Hn & Hjpg).
    exists names. split; [|exact Hjpg].
    rewrite cleanup_other; [exact Hn | congruence].
Qed.

Lemma resize_failure_keeps_pages_witness :
  exists names,
    dirs (snd (convertFile Hosts.noResize "/home/u/Report.docx" "/home/u/output"
                 (Js.Num 150) (Js.Num 90)
                 (Some (mkResize (Js.Num 2480) (Js.Num 3508))) Demo.start))
      !! "/home/u/output/Report" = Some names
    /\ filter (fun f => isJpg f = true) names <> [].
Proof.
  eapply (resize_failure_keeps_pages Hosts.noResize "/home/u/Report.docx"
            "/home/u/output" (Js.Num 150) (Js.Num 90)
            (Some (mkResize (Js.Num 2480) (Js.Num 3508))) Demo.start);
    [vm_compute; reflexivity | reflexivity | reflexivity].
Defined.

(** ** The output subdirectory *)

Lemma split_segments (p : string) :
  Forall (fun s => isFileName s = true) (Path.split p).
Proof.
  induction p as [|c p IH]; [repeat constructor|]. cbn [Path.split].
  destruct (Ascii.eqb c Path.slash) eqn:Ec; [constructor; [reflexivity | exact IH]|].
  destruct (Path.split p) as [|seg segs]; [repeat constructor; cbn; now rewrite Ec|].
  inversion IH as [|? ? Hseg Hsegs]; subst. constructor; [|exact Hsegs].
  unfold isFileName in *. cbn [Js.forallChars]. now rewrite Ec, Hseg.
Qed.

Lemma isFileName_substring (n m : nat) (s : string) :
  isFileName s = true -> isFileName (String.substring n m s) = true.
Proof.
  unfold isFileName. revert n m. induction s as [|c s IH]; intros n m Hs.
  - destruct n, m; reflexivity.
  - cbn [Js.forallChars] in Hs. apply andb_true_iff in Hs as [Hc Hs].
    destruct n as [|n]; cbn [String.substring].
    + destruct m as [|m]; [reflexivity|]. cbn [Js.forallChars].
      now rewrite Hc, (IH 0 m Hs).
    + now apply IH.
Qed.

Lemma lastPart_isFileName (p : string) : isFileName (Path.lastPart p) = true.
Proof.
  unfold Path.lastPart.
  pose proof (split_segments p) as Hs. apply Forall_rev in Hs.
  set (l := List.rev (Path.split p)) in *. clearbody l.
  induction Hs as [|s l Hs _ IH]; [reflexivity|].
  rewrite filter_cons. destruct (decide (Js.nonEmpty s = true)); [exact Hs | exact IH].
Qed.

(** The base name of a document without its extension holds no
    separator. *)
Lemma docBasename_isFileName (p : string) : isFileName (docBasename p) = true.
Proof.
  unfold docBasename, Path.basename. pose proof (lastPart_isFileName p) as Hb.
  destruct (Path.extname p) as [|c e]; [exact Hb|].
  destruct (String c e =? p)%string; [reflexivity|].
  destruct (String c e =? Path.lastPart p)%string; [exact Hb|].
  destruct (Js.endsWith (Path.lastPart p) (String c e)); [|exact Hb].
  now apply isFileName_substring.
Qed.

Lemma joinPrefix_unfold (d : string) :
  d <> EmptyString ->
  joinPrefix d
  = (if Path.isAbsolute d then "/" else EmptyString)
    +:+ match Path.normSegments (negb (Path.isAbsolute d)) (Path.split d) with
        | [] => EmptyString
        | segs => Path.joinSegments segs +:+ "/"
        end.
Proof.
  intros Hd. unfold joinPrefix, Path.normSegments. destruct d as [|c d]; [congruence|].
  set (kept := fold_left _ _ []). destruct kept as [|k ks]; [reflexivity|].
  destruct (List.rev (k :: ks)) eqn:E; [|reflexivity].
  apply (f_equal (@length _)) in E. rewrite length_rev in E. discriminate.
Qed.

(** For a normalized directory that is not written with a separator at
    its end, [path.join] puts the directory and a separator before a file
    name. *)
Lemma joinPrefix_normal (d : string) :
  Path.normalize d = d -> Js.endsWith d "/" = false -> d <> "." ->
  joinPrefix d = d +:+ "/".
Proof.
  intros Hn Hend Hdot.
  assert (Hd : d <> EmptyString) by (intros ->; discriminate Hn).
  rewrite (joinPrefix_unfold _ Hd).
  unfold Path.normalize in Hn. destruct d as [|c d]; [congruence|].
  rewrite Hend in Hn.
  set (abs := Path.isAbsolute (String c d)) in *.
  set (segs := Path.normSegments (negb abs) (Path.split (String c d))) in *.
  destruct segs as [|s segs'] eqn:Es.
  - cbn [Path.joinSegments] in Hn. destruct abs.
    + rewrite <- Hn in Hend. discriminate Hend.
    + congruence.
  - destruct (Path.joinSegments (s :: segs')) as [|b body] eqn:Eb.
    + destruct abs.
      * rewrite <- Hn in Hend. discriminate Hend.
      * congruence.
    + clearbody abs. destruct abs; rewrite <- Hn; [|reflexivity].
      now rewrite append_assoc.
Qed.

(** The same one level down: before a file name in the entry [base] of
    a directory. *)
Lemma joinPrefix_child (d base : string) :
  d <> EmptyString ->
  isFileName base = true -> base <> EmptyString -> base <> "." -> base <> ".." ->
  joinPrefix (d +:+ "/" +:+ base) = joinPrefix d +:+ base +:+ "/".
Proof.
  intros Hd Hf H0 H1 H2.
  assert (Hx : d +:+ "/" +:+ base <> EmptyString) by (destruct d; [congruence|discriminate]).
  rewrite (joinPrefix_unfold _ Hx), (joinPrefix_unfold _ Hd).
  rewrite (isAbsolute_append d _ Hd).
  change (d +:+ "/" +:+ base) with (d +:+ String Path.slash base).
  rewrite split_append_slash, (split_fileName _ Hf).
  unfold Path.normSegments. rewrite fold_left_app. cbn [fold_left].
  rewrite (normStep_fileName _ _ _ H0 H1 H2).
  change (List.rev (base :: ?k)) with (List.rev k ++ [base]).
  set (segs := List.rev _).
  destruct (segs ++ [base]) as [|x xs] eqn:E; [now destruct segs|].
  rewrite <- E, joinSegments_snoc.
  destruct segs; now rewrite !append_assoc.
Qed.

(** X16: where the output files of a successful conversion lie.  Let the
    output directory be normalized and written without a separator at its
    end (as [path.resolve] returns it), and let the base name of the
    document without its extension be a name other than the empty name,
    [.] and [..].  Then the output subdirectory is the entry of that name
    in the output directory; it exists when the result is returned;
    [pages] is the number of output files, which is the number of [.jpg]
    entries of the subdirectory; and, the entries being file names, each
    output file is such an entry of the subdirectory, every such entry is
    listed, and the list is sorted lexicographically. *)
Theorem outputs_in_named_subdirectory (env : Env) (filePath outputDir : string)
    (dpi quality : Js.number) (resize : option Resize) (w w' : World)
    (r : ConversionResult) :
  convertFile env filePath outputDir dpi quality resize w = (Ok r, w') ->
  error r = None ->
  Path.normalize outputDir = outputDir ->
  Js.endsWith outputDir "/" = false ->
  outputDir <> "." ->
  docBasename filePath <> EmptyString ->
  docBasename filePath <> "." ->
  docBasename filePath <> ".." ->
  let sub := outputDir +:+ "/" +:+ docBasename filePath in
  fileOutputDir filePath outputDir = sub
  /\ exists names,
       dirs w' !! sub = Some names
       /\ pages r = length (outputFiles r)
       /\ pages r = length (filter (fun f => isJpg f = true) names)
       /\ (Forall (fun f => isFileName f = true) names ->
           outputFiles r
           = map (fun f => sub +:+ "/" +:+ f)
                 (Js.sort (filter (fun f => isJpg f = true) names))
           /\ StronglySorted lexLe (outputFiles r)).
Proof.
  intros Hrun Herr Hnorm Hend Hdot H0 H1 H2 sub.
  pose proof (docBasename_isFileName filePath) as Hf.
  assert (Hd : outputDir <> EmptyString) by (intros ->; discriminate Hnorm).
  assert (Hsub : fileOutputDir filePath outputDir = sub).
  { unfold fileOutputDir, sub. rewrite (join_fileName _ _ Hf H0 H1 H2).
    rewrite (joinPrefix_normal _ Hnorm Hend Hdot). now rewrite append_assoc. }
  split; [exact Hsub|].
  destruct (success_outputs _ _ _ _ _ _ _ _ _ Hrun Herr)
    as (names & Hnames & Hfiles & Hpages & Hcount).
  rewrite Hsub in Hnames, Hfiles.
  exists names. split; [exact Hnames|]. split; [exact Hpages|].
  split; [exact Hcount|]. intros Hall.
  split; [|rewrite Hfiles; now apply sorted_outputs].
  rewrite Hfiles. apply map_ext_Forall. rewrite Forall_forall. intros f Hin.
  rewrite (sort_perm _) in Hin. apply list_elem_of_filter in Hin as [Hjpg Hin].
  rewrite Forall_forall in Hall. specialize (Hall f Hin). cbn beta in Hall.
  destruct (isJpg_not_special _ Hjpg) as (Hf0 & Hf1 & Hf2).
  rewrite (join_fileName _ _ Hall Hf0 Hf1 Hf2).
  unfold sub. rewrite (joinPrefix_child _ _ Hd Hf H0 H1 H2).
  rewrite (joinPrefix_normal _ Hnorm Hend Hdot).
  now rewrite !append_assoc.
Qed.

Lemma outputs_in_named_subdirectory_witness :
  exists w',
    convertFile Demo.host "/home/u/Report.docx" "/home/u/output"
                (Js.Num 150) (Js.Num 90) None Demo.start
    = (Ok (mkResult "/home/u/Report.docx" 3
             [ "/home/u/output/Report/Report_page-1.jpg";
               "/home/u/output/Report/Report_page-2.jpg";
               "/home/u/output/Report/Report_page-3.jpg" ] None), w')
    /\ fileOutputDir "/home/u/Report.docx" "/home/u/output" = "/home/u/output/Report"
    /\ StronglySorted lexLe
         [ "/home/u/output/Report/Report_page-1.jpg";
           "/home/u/output/Report/Report_page-2.jpg";
           "/home/u/output/Report/Report_page-3.jpg" ].
Proof.
  eexists. split; [vm_compute; reflexivity|].
  edestruct (outputs_in_named_subdirectory Demo.host "/home/u/Report.docx"
               "/home/u/output" (Js.Num 150) (Js.Num 90) None Demo.start)
    as (Hsub & names & Hnames & _ & _ & Hlist);
    [ vm_compute; reflexivity | reflexivity | reflexivity | reflexivity
    | discriminate | discriminate | discriminate | discriminate | ].
  split; [exact Hsub|].
  vm_compute in Hnames. injection Hnames as <-.
  apply Hlist. repeat constructor.
Defined.

(** ** Directories on concrete inputs *)

Example mkdir_makes_the_directories_above :
  dirs (snd (mkdirSync Demo.host "/home/u/a/b/c"
               (mkWorld (<["/home/u" := ["docs"]]> ∅) [])))
  = <["/home/u/a/b/c" := []]>
      (<["/home/u/a/b" := ["c"]]>
         (<["/home/u/a" := ["b"]]>
            (<["/home/u" := ["docs"; "a"]]> ∅))).
Proof. vm_compute. reflexivity. Qed.

Example failed_removal_leaves_a_part :
  let host :=
    mkEnv (cwd Demo.host) (homedir Demo.host) (tmpdir Demo.host) (stat Demo.host)
          (which Demo.host) (soffice Demo.host) (identify Demo.host)
          (pdfinfo Demo.host) (pdftoppm Demo.host) (convert Demo.host)
          (mkdirError Demo.host) (mkdtempSuffix Demo.host)
          (fun _ _ => Some "EACCES: permission denied, unlink")
          (fun _ _ f => (f =? "b.pdf")%string) in
  rmSync host "/tmp/x" (mkWorld (<["/tmp/x" := ["a.pdf"; "b.pdf"]]> ∅) [])
  = (Throw "EACCES: permission denied, unlink",
     mkWorld (<["/tmp/x" := ["b.pdf"]]> ∅) []).
Proof. vm_compute. reflexivity. Qed.

Example parseInt_rounds_to_a_double :
  Js.parseInt "9007199254740992" = Js.Num 9007199254740992
  /\ Js.parseInt "9007199254740993" = Js.Num 9007199254740992
  /\ Js.parseInt "99999999999999999999" = Js.Num 100000000000000000000
  /\ Js.parseInt "-12px" = Js.Num (-12)
  /\ Js.ofN (2 ^ 1024) = Js.Infinity false.
Proof. repeat split; vm_compute; reflexivity. Qed.
